(** * tests/testtool: the differential conformance harness

    A shallow embedding of the bash script [tests/testtool].  Shell functions
    become state-passing functions over a [shell_state]: the file store the
    script and the programs it starts read and write, and the global shell
    variables the script assigns ([prng_seed], [num_tests_passed],
    [num_tests_failed], [key_id], [region]).  A command returns its exit
    status next to the new state; [exit] is modelled by a separate outcome
    for the functions that can reach it ([die], [ok_or_die], [main], ...).

    What is outside the script (openssl, p11ne-cli, numfmt, mkdir, tee, ...)
    is one uninterpreted function [exec] from an argument vector and a file
    store to an exit status, the text written on standard output and a new
    file store.  The per-case log file (the redirection [>$logfile 2>&1]) is
    not part of the model: [echo] is a command that returns 0. *)

From Stdlib Require Import ZArith List String Ascii Lia DecimalString DecimalZ.
From Stdlib.Strings Require Import Byte.
From stdpp Require Import base decidable option gmap strings list.

Open Scope Z_scope.

(** ** Bytes, files and bash integers *)

#[global] Instance byte_eq_decision : EqDecision byte := Byte.byte_eq_dec.

(** Bash evaluates [$(( ... ))] on signed 64-bit integers and wraps around. *)
Definition bash_arith (z : Z) : Z := (z + 2 ^ 63) `mod` 2 ^ 64 - 2 ^ 63.

(** [[ a -gt b ]] compares 64-bit integers; on a word outside their range
    the test fails with an error, which an [if] takes as false. *)
Definition bash_int (z : Z) : bool := (- 2 ^ 63 <=? z) && (z <? 2 ^ 63).

Definition test_gt (a b : Z) : bool := bash_int a && bash_int b && (b <? a).

(** Bit [k] (0 is the least significant one) of a byte, inverted. *)
Definition flip_bit_byte (k : N) (b : byte) : byte :=
  match Byte.of_N (N.lxor (Byte.to_N b) (N.shiftl 1 k)) with
  | Some b' => b'
  | None => b
  end.

(** Bit [bit] of a byte sequence lives in byte [bit / 8]. *)
Definition flip_bit (content : list byte) (bit : Z) : list byte :=
  alter (flip_bit_byte (Z.to_N (bit `mod` 8))) (Z.to_nat (bit / 8)) content.

(** The number of bit positions in which two bytes, and two byte sequences of
    the same length, differ. *)
Definition byte_diff_bits (a b : byte) : nat :=
  length (filter (λ k, N.testbit (Byte.to_N a) k ≠ N.testbit (Byte.to_N b) k)
                 [0; 1; 2; 3; 4; 5; 6; 7]%N).

Fixpoint differing_bits (x y : list byte) : nat :=
  match x, y with
  | a :: x', b :: y' => (byte_diff_bits a b + differing_bits x' y')%nat
  | _, _ => 0%nat
  end.

(** ** The shell state *)

(** How [log_test_result] marks a case on standard output. *)
Inductive result := PASSED | FAILED.

#[global] Instance result_eq_decision : EqDecision result.
Proof. solve_decision. Defined.

Record shell_state := ShellState {
  (** the file store *)
  files : gmap string (list byte);
  (** the result lines written so far, oldest first: test name and mark *)
  report : list (string * result);
  (** the shell variables *)
  prng_seed : string;
  num_tests_passed : Z;
  num_tests_failed : Z;
  key_id : string;
  region : string
}.

Definition set_files (f : gmap string (list byte) → gmap string (list byte))
    (s : shell_state) : shell_state :=
  ShellState (f (files s)) (report s) (prng_seed s) (num_tests_passed s)
             (num_tests_failed s) (key_id s) (region s).

Definition add_report (line : string * result) (s : shell_state) : shell_state :=
  ShellState (files s) (report s ++ [line]) (prng_seed s) (num_tests_passed s)
             (num_tests_failed s) (key_id s) (region s).

Definition set_prng_seed (v : string) (s : shell_state) : shell_state :=
  ShellState (files s) (report s) v (num_tests_passed s) (num_tests_failed s)
             (key_id s) (region s).

Definition set_num_tests_passed (v : Z) (s : shell_state) : shell_state :=
  ShellState (files s) (report s) (prng_seed s) v (num_tests_failed s)
             (key_id s) (region s).

Definition set_num_tests_failed (v : Z) (s : shell_state) : shell_state :=
  ShellState (files s) (report s) (prng_seed s) (num_tests_passed s) v
             (key_id s) (region s).

Definition set_key_id (v : string) (s : shell_state) : shell_state :=
  ShellState (files s) (report s) (prng_seed s) (num_tests_passed s)
             (num_tests_failed s) v (region s).

Definition set_region (v : string) (s : shell_state) : shell_state :=
  ShellState (files s) (report s) (prng_seed s) (num_tests_passed s)
             (num_tests_failed s) (key_id s) v.

(** What is left when a subshell ends: the files it wrote and the lines it
    printed stay, the variables are those of the shell that started it. *)
Definition leave_subshell (outer inner : shell_state) : shell_state :=
  ShellState (files inner) (report inner) (prng_seed outer)
             (num_tests_passed outer) (num_tests_failed outer)
             (key_id outer) (region outer).

(** The state the script starts in: the assignments at its top
    ([prng_seed="none"], both counters 0), nothing printed, nothing else
    set. *)
Definition initial_state (fs : gmap string (list byte)) : shell_state :=
  ShellState fs [] "none" 0 0 "" "".

(** ** Commands *)

(** A command that cannot leave the shell: exit status and new state. *)
Definition cmd := shell_state → Z * shell_state.

(** A function that may also call [exit]. *)
Inductive outcome :=
  | Returned (status : Z)
  | Exited (code : Z).

Definition proc := shell_state → outcome * shell_state.

Definition ret (status : Z) : cmd := λ s, (status, s).

(** [c1 && c2] *)
Definition and_then (c1 c2 : cmd) : cmd := λ s,
  let '(r, s') := c1 s in if r =? 0 then c2 s' else (r, s').

(** [c1 ; c2] (or a newline) *)
Definition then_ (c1 c2 : cmd) : cmd := λ s, c2 (c1 s).2.

(** [! c] *)
Definition negate (c : cmd) : cmd := λ s,
  let '(r, s') := c s in (if r =? 0 then 1 else 0, s').

(** [( c )] *)
Definition subshell (c : cmd) : cmd := λ s,
  let '(r, s') := c s in (r, leave_subshell s s').

(** [if [ test ] ; then c ; fi] for a test that has no effect: status 0 when
    the test fails. *)
Definition if_then (test : bool) (c : cmd) : cmd :=
  if test then c else ret 0.

Definition echo (line : string) : cmd := ret 0.

Declare Scope cmd_scope.
Delimit Scope cmd_scope with cmd.
Bind Scope cmd_scope with cmd.
Infix "&&>" := and_then (at level 62, right associativity) : cmd_scope.
Infix ";;>" := then_ (at level 64, right associativity) : cmd_scope.

(** The [&&]-list of a sequence of commands. *)
Fixpoint and_list (cs : list cmd) : cmd :=
  match cs with
  | [] => ret 0
  | [c] => c
  | c :: cs' => and_then c (and_list cs')
  end.

(** ** The programs outside the script *)

Class Environment := {
  (** any external program: argument vector and file store to exit status,
      standard output and file store *)
  exec : list string → gmap string (list byte) →
         Z * string * gmap string (list byte);
  (** byte [i] of the pseudo-random content for a seed and a size *)
  prng_gen : string → Z → N → byte;
  (** the raw number the seeded generator draws for a range *)
  prng_draw : string → Z → Z → Z;
  (** what [$RANDOM] expands to when [main] reads it *)
  RANDOM : Z
}.

(** Words of the script that hold numbers are written in decimal, and read
    back where a test or an arithmetic expansion needs the number. *)
Definition dec (z : Z) : string := NilZero.string_of_int (Z.to_int z).

Definition int_of_word (w : string) : option Z :=
  Z.of_int <$> NilZero.int_of_string w.

(** [diff a b]: 0 when both files exist and are equal, 1 when they differ,
    2 when one of them cannot be read. *)
Definition diff (a b : string) : cmd := λ s,
  match files s !! a, files s !! b with
  | Some x, Some y => (if decide (x = y) then 0 else 1, s)
  | _, _ => (2, s)
  end.

(** [cp src dst]: it fails, and changes nothing, when [src] cannot be read
    and when the two paths are the same file. *)
Definition cp (src dst : string) : cmd := λ s,
  match files s !! src with
  | Some x => if decide (src = dst) then (1, s) else (0, set_files <[dst := x]> s)
  | None => (1, s)
  end.

(** [cat <(echo -n 'A') file > out]: the redirection creates [out], the
    letter is written, then the file when it can be read. *)
Definition cat_A (file out : string) : cmd := λ s,
  match files s !! file with
  | Some x => (0, set_files <[out := "A"%byte :: x]> s)
  | None => (1, set_files <[out := ["A"%byte]]> s)
  end.

(** [n] bytes of a generator, from position [i] on. *)
Fixpoint prng_content (gen : N → byte) (i : N) (n : nat) : list byte :=
  match n with
  | O => []
  | S n' => gen i :: prng_content gen (N.succ i) n'
  end.

Section Testtool.
Context `{Environment}.

(** An external program whose output is not read. *)
Definition run (argv : list string) : cmd := λ s,
  let '(r, _, fs) := exec argv (files s) in (r, set_files (λ _, fs) s).

(** [$(prog args)]: the text an external program prints, and the state it
    leaves. *)
Definition capture (argv : list string) (s : shell_state) : string * shell_state :=
  let '(_, out, fs) := exec argv (files s) in (out, set_files (λ _, fs) s).

(** *** Constants of the script *)

Definition RESULT_DIR : string := "tests/results".
Definition OVERALL_LOG_FILE : string := RESULT_DIR +:+ "/logs".
Definition HELPER_PATH : string := "tests/testhelpers".
Definition TEST_LARGE_FILE_SIZES : list Z := [0; 32; 256; 1024; 4096; 16000].
Definition TEST_SMALL_FILE_SIZES : list Z := [1; 2; 4; 8; 16; 32; 64; 128].
Definition TEST_ECDSA_FILE_SIZES : list Z := [1; 2; 4; 8; 16; 32; 55].
Definition TEST_RSAPSS_SALT_SIZES : list string :=
  ["0"; "1"; "2"; "4"; "16"; "48"; "64"]%string.
Definition TEST_DIGESTS : list string :=
  ["sha1"; "sha224"; "sha256"; "sha384"; "sha512"]%string.

Definition PIN : string := "1234".
Definition KEYID : string := "%01".
Definition TOKEN_LABEL : string := "test-token".
Definition URI_TOKEN : string :=
  "pkcs11:model=p11ne-token;manufacturer=Amazon;serial=EVT00;token="
  +:+ TOKEN_LABEL +:+ ";pin-value=" +:+ PIN +:+ ";id=" +:+ KEYID.
Definition URI_CERT : string := "object=acm-ne-cert-0;type=cert".
Definition KEYS_DIR : string := "./tests/keys/".
Definition KEY_DB_DIR : string := "tests/db".
Definition CERTS_DIR : string := "./tests/certs/".
Definition RSA_KEYS : list string := ["rsa1024"; "rsa2048"; "rsa4096"]%string.
Definition ECDSA_KEYS : list string :=
  ["secp384r1"; "secp521r1"; "prime256v1"]%string.

Definition EXIT_CODE_INVALID_PARAMS : Z := 1.
Definition EXIT_CODE_FAILED_TESTS : Z := 2.

(** *** The helper binary [tests/testhelpers] *)

(** Modelled from the spec: the [prng_file] subcommand of the helper binary
    tests/testhelpers, which the script runs as [$HELPER_PATH] and which is
    a program of its own, not part of the script.
    Spec 4.1: [generate(path, size, seed)], deterministic given [seed],
    produces [size] bytes of pseudo-random content; size 0 gives an empty
    file.  A negative size is taken to fail. *)
Definition helper_prng_file (path : string) (size : Z) (seed : string) : cmd := λ s,
  if size <? 0 then (1, s)
  else (0, set_files <[path := prng_content (prng_gen seed size) 0 (Z.to_nat size)]> s).

(** Modelled from the spec: the [prng_int] subcommand of tests/testhelpers.
    Spec 4.2: one bit index in [[bitRangeStart, bitRangeEnd)], chosen with
    the seeded generator.  Nothing is printed for an empty range. *)
Definition helper_prng_int (seed : string) (start end_ : Z) : option Z :=
  if start <? end_
  then Some (start + prng_draw seed start end_ `mod` (end_ - start))
  else None.

(** Modelled from the spec: the [bitflip] subcommand of tests/testhelpers.
    Spec 4.2: flips the selected bit of the file.  A missing file, a missing
    index or an index outside the file is taken to fail. *)
Definition helper_bitflip (path : string) (bit : option Z) : cmd := λ s,
  match bit, files s !! path with
  | Some b, Some content =>
      if (0 <=? b) && (b <? 8 * Z.of_nat (length content))
      then (0, set_files <[path := flip_bit content b]> s)
      else (1, s)
  | _, _ => (1, s)
  end.

(** *** Input files and their corruption *)

Definition create_test_random_file (outputfile : string) (size : Z) : cmd := λ s,
  helper_prng_file outputfile size (prng_seed s) s.

Definition create_test_random_file_rsax509 (outputfile : string) (size : Z) : cmd := λ s,
  let '(dir, s1) := capture ["mktemp"; "-d"]%string s in
  let tmpfile := dir +:+ "/input" in
  (helper_prng_file tmpfile (bash_arith (size - 1)) (prng_seed s1)
   &&> cat_A tmpfile outputfile)%cmd s1.

(** [local bit=$(...)] has the status of [local], which is 0. *)
Definition bitflip (inputfile outputfile : string) (start end_ : Z) : cmd := λ s,
  (cp inputfile outputfile &&>
   (λ s1, let bit := helper_prng_int (prng_seed s1) start end_ in
          (echo "Flipping bit" &&> helper_bitflip outputfile bit)%cmd s1))%cmd s.

(** *** Names and paths *)

(** [numfmt] is an external program; its text is whatever [exec] prints. *)
Definition get_size_humanreadable (filesize : Z) (s : shell_state) : string * shell_state :=
  capture ["numfmt"; "--to=iec-i"; "--suffix=B"; "--format=%1f"; dec filesize]%string s.

(** [mkdir -p "$dir" >&2 ; echo "$dir"] *)
Definition create_test_dir (dirname dirpath : string) (s : shell_state) : string * shell_state :=
  let dir := RESULT_DIR +:+ "/" +:+ dirpath +:+ "/" +:+ dirname in
  (dir, (run ["mkdir"; "-p"; dir]%string s).2).

Definition get_key_file (keylabel keytype : string) : string :=
  KEYS_DIR +:+ "/" +:+ keylabel +:+ "_" +:+ keytype +:+ "key.pem".

Definition get_cert_file (certlabel : string) : string :=
  CERTS_DIR +:+ "/" +:+ certlabel +:+ "_cert.pem".

Definition get_cert_file_key (keylabel : string) : string :=
  CERTS_DIR +:+ "/" +:+ keylabel +:+ "_key.pem".

Definition get_key_pkcs_uri (keylabel keytype : string) : string :=
  URI_TOKEN +:+ ";object=" +:+ keylabel +:+ ";type=" +:+ keytype.

(** [IFS="_" ; echo "$*"] *)
Definition generate_test_name (words : list string) : string :=
  String.concat "_" words.

(** *** The ledger *)

(** The line [log_test_result] prints is the test name, padding dots built
    with [wc], [printf] and [sed] (which read and write no file) and the
    mark; the report keeps the name and the mark.  The status is that of the
    last [echo]. *)
Definition log_test_result (testname : string) (test_exitcode : Z) : cmd := λ s,
  if test_exitcode =? 0
  then (0, add_report (testname, PASSED)
             (set_num_tests_passed (bash_arith (num_tests_passed s + 1)) s))
  else (0, add_report (testname, FAILED)
             (set_num_tests_failed (bash_arith (num_tests_failed s + 1)) s)).

Definition nl : string := String "010"%char "".

(** What [printf "\n%d tests passed, %d tests failed\n"] writes. *)
Definition test_results_summary (s : shell_state) : string :=
  nl +:+ dec (num_tests_passed s) +:+ " tests passed, "
     +:+ dec (num_tests_failed s) +:+ " tests failed" +:+ nl.

(** *** Operation providers: the wrappers around openssl

    Each takes the key label, two paths and the test-specific words
    ([$testargs], unquoted, so they arrive as [$4], [$5]). *)

Definition provider := string → string → string → list string → cmd.

Definition arg (n : nat) (testargs : list string) : string := nth n testargs "".

(** Sign RSA *)

Definition openssl_ref_digestsign_rsa : provider := λ keylabel input outsign testargs,
  let digest := arg 0 testargs in
  run ["openssl"; "dgst"; "-" +:+ digest;
       "-sign"; get_key_file keylabel "private";
       "-out"; outsign; input]%string.

(** [$options] is never set: it expands to no word. *)
Definition openssl_ref_digestverify_rsa : provider := λ keylabel input sign testargs,
  let digest := arg 0 testargs in
  run ["openssl"; "dgst"; "-" +:+ digest;
       "-verify"; get_key_file keylabel "public";
       "-signature"; sign; input]%string.

Definition openssl_pkcs_digestsign_rsa : provider := λ keylabel input outsign testargs,
  let digest := arg 0 testargs in
  run ["openssl"; "dgst"; "-" +:+ digest; "-keyform"; "engine"; "-engine"; "pkcs11";
       "-sign"; get_key_pkcs_uri keylabel "private";
       "-out"; outsign; input]%string.

Definition openssl_pkcs_digestverify_rsa : provider := λ keylabel input sign testargs,
  let digest := arg 0 testargs in
  run ["openssl"; "dgst"; "-" +:+ digest; "-keyform"; "engine"; "-engine"; "pkcs11";
       "-verify"; get_key_pkcs_uri keylabel "public";
       "-signature"; sign; input]%string.

(** Sign RSA X509 *)

Definition openssl_ref_sign_rsa_x509 : provider := λ keylabel input outsign testargs,
  run ["openssl"; "rsautl";
       "-sign"; "-inkey"; get_key_file keylabel "private";
       "-out"; outsign; "-in"; input; "-raw"]%string.

Definition openssl_ref_verify_rsa_x509 : provider := λ keylabel input sign testargs,
  let outverify := sign +:+ ".refverify" in
  (run ["openssl"; "rsautl";
        "-verify"; "-inkey"; get_key_file keylabel "public";
        "-in"; sign; "-out"; outverify; "-pubin"; "-raw"]%string
   &&> diff input outverify)%cmd.

Definition openssl_pkcs_sign_rsa_x509 : provider := λ keylabel input outsign testargs,
  run ["openssl"; "rsautl"; "-keyform"; "engine"; "-engine"; "pkcs11";
       "-sign"; "-inkey"; get_key_pkcs_uri keylabel "private";
       "-out"; outsign; "-in"; input; "-raw"]%string.

Definition openssl_pkcs_verify_rsa_x509 : provider := λ keylabel input sign testargs,
  let outverify := sign +:+ ".pkcsverify" in
  (run ["openssl"; "rsautl"; "-keyform"; "engine"; "-engine"; "pkcs11";
        "-verify"; "-inkey"; get_key_pkcs_uri keylabel "public";
        "-in"; sign; "-out"; outverify; "-pubin"; "-raw"]%string
   &&> diff input outverify)%cmd.

(** Sign RSA-PSS *)

Definition openssl_ref_digestsign_rsapss : provider := λ keylabel input outsign testargs,
  let saltlen := arg 0 testargs in
  let digest := arg 1 testargs in
  run ["openssl"; "dgst"; "-" +:+ digest;
       "-sign"; get_key_file keylabel "private";
       "-sigopt"; "rsa_padding_mode:pss";
       "-sigopt"; "rsa_pss_saltlen:" +:+ saltlen;
       "-out"; outsign; input]%string.

Definition openssl_ref_digestverify_rsapss : provider := λ keylabel input sign testargs,
  let saltlen := arg 0 testargs in
  let digest := arg 1 testargs in
  run ["openssl"; "dgst"; "-" +:+ digest;
       "-verify"; get_key_file keylabel "public";
       "-sigopt"; "rsa_padding_mode:pss";
       "-sigopt"; "rsa_pss_saltlen:" +:+ saltlen;
       "-signature"; sign; input]%string.

Definition openssl_pkcs_digestsign_rsapss : provider := λ keylabel input outsign testargs,
  let saltlen := arg 0 testargs in
  let digest := arg 1 testargs in
  run ["openssl"; "dgst"; "-" +:+ digest; "-keyform"; "engine"; "-engine"; "pkcs11";
       "-sign"; get_key_pkcs_uri keylabel "private";
       "-sigopt"; "rsa_padding_mode:pss";
       "-sigopt"; "rsa_pss_saltlen:" +:+ saltlen;
       "-sigopt"; "digest:" +:+ digest;
       "-out"; outsign; input]%string.

Definition openssl_pkcs_digestverify_rsapss : provider := λ keylabel input sign testargs,
  let saltlen := arg 0 testargs in
  let digest := arg 1 testargs in
  run ["openssl"; "dgst"; "-" +:+ digest; "-keyform"; "engine"; "-engine"; "pkcs11";
       "-verify"; get_key_pkcs_uri keylabel "public";
       "-sigopt"; "rsa_padding_mode:pss";
       "-sigopt"; "rsa_pss_saltlen:" +:+ saltlen;
       "-sigopt"; "digest:" +:+ digest;
       "-signature"; sign; input]%string.

(** Sign and verify ECDSA *)

Definition openssl_pkcs_sign_ecdsa : provider := λ keylabel input outsign testargs,
  run ["openssl"; "dgst"; "-keyform"; "engine"; "-engine"; "pkcs11";
       "-sign"; get_key_pkcs_uri keylabel "private";
       "-out"; outsign; input]%string.

Definition openssl_pkcs_verify_ecdsa : provider := λ keylabel input sign testargs,
  run ["openssl"; "dgst"; "-keyform"; "engine"; "-engine"; "pkcs11";
       "-verify"; get_key_pkcs_uri keylabel "public";
       "-signature"; sign; input]%string.

(** [openssl dgst -sign key input > "$outsign"]: the redirection empties the
    signature file, then what openssl prints goes into it. *)
Definition openssl_ref_sign_ecdsa : provider := λ keylabel input outsign testargs s,
  let '(r, out, fs) :=
    exec ["openssl"; "dgst"; "-sign"; get_key_file keylabel "private"; input]%string
         (<[outsign := []]> (files s)) in
  (r, set_files (λ _, <[outsign := list_byte_of_string out]> fs) s).

Definition openssl_ref_verify_ecdsa : provider := λ keylabel input sign testargs,
  run ["openssl"; "dgst";
       "-verify"; get_key_file keylabel "public";
       "-signature"; sign; input]%string.

(** Encrypt and decrypt RSA *)

Definition openssl_pkcs_encrypt_rsa : provider := λ keylabel input outenc testargs,
  run ["openssl"; "pkeyutl"; "-encrypt"; "-keyform"; "engine"; "-engine"; "pkcs11";
       "-pubin"; "-inkey"; get_key_pkcs_uri keylabel "public";
       "-out"; outenc; "-in"; input]%string.

Definition openssl_pkcs_decrypt_rsa : provider := λ keylabel input enc testargs,
  let outdec := enc +:+ ".pkcsdecrypted" in
  (run ["openssl"; "pkeyutl"; "-decrypt"; "-keyform"; "engine"; "-engine"; "pkcs11";
        "-inkey"; get_key_pkcs_uri keylabel "private";
        "-out"; outdec; "-in"; enc]%string
   &&> diff input outdec)%cmd.

Definition openssl_ref_encrypt_rsa : provider := λ keylabel input outenc testargs,
  run ["openssl"; "pkeyutl"; "-encrypt";
       "-pubin"; "-inkey"; get_key_file keylabel "public";
       "-out"; outenc; "-in"; input]%string.

Definition openssl_ref_decrypt_rsa : provider := λ keylabel input enc testargs,
  let outdec := enc +:+ ".refdecrypted" in
  (run ["openssl"; "pkeyutl"; "-decrypt";
        "-inkey"; get_key_file keylabel "private";
        "-out"; outdec; "-in"; enc]%string
   &&> diff input outdec)%cmd.

(** Encrypt and decrypt x509.  The decrypting wrappers build the output
    path from [$sign], a variable that is set nowhere on their call path,
    so the path is the bare suffix. *)

Definition openssl_pkcs_encrypt_rsax509 : provider := λ keylabel input outenc testargs,
  run ["openssl"; "pkeyutl"; "-encrypt"; "-keyform"; "engine"; "-engine"; "pkcs11";
       "-pubin"; "-inkey"; get_key_pkcs_uri keylabel "public";
       "-out"; outenc; "-in"; input;
       "-pkeyopt"; "rsa_padding_mode:none"]%string.

Definition openssl_pkcs_decrypt_rsax509 : provider := λ keylabel input enc testargs,
  let outdec := "" +:+ ".pkcsdecrypted" in
  (run ["openssl"; "pkeyutl"; "-decrypt"; "-keyform"; "engine"; "-engine"; "pkcs11";
        "-inkey"; get_key_pkcs_uri keylabel "private";
        "-out"; outdec; "-in"; enc;
        "-pkeyopt"; "rsa_padding_mode:none"]%string
   &&> diff input outdec)%cmd.

Definition openssl_ref_encrypt_rsax509 : provider := λ keylabel input outenc testargs,
  run ["openssl"; "pkeyutl"; "-encrypt";
       "-pubin"; "-inkey"; get_key_file keylabel "public";
       "-out"; outenc; "-in"; input;
       "-pkeyopt"; "rsa_padding_mode:none"]%string.

Definition openssl_ref_decrypt_rsax509 : provider := λ keylabel input enc testargs,
  let outdec := "" +:+ ".refdecrypted" in
  (run ["openssl"; "pkeyutl"; "-decrypt";
        "-inkey"; get_key_file keylabel "private";
        "-out"; outdec; "-in"; enc;
        "-pkeyopt"; "rsa_padding_mode:none"]%string
   &&> diff input outdec)%cmd.

(** *** The differential test template *)

Definition comparator := string → string → list string → cmd.
Definition input_generator := string → Z → cmd.

(** The shell builtin [true], used as a comparator. *)
Definition true_ : comparator := λ _ _ _, ret 0.

Section Template.
Variables (fct_generator_pkcs fct_generator_ref : provider).
Variables (fct_checker_pkcs fct_checker_ref : provider).
Variable (fct_custom_check_out_files : comparator).
Variable (fct_prng_inputfile : input_generator).
Variables (filesize : Z) (keylabel : string) (testargs : list string).
Variable (test_dir : string).

Definition inputpath : string := test_dir +:+ "/input".
Definition corruptedinputpath : string := test_dir +:+ "/input_corrupted".
Definition logfile : string := test_dir +:+ "/logs".
Definition pkcs_out_path : string := test_dir +:+ "/input.pkcsout".
Definition ref_out_path : string := test_dir +:+ "/input.refout".

(** The group [{ ... } >$logfile 2>&1]; its status is the case's
    [exitcode]. *)
Definition testtemplate_group : cmd :=
  (echo "Running test" ;;>

   echo "Creating input file" &&>
   fct_prng_inputfile inputpath filesize &&>

   if_then (test_gt filesize 0)
     (echo "Corrupting input file" &&>
      bitflip inputpath corruptedinputpath 0 (bash_arith (8 * filesize)) &&>
      subshell (negate (diff inputpath corruptedinputpath))) &&>

   echo "PKCS library - generate" &&>
   fct_generator_pkcs keylabel inputpath pkcs_out_path testargs &&>

   echo "Reference - generate" &&>
   fct_generator_ref keylabel inputpath ref_out_path testargs &&>

   echo "Custom check pkcs output file against reference output file" &&>
   fct_custom_check_out_files pkcs_out_path ref_out_path testargs &&>

   echo "Reference check of pkcs output" &&>
   fct_checker_ref keylabel inputpath pkcs_out_path testargs &&>

   echo "PKCS check of reference output" &&>
   fct_checker_pkcs keylabel inputpath ref_out_path testargs &&>

   if_then (test_gt filesize 0)
     (echo "Checking that the PKCS output can not be checked against corrupted input by reference checker" &&>
      subshell (negate (fct_checker_ref keylabel corruptedinputpath pkcs_out_path testargs)) &&>

      echo "Checking that the reference output can not be checked against corrupted input using pkcs11 module" &&>
      subshell (negate (fct_checker_pkcs keylabel corruptedinputpath ref_out_path testargs))))%cmd.

(** The same list read as the steps of the template's description: each
    [if] contributes its steps when the payload is not empty. *)
Definition steps_input : list cmd :=
  [echo "Creating input file"; fct_prng_inputfile inputpath filesize].

Definition steps_corrupt : list cmd :=
  if test_gt filesize 0
  then [echo "Corrupting input file";
        bitflip inputpath corruptedinputpath 0 (bash_arith (8 * filesize));
        subshell (negate (diff inputpath corruptedinputpath))]
  else [].

Definition steps_generate : list cmd :=
  [echo "PKCS library - generate";
   fct_generator_pkcs keylabel inputpath pkcs_out_path testargs;
   echo "Reference - generate";
   fct_generator_ref keylabel inputpath ref_out_path testargs].

Definition steps_compare : list cmd :=
  [echo "Custom check pkcs output file against reference output file";
   fct_custom_check_out_files pkcs_out_path ref_out_path testargs].

Definition steps_verify : list cmd :=
  [echo "Reference check of pkcs output";
   fct_checker_ref keylabel inputpath pkcs_out_path testargs;
   echo "PKCS check of reference output";
   fct_checker_pkcs keylabel inputpath ref_out_path testargs].

Definition steps_negative : list cmd :=
  if test_gt filesize 0
  then [echo "Checking that the PKCS output can not be checked against corrupted input by reference checker";
        subshell (negate (fct_checker_ref keylabel corruptedinputpath pkcs_out_path testargs));
        echo "Checking that the reference output can not be checked against corrupted input using pkcs11 module";
        subshell (negate (fct_checker_pkcs keylabel corruptedinputpath ref_out_path testargs))]
  else [].

Definition testtemplate_steps : list cmd :=
  steps_input ++ steps_corrupt ++ steps_generate ++ steps_compare
    ++ steps_verify ++ steps_negative.

End Template.

(** The locals computed before the group: the test name and the scratch
    directory of the case. *)
Definition testtemplate_setup (test_basename test_family : string)
    (filesize : Z) (keylabel : string) (testargs : list string)
    (s : shell_state) : string * string * shell_state :=
  let '(filesize_humanreadable, s1) := get_size_humanreadable filesize s in
  let testname :=
    generate_test_name (test_basename :: keylabel :: filesize_humanreadable :: testargs) in
  let '(test_dir, s2) := create_test_dir testname test_family s1 in
  (testname, test_dir, s2).

Definition testtemplate_generate_check
    (test_basename test_family : string)
    (fct_generator_pkcs fct_generator_ref fct_checker_pkcs fct_checker_ref : provider)
    (fct_custom_check_out_files : comparator)
    (fct_prng_inputfile : input_generator)
    (filesize : Z) (keylabel : string) (testargs : list string) : cmd := λ s,
  let '(testname, test_dir, s2) :=
    testtemplate_setup test_basename test_family filesize keylabel testargs s in
  let '(exitcode, s3) :=
    testtemplate_group fct_generator_pkcs fct_generator_ref
      fct_checker_pkcs fct_checker_ref fct_custom_check_out_files
      fct_prng_inputfile filesize keylabel testargs test_dir s2 in
  (echo testname ;;> log_test_result testname exitcode)%cmd s3.

(** *** Comparators and test families *)

Definition check_outfiles_diff : comparator := λ pkcs_out ref_out _,
  diff pkcs_out ref_out.

Definition test_openssl_digestsignverify_rsa (filesize : Z) (keylabel digest : string) : cmd :=
  testtemplate_generate_check
    "test_openssl_digestsignverify_rsa"
    ("signverify/rsa_pkcs/" +:+ keylabel)
    openssl_pkcs_digestsign_rsa openssl_ref_digestsign_rsa
    openssl_pkcs_digestverify_rsa openssl_ref_digestverify_rsa
    check_outfiles_diff
    create_test_random_file
    filesize keylabel
    [digest].

Definition test_openssl_signverify_rsa_x509 (filesize : Z) (keylabel : string) : cmd :=
  testtemplate_generate_check
    "test_openssl_signverify_rsa_x509"
    ("signverify/rsa_x509/" +:+ keylabel)
    openssl_pkcs_sign_rsa_x509 openssl_ref_sign_rsa_x509
    openssl_pkcs_verify_rsa_x509 openssl_ref_verify_rsa_x509
    check_outfiles_diff
    create_test_random_file_rsax509
    filesize keylabel
    [].

(** [[ "$saltlen" -eq 0 ]] holds when the word reads as the integer 0; a word
    that is no integer makes the test fail, which takes the [else] branch. *)
Definition check_outfiles_signverify_rsapss : comparator := λ pkcs_out ref_out testargs,
  let saltlen := arg 0 testargs in
  if decide (int_of_word saltlen = Some 0)
  then (echo "Checking that the resulting files are identical as no salt is used" &&>
        diff pkcs_out pkcs_out)%cmd
  else echo "Skiping indentical files check as salt is used".

(** The skip test compares words: [[ $keylabel == "rsa1024" ] && [ $saltlen == 64 ]]. *)
Definition rsapss_skipped (keylabel saltlen : string) : bool :=
  bool_decide (keylabel = "rsa1024") && bool_decide (saltlen = "64").

Definition test_openssl_digestsignverify_rsapss
    (filesize : Z) (keylabel saltlen digest : string) : cmd :=
  if rsapss_skipped keylabel saltlen then ret 0
  else
    testtemplate_generate_check
      "test_openssl_digestsignverify_rsapss"
      ("signverify/rsapss/" +:+ keylabel)
      openssl_pkcs_digestsign_rsapss openssl_ref_digestsign_rsapss
      openssl_pkcs_digestverify_rsapss openssl_ref_digestverify_rsapss
      check_outfiles_signverify_rsapss
      create_test_random_file
      filesize keylabel
      [saltlen; digest].

Definition test_openssl_signverify_ecdsa (filesize : Z) (keylabel : string) : cmd :=
  testtemplate_generate_check
    "test_openssl_signverify_ecdsa"
    ("signverify/ecdsa/" +:+ keylabel)
    openssl_pkcs_sign_ecdsa openssl_ref_sign_ecdsa
    openssl_pkcs_verify_ecdsa openssl_ref_verify_ecdsa
    true_
    create_test_random_file
    filesize keylabel
    [].

(** [[ $keylabel == "rsa1024" ] && [ $filesize == 128 ]].  The template's
    first word is written [\ "${FUNCNAME[0]}"]: the name with a blank in
    front, which the unquoted expansion in the name generation drops. *)
Definition encryptdecrypt_rsa_skipped (filesize : Z) (keylabel : string) : bool :=
  bool_decide (keylabel = "rsa1024") && bool_decide (dec filesize = "128").

Definition test_openssl_encryptdecrypt_rsa (filesize : Z) (keylabel : string) : cmd :=
  if encryptdecrypt_rsa_skipped filesize keylabel then ret 0
  else
    testtemplate_generate_check
      "test_openssl_encryptdecrypt_rsa"
      ("encryptdecrypt/rsa_pkcs/" +:+ keylabel)
      openssl_pkcs_encrypt_rsa openssl_ref_encrypt_rsa
      openssl_pkcs_decrypt_rsa openssl_ref_decrypt_rsa
      true_
      create_test_random_file
      filesize keylabel
      [].

Definition test_openssl_encryptdecrypt_rsa_x509 (filesize : Z) (keylabel : string) : cmd :=
  testtemplate_generate_check
    "test_openssl_encryptdecrypt_rsa_x509"
    ("encryptdecrypt/rsa_x509/" +:+ keylabel)
    openssl_pkcs_encrypt_rsax509 openssl_ref_encrypt_rsax509
    openssl_pkcs_decrypt_rsax509 openssl_ref_decrypt_rsax509
    check_outfiles_diff
    create_test_random_file_rsax509
    filesize keylabel
    [].

(** *** Functions that can leave the shell *)

Definition lift (c : cmd) : proc := λ s,
  let '(r, s') := c s in (Returned r, s').

(** [p ; k $?]: what follows runs unless [p] called [exit]. *)
Definition bind (p : proc) (k : Z → proc) : proc := λ s,
  match p s with
  | (Returned r, s') => k r s'
  | (Exited c, s') => (Exited c, s')
  end.

Notation "p ;> q" := (bind p (λ _, q)) (at level 64, right associativity).
Notation "r <~ p ;> q" := (bind p (λ r, q))
  (at level 64, p at next level, right associativity).

(** [for x in xs ; do body ; done] *)
Fixpoint for_each {A} (xs : list A) (body : A → proc) : proc :=
  match xs with
  | [] => lift (ret 0)
  | [x] => body x
  | x :: xs' => body x ;> for_each xs' body
  end.

(** [die [-c code] message]: the message goes to standard error. *)
Definition die (code : Z) : proc := λ s, (Exited code, s).

(** [ok_or_die message], called with [$?] equal to [code]. *)
Definition ok_or_die (code : Z) : proc :=
  if code =? 0 then lift (ret 0) else die code.

(** [echo "$USAGE"] *)
Definition cmd_help : proc := lift (echo "USAGE").

Definition prepare_test_env : proc :=
  r <~ lift (run ["mkdir"; "-p"; KEY_DB_DIR]%string) ;>
  ok_or_die r ;>
  r <~ lift (run ["p11ne-cli"; "start"]%string) ;>
  if r =? 0 then lift (ret 0)
  else
    r <~ lift (run ["p11ne-cli"; "stop"]%string) ;>
    ok_or_die r ;>
    r <~ lift (run ["p11ne-cli"; "start"]%string) ;>
    ok_or_die r.

Definition cleanup_test_env : proc :=
  lift (run ["p11ne-cli"; "stop"]%string) ;>
  lift (run ["rm"; "-rf"; KEY_DB_DIR]%string) ;>
  lift (run ["rm"; "-rf"; CERTS_DIR]%string).

(** [provision_key --kms-key-id K --kms-region R --key-label L]: every call
    in the script has these six words, so the count test passes and the
    option loop assigns the three variables. *)
Definition provision_key (kms_key_id kms_region keylabel : string) : proc :=
  lift (λ s, (0, set_region kms_region (set_key_id kms_key_id s))) ;>
  r <~ lift (λ s, run ["p11ne-db"; "pack-key"; "--id"; "1"; "--label"; keylabel;
                       "--key-file"; get_key_file keylabel "private";
                       "--out-file"; KEY_DB_DIR +:+ "/" +:+ keylabel;
                       "--kms-key-id"; key_id s; "--kms-region"; region s]%string s) ;>
  ok_or_die r ;>
  lift (run ["p11ne-cli"; "init-token"; "--key-db";
             KEY_DB_DIR +:+ "/" +:+ keylabel +:+ ".db";
             "--label"; TOKEN_LABEL; "--pin"; PIN]%string) ;>
  lift (ret 0).

Definition provision_key_w_cert (kms_key_id kms_region keylabel : string) : proc :=
  lift (λ s, (0, set_region kms_region (set_key_id kms_key_id s))) ;>
  r <~ lift (λ s, run ["p11ne-db"; "pack-key"; "--id"; "1"; "--label"; keylabel;
                       "--key-file"; get_cert_file_key keylabel;
                       "--cert-file"; get_cert_file keylabel;
                       "--out-file"; KEY_DB_DIR +:+ "/" +:+ keylabel;
                       "--kms-key-id"; key_id s; "--kms-region"; region s]%string s) ;>
  ok_or_die r ;>
  lift (run ["p11ne-cli"; "init-token"; "--key-db";
             KEY_DB_DIR +:+ "/" +:+ keylabel +:+ ".db";
             "--label"; TOKEN_LABEL; "--pin"; PIN]%string) ;>
  lift (ret 0).

(** [cleanup_key --key-label L] *)
Definition cleanup_key (keylabel : string) : proc :=
  lift (run ["p11ne-cli"; "release-token"; "--label"; TOKEN_LABEL; "--pin"; PIN]%string).

(** The certificate chains are made by openssl, cp, cat and rm inside
    [$CERTS_DIR]; none of it touches a shell variable of the model, so the
    whole function is one step of the environment on the file store. *)
Definition create_test_certs : proc :=
  lift (run ["create_test_certs"; CERTS_DIR]%string).

(** The option loop of [cmd_openssl]: [shift] twice after an option, [die]
    on any other word. *)
Fixpoint cmd_openssl_options (fuel : nat) (args : list string) : proc :=
  match fuel, args with
  | _, [] => lift (ret 0)
  | O, _ => lift (ret 0)
  | S fuel', w :: rest =>
      if decide (w = "--kms-key-id") then
        lift (λ s, (0, set_key_id (hd "" rest) s)) ;> cmd_openssl_options fuel' (tl rest)
      else if decide (w = "--kms-region") then
        lift (λ s, (0, set_region (hd "" rest) s)) ;> cmd_openssl_options fuel' (tl rest)
      else cmd_help ;> die 1
  end.

(** The raw RSA families use one payload size per key: the key's length. *)
Definition rsa_x509_case (test : Z → string → cmd) (rsa_key : string) : proc :=
  if decide (rsa_key = "rsa1024") then lift (test 128 "rsa1024")
  else if decide (rsa_key = "rsa2048") then lift (test 256 "rsa2048")
  else if decide (rsa_key = "rsa4096") then lift (test 512 "rsa4096")
  else lift (ret 0).

(** One certificate export test of [cmd_openssl]: provision, export with
    p11tool, log, clean up.  The last of the four is a negative test: it
    logs 0 when the export failed, and otherwise [$?] after the test
    [[ $? -ne 0 ]] that just failed, which is 1. *)
Definition x509_export_case (keylabel testname : string) (negative : bool) : proc :=
  lift (echo testname) ;>
  (λ s, provision_key_w_cert (key_id s) (region s) keylabel s) ;>
  r <~ lift (run ["p11tool"; "--export"; URI_TOKEN +:+ ";" +:+ URI_CERT]%string) ;>
  lift (if negative
        then (if r =? 0 then log_test_result testname 1 else log_test_result testname 0)
        else log_test_result testname r) ;>
  cleanup_key keylabel.

(** The test set.  The progress lines it echoes between the loops are left
    out. *)
Definition cmd_openssl (args : list string) : proc :=
  cmd_openssl_options (length args) args ;>

  prepare_test_env ;>

  for_each RSA_KEYS (λ rsa_key,
    r <~ (λ s, provision_key (key_id s) (region s) rsa_key s) ;>
    ok_or_die r ;>

    for_each TEST_LARGE_FILE_SIZES (λ fsize,
      for_each TEST_DIGESTS (λ digest,
        for_each TEST_RSAPSS_SALT_SIZES (λ slen,
          lift (test_openssl_digestsignverify_rsapss fsize rsa_key slen digest)))) ;>

    for_each TEST_LARGE_FILE_SIZES (λ fsize,
      for_each TEST_DIGESTS (λ digest,
        lift (test_openssl_digestsignverify_rsa fsize rsa_key digest))) ;>

    rsa_x509_case test_openssl_signverify_rsa_x509 rsa_key ;>

    cleanup_key rsa_key) ;>

  for_each ECDSA_KEYS (λ ec_key,
    (λ s, provision_key (key_id s) (region s) ec_key s) ;>

    for_each TEST_ECDSA_FILE_SIZES (λ fsize,
      lift (test_openssl_signverify_ecdsa fsize ec_key)) ;>

    cleanup_key ec_key) ;>

  for_each RSA_KEYS (λ rsa_key,
    (λ s, provision_key (key_id s) (region s) rsa_key s) ;>

    for_each TEST_SMALL_FILE_SIZES (λ fsize,
      lift (test_openssl_encryptdecrypt_rsa fsize rsa_key)) ;>

    rsa_x509_case test_openssl_encryptdecrypt_rsa_x509 rsa_key ;>

    cleanup_key rsa_key) ;>

  (r <~ lift (run ["yum"; "list"; "installed"; "gnutls-utils"]%string) ;>
   if r =? 0 then
     create_test_certs ;>
     x509_export_case "selfsigned" "test_x509_single_cert" false ;>
     x509_export_case "valid_chain" "test_x509_valid_chain" false ;>
     x509_export_case "noroot_chain" "test_x509_noroot_chain" false ;>
     x509_export_case "invalid_chain" "test_x509_invalid_chain" true
   else lift (ret 0)) ;>

  cleanup_test_env.

(** *** main *)

(** [declare -f "cmd_$cmd"]: the script defines [cmd_openssl] and
    [cmd_help]. *)
Definition declare_f_cmd (cmd_name : string) : Z :=
  if decide (cmd_name = "openssl") then 0
  else if decide (cmd_name = "help") then 0
  else 1.

(** [cmd_"$@"] for a command that [declare -f] found. *)
Definition dispatch (args : list string) : proc :=
  if decide (hd "" args = "help") then cmd_help else cmd_openssl (tl args).

(** The group [{ ... }] of [main]. *)
Definition main_group (args : list string) : proc :=
  lift (λ s, (0, set_prng_seed (dec RANDOM) s)) ;>
  dispatch args ;>
  if decide (String.concat " " args = "help") then lift (ret 0)
  else
    (λ s, lift (echo (test_results_summary s)) s) ;>
    (λ s, if num_tests_failed s =? 0 then (Returned 0, s)
          else (Exited EXIT_CODE_FAILED_TESTS, s)).

(** [{ group ; } | tee file]: the group runs in a subshell, so its [exit]
    and its assignments end with it; the pipeline has the status of its
    last command. *)
Definition pipe_to_tee (group : proc) (file : string) : cmd := λ s,
  let '(_, s') := group s in
  run ["tee"; file]%string (leave_subshell s s').

(** [die] without [-c] exits with 1; [declare -f] returns 1 for a function
    that is not defined; whether [cd] succeeds is the environment's
    matter. *)
Definition main (arg0 : string) (args : list string) : proc :=
  match args with
  | [] => die 1
  | cmd_name :: _ =>
      ok_or_die (declare_f_cmd cmd_name) ;>
      (λ s, let '(dir, s1) := capture ["dirname"; arg0]%string s in
            (r <~ lift (run ["cd"; dir +:+ "/.."]%string) ;> ok_or_die r) s1) ;>
      lift (run ["mkdir"; "-p"; RESULT_DIR]%string) ;>
      lift (pipe_to_tee (main_group args) OVERALL_LOG_FILE)
  end.

(** The script ends with [main "${@}"]: the exit status of the process. *)
Definition testtool (arg0 : string) (args : list string) (fs : gmap string (list byte)) : Z :=
  match main arg0 args (initial_state fs) with
  | (Returned r, _) => r
  | (Exited c, _) => c
  end.

End Testtool.

(** ** The option loops, word by word *)

Section OptionWords.
Context `{Environment}.

Notation "p ;> q" := (bind p (λ _, q)) (at level 64, right associativity).
Notation "r <~ p ;> q" := (bind p (λ r, q))
  (at level 64, p at next level, right associativity).

(** The loop [while [[ "$#" -gt 0 ]] ; do case $1 in ... esac ; shift ; done]
    of [provision_key] and of [provision_key_w_cert].  [keylabel] is the
    shell variable of that name, which the loop assigns and the commands
    after it read; a [shift] with no word left does nothing; any other word
    prints the usage text and dies with 1. *)
Fixpoint provision_key_options (words : list string) (keylabel : string)
    (s : shell_state) : outcome * string * shell_state :=
  match words with
  | [] => (Returned 0, keylabel, s)
  | w :: rest =>
      let next keylabel' s' :=
        match rest with
        | [] => (Returned 0, keylabel', s')
        | _ :: rest' => provision_key_options rest' keylabel' s'
        end in
      if decide (w = "--kms-key-id") then next keylabel (set_key_id (hd "" rest) s)
      else if decide (w = "--kms-region") then next keylabel (set_region (hd "" rest) s)
      else if decide (w = "--key-label") then next (hd "" rest) s
      else (Exited 1, keylabel, s)
  end.

(** [provision_key "$@"]: the count test, the loop, then the two programs. *)
Definition provision_key_words (words : list string) (keylabel : string) : proc := λ s,
  if decide (length words = 6%nat) then
    match provision_key_options words keylabel s with
    | (Returned _, keylabel, s1) =>
        (r <~ lift (run ["p11ne-db"; "pack-key"; "--id"; "1"; "--label"; keylabel;
                         "--key-file"; get_key_file keylabel "private";
                         "--out-file"; KEY_DB_DIR +:+ "/" +:+ keylabel;
                         "--kms-key-id"; key_id s1; "--kms-region"; region s1]%string) ;>
         ok_or_die r ;>
         lift (run ["p11ne-cli"; "init-token"; "--key-db";
                    KEY_DB_DIR +:+ "/" +:+ keylabel +:+ ".db";
                    "--label"; TOKEN_LABEL; "--pin"; PIN]%string) ;>
         lift (ret 0)) s1
    | (Exited code, _, s1) => (Exited code, s1)
    end
  else die 1 s.

(** [provision_key_w_cert "$@"] *)
Definition provision_key_w_cert_words (words : list string) (keylabel : string) : proc := λ s,
  if decide (length words = 6%nat) then
    match provision_key_options words keylabel s with
    | (Returned _, keylabel, s1) =>
        (r <~ lift (run ["p11ne-db"; "pack-key"; "--id"; "1"; "--label"; keylabel;
                         "--key-file"; get_cert_file_key keylabel;
                         "--cert-file"; get_cert_file keylabel;
                         "--out-file"; KEY_DB_DIR +:+ "/" +:+ keylabel;
                         "--kms-key-id"; key_id s1; "--kms-region"; region s1]%string) ;>
         ok_or_die r ;>
         lift (run ["p11ne-cli"; "init-token"; "--key-db";
                    KEY_DB_DIR +:+ "/" +:+ keylabel +:+ ".db";
                    "--label"; TOKEN_LABEL; "--pin"; PIN]%string) ;>
         lift (ret 0)) s1
    | (Exited code, _, s1) => (Exited code, s1)
    end
  else die 1 s.

(** The loop of [cleanup_key], which knows one option. *)
Fixpoint cleanup_key_options (words : list string) (keylabel : string)
    : outcome * string :=
  match words with
  | [] => (Returned 0, keylabel)
  | w :: rest =>
      if decide (w = "--key-label") then
        match rest with
        | [] => (Returned 0, hd "" rest)
        | _ :: rest' => cleanup_key_options rest' (hd "" rest)
        end
      else (Exited 1, keylabel)
  end.

(** [cleanup_key "$@"] *)
Definition cleanup_key_words (words : list string) (keylabel : string) : proc := λ s,
  if decide (length words = 2%nat) then
    match cleanup_key_options words keylabel with
    | (Returned _, _) =>
        lift (run ["p11ne-cli"; "release-token"; "--label"; TOKEN_LABEL;
                   "--pin"; PIN]%string) s
    | (Exited code, _) => (Exited code, s)
    end
  else die 1 s.

End OptionWords.

(** The words of the test set's command line read as pairs of an option and
    its value: whether every word in an option's place is one of the two
    options, and the value the last occurrence of an option gives. *)
Definition is_option (w : string) : bool :=
  bool_decide (w = "--kms-key-id") || bool_decide (w = "--kms-region").

Fixpoint options_ok (args : list string) : bool :=
  match args with
  | [] => true
  | w :: rest =>
      is_option w && match rest with [] => true | _ :: rest' => options_ok rest' end
  end.

Fixpoint option_last (name : string) (args : list string) (default : string) : string :=
  match args with
  | [] => default
  | w :: rest =>
      let d := if decide (w = name) then hd "" rest else default in
      match rest with [] => d | _ :: rest' => option_last name rest' d end
  end.

(** ** The text of a result line *)

Definition ESC : ascii := "027"%char.

(** The coloured mark: [echo -e " $result"] turns [\e] into the escape
    character. *)
Definition mark_text (mark : result) : string :=
  match mark with
  | PASSED => String ESC "[32;1mPASSED" +:+ String ESC "[0m"
  | FAILED => String ESC "[31;1mFAILED" +:+ String ESC "[0m"
  end.

Fixpoint dots (n : nat) : string :=
  match n with
  | O => ""
  | S n' => String "." (dots n')
  end.

(** [printf "% ${len_pad}s" " " | sed 's/ /./g']: one blank, padded on the
    left to [len_pad] columns when that is more than one, every blank turned
    into a dot. *)
Definition padding (len_pad : Z) : string := dots (Z.to_nat (Z.max 1 len_pad)).

(** The letters of a word the builtin [echo] takes for options: a dash
    followed by one or more of the letters n, e and E. *)
Definition echo_options (word : string) : option (list ascii) :=
  match word with
  | String dash (String letter rest) =>
      let letters := letter :: list_ascii_of_string rest in
      if Ascii.eqb dash "-"
         && forallb (λ l, Ascii.eqb l "n" || Ascii.eqb l "e" || Ascii.eqb l "E") letters
      then Some letters
      else None
  | _ => None
  end.

(** [echo "$testname" | wc -c]: the bytes of the name and of the newline
    [echo] adds; a name [echo] takes for options is not printed, and with
    the letter n among them neither is the newline. *)
Definition echo_wc (testname : string) : Z :=
  match echo_options testname with
  | Some letters => if existsb (Ascii.eqb "n") letters then 0 else 1
  | None => Z.of_nat (String.length testname) + 1
  end.

(** The characters [log_test_result] writes for a line of the report: the
    name and a blank ([echo -n "$testname "], a word that is never an
    option), the padding when the name is short enough, a blank and the
    mark. *)
Definition result_line (line : string * result) : string :=
  let PAD_SIZE := 70 in
  let len_testname := echo_wc line.1 in
  line.1 +:+ " "
  +:+ (if len_testname <=? PAD_SIZE
       then padding (bash_arith (PAD_SIZE - len_testname))
       else "")
  +:+ " " +:+ mark_text line.2 +:+ nl.

(** ** The certificate chains *)

(** [cat f1 ... fn > out], for inputs other than [out]: the redirection
    creates [out], the files that can be read are written to it in order,
    and the status is 1 when one of them cannot be read. *)
Definition cat_to (inputs : list string) (out : string) : cmd := λ s,
  let contents := (λ f, files s !! f) <$> inputs in
  (if forallb (λ c, bool_decide (is_Some c)) contents then 0 else 1,
   set_files <[out := concat (omap id contents)]> s).

(** What is left of [path] after the directory [cwd] (written with its
    trailing slash), when [path] lies in it. *)
Fixpoint drop_prefix (cwd path : string) : option string :=
  match cwd, path with
  | EmptyString, _ => Some path
  | String a cwd', String b path' =>
      if Ascii.eqb a b then drop_prefix cwd' path' else None
  | String _ _, EmptyString => None
  end.

(** The entry of the directory a path goes through: its name up to the
    first slash. *)
Fixpoint first_component (path : string) : string :=
  match path with
  | EmptyString => EmptyString
  | String c rest => if Ascii.eqb c "/" then EmptyString else String c (first_component rest)
  end.

(** The shell pattern [pre*suf] against the name of a directory entry. *)
Definition glob_star (pre suf name : string) : bool :=
  match drop_prefix pre name with
  | Some rest =>
      (String.length suf <=? String.length rest)%nat &&
      String.eqb (substring (String.length rest - String.length suf) (String.length suf) rest)
                 suf
  | None => false
  end.

(** Whether [rm -rf] of some patterns and names, run in [cwd], removes
    [path]: it does when the entry of [cwd] the path goes through matches a
    pattern or is one of the names. *)
Definition removed (cwd : string) (patterns : list (string * string))
    (names : list string) (path : string) : bool :=
  match drop_prefix cwd path with
  | Some rest =>
      existsb (λ p, glob_star p.1 p.2 (first_component rest)) patterns
      || bool_decide (first_component rest ∈ names)
  | None => false
  end.

(** [rm -rf pattern ... name ...]: what does not exist is ignored. *)
Definition rm_rf (cwd : string) (patterns : list (string * string))
    (names : list string) : cmd := λ s,
  (0, set_files (filter (λ entry, removed cwd patterns names entry.1 = false)) s).

Section Certificates.
Context `{Environment}.

(** [pushd] and [popd] are builtins: whether the directory can be entered
    is the environment's matter, the file store is left alone. *)
Definition builtin (argv : list string) : cmd := λ s,
  ((exec argv (files s)).1.1, s).

(** The first half of [create_test_certs]: the directory, and the keys and
    certificates openssl makes in it. *)
Definition create_test_certs_generate : cmd :=
  let root := "root_ca"%string in
  let inter := "intermediate"%string in
  let leaf := "leaf"%string in
  let breaker := "combo_breaker"%string in
  (run ["mkdir"; "-p"; CERTS_DIR]%string ;;>
   builtin ["pushd"; CERTS_DIR]%string ;;>

   run ["openssl"; "req"; "-new"; "-newkey"; "rsa:4096"; "-nodes";
        "-out"; root +:+ ".csr"; "-keyout"; root +:+ "_key.pem"; "-extensions"; "v3_ca";
        "-subj"; "/C=US/ST=Washington/L=Seattle/O=Certificate Testing/CN=" +:+ root]%string ;;>
   run ["openssl"; "x509"; "-signkey"; root +:+ "_key.pem"; "-days"; "180"; "-req";
        "-in"; root +:+ ".csr"; "-set_serial"; "01"; "-out"; root +:+ "_cert.pem"]%string ;;>

   run ["openssl"; "req"; "-new"; "-newkey"; "rsa:4096"; "-nodes";
        "-out"; inter +:+ "_01.csr"; "-keyout"; inter +:+ "_01_key.pem";
        "-subj"; "/C=US/ST=Washington/L=Seattle/O=Certificate Testing/CN=" +:+ inter +:+ "_01"]%string ;;>
   run ["openssl"; "x509"; "-CA"; root +:+ "_cert.pem"; "-CAkey"; root +:+ "_key.pem";
        "-days"; "90"; "-req"; "-in"; inter +:+ "_01.csr"; "-set_serial"; "02";
        "-out"; inter +:+ "_01_cert.pem"]%string ;;>

   run ["openssl"; "req"; "-new"; "-newkey"; "rsa:4096"; "-nodes";
        "-out"; inter +:+ "_02.csr"; "-keyout"; inter +:+ "_02_key.pem";
        "-subj"; "/C=US/ST=Washington/L=Seattle/O=Certificate Testing/CN=" +:+ inter +:+ "_02"]%string ;;>
   run ["openssl"; "x509"; "-CA"; inter +:+ "_01_cert.pem"; "-CAkey"; inter +:+ "_01_key.pem";
        "-days"; "60"; "-req"; "-in"; inter +:+ "_02.csr"; "-set_serial"; "03";
        "-out"; inter +:+ "_02_cert.pem"]%string ;;>

   run ["openssl"; "req"; "-new"; "-newkey"; "rsa:4096"; "-nodes";
        "-out"; leaf +:+ ".csr"; "-keyout"; leaf +:+ "_key.pem";
        "-subj"; "/C=US/ST=Washington/L=Seattle/O=Certificate Testing/CN=" +:+ leaf]%string ;;>
   run ["openssl"; "x509"; "-CA"; inter +:+ "_02_cert.pem"; "-CAkey"; inter +:+ "_02_key.pem";
        "-days"; "30"; "-req"; "-in"; leaf +:+ ".csr"; "-set_serial"; "04";
        "-out"; leaf +:+ "_cert.pem"]%string ;;>

   run ["openssl"; "req"; "-new"; "-newkey"; "rsa:4096"; "-nodes";
        "-out"; breaker +:+ ".csr"; "-keyout"; breaker +:+ "_key.pem";
        "-subj"; "/C=US/ST=Washington/L=Seattle/O=Breakage Testing/CN=" +:+ breaker]%string ;;>
   run ["openssl"; "x509"; "-signkey"; breaker +:+ "_key.pem"; "-days"; "180"; "-req";
        "-in"; breaker +:+ ".csr"; "-set_serial"; "99";
        "-out"; breaker +:+ "_cert.pem"]%string)%cmd.

(** The second half: the test certificates are put together from the
    files of the first half, which are then removed.  [cwd] is the
    directory these commands run in, as the prefix of the paths of its
    files: [$CERTS_DIR] when [pushd] entered it. *)
Definition create_test_certs_combine (cwd : string) : cmd :=
  let root := "root_ca"%string in
  let inter := "intermediate"%string in
  let leaf := "leaf"%string in
  let breaker := "combo_breaker"%string in
  let here (name : string) := cwd +:+ name in
  (cp (here (root +:+ "_cert.pem")) (here "selfsigned_cert.pem") ;;>
   cp (here (root +:+ "_key.pem")) (here "selfsigned_key.pem") ;;>

   cat_to [here (leaf +:+ "_cert.pem"); here (inter +:+ "_02_cert.pem");
           here (inter +:+ "_01_cert.pem")] (here "noroot_chain_cert.pem") ;;>
   cp (here (leaf +:+ "_key.pem")) (here "noroot_chain_key.pem") ;;>

   cat_to [here (leaf +:+ "_cert.pem"); here (inter +:+ "_02_cert.pem");
           here (inter +:+ "_01_cert.pem"); here (root +:+ "_cert.pem")]
          (here "valid_chain_cert.pem") ;;>
   cp (here (leaf +:+ "_key.pem")) (here "valid_chain_key.pem") ;;>

   cat_to [here (leaf +:+ "_cert.pem"); here (breaker +:+ "_cert.pem");
           here (root +:+ "_cert.pem")] (here "invalid_chain_cert.pem") ;;>
   cp (here (leaf +:+ "_key.pem")) (here "invalid_chain_key.pem") ;;>

   rm_rf cwd [(leaf +:+ "_", ".pem")]%string [leaf +:+ ".csr"]%string ;;>
   rm_rf cwd [(inter +:+ "_", ".pem"); (inter +:+ "_", ".csr")]%string [] ;;>
   rm_rf cwd [(root +:+ "_", ".pem")]%string [root +:+ ".csr"]%string ;;>
   rm_rf cwd [(breaker +:+ "_", ".pem")]%string [breaker +:+ ".csr"]%string ;;>

   builtin ["popd"]%string)%cmd.

(** [create_test_certs], step by step. *)
Definition create_test_certs_steps (cwd : string) : cmd :=
  (create_test_certs_generate ;;> create_test_certs_combine cwd)%cmd.

End Certificates.

(** ** The skip rule of the RSA-PSS matrix, as the specification words it *)

Definition digest_output_length (digest : string) : option Z :=
  if decide (digest = "sha1") then Some 20
  else if decide (digest = "sha224") then Some 28
  else if decide (digest = "sha256") then Some 32
  else if decide (digest = "sha384") then Some 48
  else if decide (digest = "sha512") then Some 64
  else None.

Definition modulus_bits (keylabel : string) : option Z :=
  if decide (keylabel = "rsa1024") then Some 1024
  else if decide (keylabel = "rsa2048") then Some 2048
  else if decide (keylabel = "rsa4096") then Some 4096
  else None.

(** The bytes an RSA-PSS encoding leaves for digest and salt: the encoded
    message has [ceil ((bits - 1) / 8)] bytes, two of which are fixed. *)
Definition pss_usable_capacity (bits : Z) : Z := (bits - 1 + 7) / 8 - 2.

(** The specification's rule (4.5): skip when the digest output length plus
    the salt length exceeds the modulus's usable capacity. *)
Definition spec_rsapss_skipped (keylabel saltlen digest : string) : bool :=
  match modulus_bits keylabel, int_of_word saltlen, digest_output_length digest with
  | Some bits, Some slen, Some dlen => pss_usable_capacity bits <? dlen + slen
  | _, _, _ => false
  end.

(** ** Two environments to run the script in *)

(** The word after an option. *)
Fixpoint opt_value (name : string) (argv : list string) : string :=
  match argv with
  | [] => ""
  | a :: rest => if decide (a = name) then hd "" rest else opt_value name rest
  end.

Definition has_word (w : string) (argv : list string) : bool :=
  bool_decide (w ∈ argv).

(** A toy openssl.  A digest signature is the signed message itself; raw
    RSA copies its input; encryption puts one byte in front of the message,
    1 through the pkcs11 engine and 2 without it, and decryption removes
    it. *)
Definition sim_openssl (argv : list string) (fs : gmap string (list byte))
    : Z * string * gmap string (list byte) :=
  match argv with
  | "dgst"%string :: rest =>
      match fs !! List.last rest ""%string with
      | None => (1, ""%string, fs)
      | Some m =>
          if has_word "-sign" rest
          then (0, ""%string, <[opt_value "-out" rest := m]> fs)
          else match fs !! opt_value "-signature" rest with
               | Some sg => (if decide (m = sg) then 0 else 1, ""%string, fs)
               | None => (1, ""%string, fs)
               end
      end
  | "rsautl"%string :: rest =>
      match fs !! opt_value "-in" rest with
      | Some m => (0, ""%string, <[opt_value "-out" rest := m]> fs)
      | None => (1, ""%string, fs)
      end
  | "pkeyutl"%string :: rest =>
      match fs !! opt_value "-in" rest with
      | Some m =>
          if has_word "-encrypt" rest
          then (0, ""%string,
                <[opt_value "-out" rest :=
                    (if has_word "pkcs11" rest then "001"%byte else "002"%byte) :: m]> fs)
          else (0, ""%string, <[opt_value "-out" rest := tl m]> fs)
      | None => (1, ""%string, fs)
      end
  | _ => (1, ""%string, fs)
  end.

Definition sim_exec (argv : list string) (fs : gmap string (list byte))
    : Z * string * gmap string (list byte) :=
  match argv with
  | "openssl"%string :: rest => sim_openssl rest fs
  | "numfmt"%string :: rest => (0, List.last rest ""%string +:+ "B", fs)
  | "mktemp"%string :: _ => (0, "/tmp/tmp.dir"%string, fs)
  | "dirname"%string :: _ => (0, "."%string, fs)
  | _ => (0, ""%string, fs)
  end.

(** Bytes that depend on the size and the position. *)
Definition sim_prng_gen (seed : string) (size : Z) (i : N) : byte :=
  match Byte.of_N ((7 + 13 * Z.to_N size + 31 * i) `mod` 256)%N with
  | Some b => b
  | None => "000"%byte
  end.

Definition sim_env : Environment :=
  {| exec := sim_exec;
     prng_gen := sim_prng_gen;
     prng_draw := λ _ _ end_, end_ `div` 3;
     RANDOM := 4242 |}.

(** An environment whose openssl fails and whose other programs succeed
    without doing anything. *)
Definition failing_exec (argv : list string) (fs : gmap string (list byte))
    : Z * string * gmap string (list byte) :=
  match argv with
  | "openssl"%string :: _ => (1, ""%string, fs)
  | _ => (0, ""%string, fs)
  end.

Definition failing_env : Environment :=
  {| exec := failing_exec;
     prng_gen := sim_prng_gen;
     prng_draw := λ _ _ _, 0;
     RANDOM := 4242 |}.

(** ** Predicates of the statements *)

(** Two byte sequences differ in exactly one bit. *)
Definition one_bit_apart (x y : list byte) : Prop :=
  length x = length y ∧ differing_bits x y = 1%nat.

(** The number of result lines with a given mark. *)
Definition marked (m : result) (lines : list (string * result)) : nat :=
  length (filter (λ l, l.2 = m) lines).

(** The ledger invariant: each counter is the number of lines printed with
    its mark. *)
Definition ledger_ok (s : shell_state) : Prop :=
  num_tests_passed s = Z.of_nat (marked PASSED (report s)) ∧
  num_tests_failed s = Z.of_nat (marked FAILED (report s)).

(** [s'] differs from [s] in the file store only. *)
Definition same_shell (s s' : shell_state) : Prop :=
  report s' = report s ∧ prng_seed s' = prng_seed s ∧
  num_tests_passed s' = num_tests_passed s ∧
  num_tests_failed s' = num_tests_failed s ∧
  key_id s' = key_id s ∧ region s' = region s.

(** A command that changes nothing but files. *)
Definition files_only (c : cmd) : Prop := ∀ s, same_shell s (c s).2.

(** The function pointers handed to the template are programs and shell
    functions that touch nothing but files. *)
Definition providers_ok (gp gr cp cr : provider) (cmp : comparator)
    (prng : input_generator) : Prop :=
  (∀ k a b args, files_only (gp k a b args)) ∧
  (∀ k a b args, files_only (gr k a b args)) ∧
  (∀ k a b args, files_only (cp k a b args)) ∧
  (∀ k a b args, files_only (cr k a b args)) ∧
  (∀ a b args, files_only (cmp a b args)) ∧
  (∀ a n, files_only (prng a n)).

(** Room for [k] more lines before a counter would wrap around. *)
Definition room (k : nat) (s : shell_state) : Prop :=
  Z.of_nat (length (report s) + k) < 2 ^ 63.

(** A command that leaves the seed alone, keeps the ledger invariant and
    prints between [lo] and [hi] result lines. *)
Definition cmd_logs (lo hi : nat) (c : cmd) : Prop :=
  ∀ s, let s' := (c s).2 in
    prng_seed s' = prng_seed s ∧
    (ledger_ok s → room hi s →
     ledger_ok s' ∧
     ∃ new, report s' = report s ++ new ∧ (lo ≤ length new ≤ hi)%nat).

(** The same for a function that may exit: at most [hi] lines in any case,
    at least [lo] when it returns. *)
Definition proc_logs (lo hi : nat) (p : proc) : Prop :=
  ∀ s, let s' := (p s).2 in
    prng_seed s' = prng_seed s ∧
    (ledger_ok s → room hi s →
     ledger_ok s' ∧
     ∃ new, report s' = report s ++ new ∧ (length new ≤ hi)%nat ∧
            (∀ r, (p s).1 = Returned r → (lo ≤ length new)%nat)).

(** A case passes when the line it prints is marked PASSED. *)
Definition case_passes (c : cmd) (s : shell_state) : Prop :=
  ∃ testname, report (c s).2 = report s ++ [(testname, PASSED)].

(** A checker that succeeds from [s], leaves [s'] and found the file it
    wrote, [out], equal to [input]. *)
Definition reproduces (checker : cmd) (input out : string) (s s' : shell_state) : Prop :=
  checker s = (0, s') ∧
  ∃ x, files s' !! input = Some x ∧ files s' !! out = Some x.

(** A function that calls [exit] only with a code other than 0. *)
Definition exits_nonzero (p : proc) : Prop :=
  ∀ s code, (p s).1 = Exited code → code ≠ 0.

(** * Properties *)

(** ** Words and integers *)

Lemma int_of_word_dec z : int_of_word (dec z) = Some z.
Proof.
  unfold int_of_word, dec.
  rewrite NilZero.isi.
  - simpl. f_equal. apply DecimalZ.of_to.
  - destruct z; simpl; try discriminate.
    intros [=E]. by apply DecimalPos.Unsigned.to_uint_nonnil in E.
  - destruct z; simpl; try discriminate.
    intros [=E]. by apply DecimalPos.Unsigned.to_uint_nonnil in E.
Qed.

Lemma dec_inj a b : dec a = dec b → a = b.
Proof.
  intros E. pose proof (int_of_word_dec a) as Ha.
  rewrite E, int_of_word_dec in Ha. congruence.
Qed.

Lemma bash_arith_small z : - 2 ^ 63 ≤ z < 2 ^ 63 → bash_arith z = z.
Proof. intros Hz. unfold bash_arith. rewrite Z.mod_small; lia. Qed.

Lemma test_gt_0 z : 0 < z < 2 ^ 63 → test_gt z 0 = true.
Proof.
  intros Hz. unfold test_gt, bash_int.
  rewrite (proj2 (Z.leb_le _ z)), (proj2 (Z.ltb_lt z _)), (proj2 (Z.ltb_lt 0 z)) by lia.
  done.
Qed.

(** ** The [&&]-list *)

Lemma and_then_ok (c1 c2 : cmd) s s1 :
  c1 s = (0, s1) → and_then c1 c2 s = c2 s1.
Proof. unfold and_then. by intros ->. Qed.

Lemma and_then_stop (c1 c2 : cmd) s :
  (c1 s).1 ≠ 0 → and_then c1 c2 s = c1 s.
Proof.
  unfold and_then. destruct (c1 s) as [r s1]; simpl. intros Hr.
  by destruct (Z.eqb_spec r 0).
Qed.

Lemma and_then_zero (c1 c2 : cmd) s s' :
  and_then c1 c2 s = (0, s') → ∃ s1, c1 s = (0, s1) ∧ c2 s1 = (0, s').
Proof.
  unfold and_then. destruct (c1 s) as [r s1].
  destruct (Z.eqb_spec r 0) as [->|Hr]; [eauto|].
  intros [= -> ->]. done.
Qed.

Lemma and_list_cons c cs s :
  and_list (c :: cs) s = and_then c (and_list cs) s.
Proof.
  destruct cs as [|c' cs]; [|done]. simpl. unfold and_then, ret.
  destruct (c s) as [r s1]. by destruct (Z.eqb_spec r 0) as [->|].
Qed.

Lemma and_list_app cs1 cs2 s :
  and_list (cs1 ++ cs2) s = and_then (and_list cs1) (and_list cs2) s.
Proof.
  revert s. induction cs1 as [|c cs1 IH]; intros s.
  - done.
  - rewrite <- app_comm_cons, (and_list_cons c (cs1 ++ cs2)).
    unfold and_then at 2. rewrite (and_list_cons c cs1). unfold and_then at 1 2.
    destruct (c s) as [r s1]. destruct (Z.eqb_spec r 0) as [->|Hr].
    + by rewrite IH.
    + by destruct (Z.eqb_spec r 0).
Qed.

(** A step that fails ends the list: the steps after it do not run. *)
Lemma and_list_short_circuit pre c post s s1 :
  and_list pre s = (0, s1) → (c s1).1 ≠ 0 →
  and_list (pre ++ c :: post) s = c s1.
Proof.
  intros Hpre Hc. rewrite and_list_app, (and_then_ok _ _ _ _ Hpre).
  rewrite and_list_cons. by apply and_then_stop.
Qed.

(** When the list succeeds, every step was reached and returned 0. *)
Lemma and_list_zero pre c post s s' :
  and_list (pre ++ c :: post) s = (0, s') →
  ∃ s1 s2, and_list pre s = (0, s1) ∧ c s1 = (0, s2) ∧ and_list post s2 = (0, s').
Proof.
  rewrite and_list_app. intros (s1 & Hpre & Hrest)%and_then_zero.
  rewrite and_list_cons in Hrest.
  apply and_then_zero in Hrest as (s2 & Hc & Hpost). eauto.
Qed.

(** ** Commands that change files only *)

Lemma same_shell_refl s : same_shell s s.
Proof. by repeat split. Qed.

Lemma same_shell_trans s1 s2 s3 :
  same_shell s1 s2 → same_shell s2 s3 → same_shell s1 s3.
Proof. unfold same_shell. intuition congruence. Qed.

Lemma same_shell_set_files f s : same_shell s (set_files f s).
Proof. by repeat split. Qed.

Lemma same_shell_leave_subshell s s' : same_shell s s' → same_shell s (leave_subshell s s').
Proof. unfold same_shell. simpl. intuition. Qed.

Create HintDb files_only discriminated.
#[local] Hint Resolve same_shell_refl same_shell_set_files : files_only.

Ltac head_of t :=
  lazymatch t with
  | ?f _ => head_of f
  | _ => t
  end.

Ltac files_only_prim :=
  intros s; simpl; repeat case_match; simpl; auto with files_only.

Lemma files_only_ret r : files_only (ret r).
Proof. files_only_prim. Qed.

Lemma files_only_echo l : files_only (echo l).
Proof. files_only_prim. Qed.

Lemma files_only_diff a b : files_only (diff a b).
Proof. unfold diff. files_only_prim. Qed.

Lemma files_only_cp a b : files_only (cp a b).
Proof. unfold cp. files_only_prim. Qed.

Lemma files_only_cat_A a b : files_only (cat_A a b).
Proof. unfold cat_A. files_only_prim. Qed.

Lemma files_only_and_then c1 c2 :
  files_only c1 → files_only c2 → files_only (and_then c1 c2).
Proof.
  intros H1 H2 s. unfold and_then. specialize (H1 s).
  destruct (c1 s) as [r s1]. destruct (r =? 0); [|done].
  eapply same_shell_trans; [exact H1|apply H2].
Qed.

Lemma files_only_then c1 c2 :
  files_only c1 → files_only c2 → files_only (then_ c1 c2).
Proof.
  intros H1 H2 s. unfold then_.
  eapply same_shell_trans; [apply H1|apply H2].
Qed.

Lemma files_only_negate c : files_only c → files_only (negate c).
Proof. intros Hc s. unfold negate. specialize (Hc s). by destruct (c s). Qed.

Lemma files_only_subshell c : files_only c → files_only (subshell c).
Proof.
  intros Hc s. unfold subshell. specialize (Hc s). destruct (c s) as [r s'].
  by apply same_shell_leave_subshell.
Qed.

Lemma files_only_if_then b c : files_only c → files_only (if_then b c).
Proof. intros Hc. destruct b; [done|apply files_only_ret]. Qed.

Lemma files_only_and_list cs : Forall files_only cs → files_only (and_list cs).
Proof.
  induction 1 as [|c cs Hc Hcs IH]; [apply files_only_ret|].
  intros s. rewrite and_list_cons. by apply files_only_and_then.
Qed.

#[local] Hint Resolve files_only_ret files_only_echo files_only_diff files_only_cp
  files_only_cat_A files_only_and_then files_only_then files_only_negate
  files_only_subshell files_only_if_then : files_only.

Section Properties.
Context `{Environment}.

Lemma files_only_run argv : files_only (run argv).
Proof. unfold run. intros s. by destruct (exec argv (files s)) as [[r out] fs]. Qed.

Lemma same_shell_capture argv s : same_shell s (capture argv s).2.
Proof. unfold capture. by destruct (exec argv (files s)) as [[r out] fs]. Qed.

Lemma files_only_helper_prng_file path size seed : files_only (helper_prng_file path size seed).
Proof. unfold helper_prng_file. files_only_prim. Qed.

Lemma files_only_helper_bitflip path bit : files_only (helper_bitflip path bit).
Proof. unfold helper_bitflip. files_only_prim. Qed.

Hint Resolve files_only_run files_only_helper_prng_file files_only_helper_bitflip : files_only.

Lemma files_only_create_test_random_file path size :
  files_only (create_test_random_file path size).
Proof. intros s. apply files_only_helper_prng_file. Qed.

Lemma files_only_create_test_random_file_rsax509 path size :
  files_only (create_test_random_file_rsax509 path size).
Proof.
  intros s. unfold create_test_random_file_rsax509.
  pose proof (same_shell_capture ["mktemp"; "-d"]%string s) as Hc.
  destruct (capture _ s) as [dir s1]. simpl in Hc.
  eapply same_shell_trans; [exact Hc|].
  apply files_only_and_then; auto with files_only.
Qed.

Lemma files_only_bitflip a b start end_ : files_only (bitflip a b start end_).
Proof.
  unfold bitflip. apply files_only_and_then; [auto with files_only|].
  intros s. apply files_only_and_then; auto with files_only.
Qed.

Hint Resolve files_only_create_test_random_file
  files_only_create_test_random_file_rsax509 files_only_bitflip : files_only.

Lemma files_only_openssl_ref_sign_ecdsa keylabel a b testargs :
  files_only (openssl_ref_sign_ecdsa keylabel a b testargs).
Proof.
  unfold openssl_ref_sign_ecdsa. intros s.
  by destruct (exec _ _) as [[r out] fs].
Qed.

Lemma files_only_true_ a b testargs : files_only (true_ a b testargs).
Proof. apply files_only_ret. Qed.

Lemma files_only_check_outfiles_diff a b testargs :
  files_only (check_outfiles_diff a b testargs).
Proof. apply files_only_diff. Qed.

Lemma files_only_check_outfiles_signverify_rsapss a b testargs :
  files_only (check_outfiles_signverify_rsapss a b testargs).
Proof.
  unfold check_outfiles_signverify_rsapss. case_decide; auto with files_only.
Qed.

Hint Resolve files_only_openssl_ref_sign_ecdsa files_only_true_
  files_only_check_outfiles_diff files_only_check_outfiles_signverify_rsapss
  : files_only.

(** The other wrappers are [run], [&&] and [diff]. *)
Hint Extern 5 (files_only ?c) =>
  let h := head_of c in progress unfold h : files_only.

(** ** The template as a list of steps *)

Lemma testtemplate_group_steps gp gr cp cr cmp prng filesize keylabel testargs test_dir s :
  testtemplate_group gp gr cp cr cmp prng filesize keylabel testargs test_dir s
  = and_list (testtemplate_steps gp gr cp cr cmp prng filesize keylabel testargs test_dir) s.
Proof.
  unfold testtemplate_group, testtemplate_steps, steps_input, steps_corrupt,
    steps_generate, steps_compare, steps_verify, steps_negative, if_then, then_.
  destruct (test_gt filesize 0); simpl; unfold and_then, echo, ret; simpl.
  all: repeat (case_match; simplify_eq/=; try done).
  all: repeat match goal with E : (_ =? _) = true |- _ => apply Z.eqb_eq in E end;
       by simplify_eq.
Qed.

(** ** The ledger *)

Lemma marked_app m l1 l2 : marked m (l1 ++ l2) = (marked m l1 + marked m l2)%nat.
Proof. unfold marked. by rewrite filter_app, length_app. Qed.

Lemma ledger_ok_bounds s k :
  ledger_ok s → room k s →
  0 ≤ num_tests_passed s ∧ num_tests_passed s + Z.of_nat k < 2 ^ 63 ∧
  0 ≤ num_tests_failed s ∧ num_tests_failed s + Z.of_nat k < 2 ^ 63.
Proof.
  unfold ledger_ok, room, marked. intros [-> ->] Hroom.
  pose proof (length_filter (λ l : string * result, l.2 = PASSED) (report s)).
  pose proof (length_filter (λ l : string * result, l.2 = FAILED) (report s)).
  lia.
Qed.

(** One call prints one line and moves one counter by one. *)
Lemma log_test_result_step testname code s :
  0 ≤ num_tests_passed s < 2 ^ 63 - 1 → 0 ≤ num_tests_failed s < 2 ^ 63 - 1 →
  let s' := (log_test_result testname code s).2 in
  (log_test_result testname code s).1 = 0 ∧
  files s' = files s ∧ prng_seed s' = prng_seed s ∧
  key_id s' = key_id s ∧ region s' = region s ∧
  report s' = report s ++ [(testname, if code =? 0 then PASSED else FAILED)] ∧
  num_tests_passed s' = num_tests_passed s + (if code =? 0 then 1 else 0) ∧
  num_tests_failed s' = num_tests_failed s + (if code =? 0 then 0 else 1).
Proof.
  intros Hp Hf. unfold log_test_result.
  destruct (code =? 0); simpl; rewrite ?bash_arith_small by lia;
    repeat split; lia.
Qed.

Lemma log_test_result_ledger testname code s :
  ledger_ok s → room 1 s → ledger_ok (log_test_result testname code s).2.
Proof.
  intros Hok Hroom.
  destruct (ledger_ok_bounds s 1 Hok Hroom) as (? & ? & ? & ?).
  destruct (log_test_result_step testname code s) as (_ & _ & _ & _ & _ & Hr & Hp & Hf);
    [lia..|].
  destruct Hok as [Hop Hof]. unfold ledger_ok.
  rewrite Hr, Hp, Hf, !marked_app, Hop, Hof. unfold marked.
  destruct (code =? 0); simpl; repeat case_decide; simpl; try done; lia.
Qed.

Lemma room_le k k' s : (k' ≤ k)%nat → room k s → room k' s.
Proof. unfold room. lia. Qed.

Lemma room_after k1 k2 s s' new :
  report s' = report s ++ new → (length new ≤ k1)%nat →
  room (k1 + k2) s → room k2 s'.
Proof. unfold room. intros -> Hlen. rewrite length_app. lia. Qed.

Lemma cmd_logs_files_only c : files_only c → cmd_logs 0 0 c.
Proof.
  intros Hc s. destruct (Hc s) as (Hr & Hs & Hp & Hf & _). split; [done|].
  intros [Hop Hof] _. split.
  - unfold ledger_ok. by rewrite Hr, Hp, Hf.
  - exists []. rewrite app_nil_r. split; [done|simpl; lia].
Qed.

Lemma cmd_logs_log_test_result testname code :
  cmd_logs 1 1 (log_test_result testname code).
Proof.
  intros s. split.
  - unfold log_test_result. by destruct (code =? 0).
  - intros Hok Hroom. split; [by apply log_test_result_ledger|].
    destruct (ledger_ok_bounds s 1 Hok Hroom) as (? & ? & ? & ?).
    destruct (log_test_result_step testname code s) as (_ & _ & _ & _ & _ & Hr & _);
      [lia..|].
    eexists. split; [exact Hr|simpl; lia].
Qed.

Lemma cmd_logs_then lo1 hi1 lo2 hi2 c1 c2 :
  cmd_logs lo1 hi1 c1 → cmd_logs lo2 hi2 c2 →
  cmd_logs (lo1 + lo2) (hi1 + hi2) (then_ c1 c2).
Proof.
  intros H1 H2 s. unfold then_. destruct (H1 s) as [Hs1 Hl1].
  destruct (H2 (c1 s).2) as [Hs2 Hl2]. split; [congruence|].
  intros Hok Hroom.
  destruct Hl1 as (Hok1 & new1 & Hr1 & Hn1); [done|by eapply room_le; [|done]; lia|].
  destruct Hl2 as (Hok2 & new2 & Hr2 & Hn2);
    [done|by eapply room_after; [done| |done]; lia|].
  split; [done|]. exists (new1 ++ new2).
  rewrite Hr2, Hr1, <- app_assoc, length_app. split; [done|lia].
Qed.

Lemma cmd_logs_weaken lo hi lo' hi' c :
  cmd_logs lo hi c → (lo' ≤ lo)%nat → (hi ≤ hi')%nat → cmd_logs lo' hi' c.
Proof.
  intros Hc Hlo Hhi s. destruct (Hc s) as [Hs Hl]. split; [done|].
  intros Hok Hroom. destruct Hl as (Hok' & new & Hr & Hn);
    [done|by eapply room_le|].
  split; [done|]. exists new. split; [done|lia].
Qed.

(** One case, one verdict: whatever the providers do to the files, the
    template prints one result line and counts it. *)
Lemma testtemplate_generate_check_unfold basename family gp gr cp cr cmp prng
    filesize keylabel testargs s :
  testtemplate_generate_check basename family gp gr cp cr cmp prng
    filesize keylabel testargs s
  = let '(testname, test_dir, s2) :=
      testtemplate_setup basename family filesize keylabel testargs s in
    let g := testtemplate_group gp gr cp cr cmp prng filesize keylabel testargs
               test_dir s2 in
    log_test_result testname g.1 g.2.
Proof.
  unfold testtemplate_generate_check.
  destruct (testtemplate_setup _ _ _ _ _ s) as [[testname test_dir] s2].
  by destruct (testtemplate_group _ _ _ _ _ _ _ _ _ _ s2) as [e s3].
Qed.

Lemma same_shell_testtemplate_setup basename family filesize keylabel testargs s :
  same_shell s (testtemplate_setup basename family filesize keylabel testargs s).2.
Proof.
  unfold testtemplate_setup, get_size_humanreadable, create_test_dir.
  pose proof (same_shell_capture
    ["numfmt"; "--to=iec-i"; "--suffix=B"; "--format=%1f"; dec filesize]%string s) as H1.
  destruct (capture _ s) as [hr s1]. simpl in *.
  eapply same_shell_trans; [exact H1|]. apply files_only_run.
Qed.

Lemma files_only_testtemplate_group gp gr cp cr cmp prng filesize keylabel testargs test_dir :
  providers_ok gp gr cp cr cmp prng →
  files_only (testtemplate_group gp gr cp cr cmp prng filesize keylabel testargs test_dir).
Proof.
  intros (? & ? & ? & ? & ? & ?). unfold testtemplate_group.
  repeat first [ solve [auto with files_only]
               | apply files_only_then | apply files_only_and_then
               | apply files_only_if_then | apply files_only_subshell
               | apply files_only_negate ].
Qed.

Lemma cmd_logs_testtemplate_generate_check basename family gp gr cp cr cmp prng
    filesize keylabel testargs :
  providers_ok gp gr cp cr cmp prng →
  cmd_logs 1 1 (testtemplate_generate_check basename family gp gr cp cr cmp prng
                  filesize keylabel testargs).
Proof.
  intros Hprov s. rewrite testtemplate_generate_check_unfold.
  pose proof (same_shell_testtemplate_setup basename family filesize keylabel testargs s) as Hsetup.
  destruct (testtemplate_setup _ _ _ _ _ s) as [[testname test_dir] s2]. simpl in Hsetup.
  pose proof (files_only_testtemplate_group gp gr cp cr cmp prng filesize keylabel
                testargs test_dir Hprov s2) as Hgroup.
  set (g := testtemplate_group _ _ _ _ _ _ _ _ _ _ s2) in *.
  pose proof (same_shell_trans _ _ _ Hsetup Hgroup) as (Hr & Hs & Hp & Hf & _).
  destruct (cmd_logs_log_test_result testname g.1 g.2) as [Hs' Hl]. cbv zeta in *.
  split; [congruence|]. intros [Hop Hof] Hroom.
  destruct Hl as (Hok' & new & Hr' & Hn).
  - unfold ledger_ok. by rewrite Hr, Hp, Hf.
  - unfold room. by rewrite Hr.
  - split; [done|]. exists new. by rewrite Hr', Hr.
Qed.

(** ** Every test function prints its line *)

Ltac providers_ok_tac :=
  unfold providers_ok; split_and!; intros; auto with files_only.

Lemma cmd_logs_ret r : cmd_logs 0 0 (ret r).
Proof. apply cmd_logs_files_only, files_only_ret. Qed.

Lemma cmd_logs_test_openssl_digestsignverify_rsa filesize keylabel digest :
  cmd_logs 1 1 (test_openssl_digestsignverify_rsa filesize keylabel digest).
Proof. apply cmd_logs_testtemplate_generate_check. providers_ok_tac. Qed.

Lemma cmd_logs_test_openssl_signverify_rsa_x509 filesize keylabel :
  cmd_logs 1 1 (test_openssl_signverify_rsa_x509 filesize keylabel).
Proof. apply cmd_logs_testtemplate_generate_check. providers_ok_tac. Qed.

Lemma cmd_logs_test_openssl_digestsignverify_rsapss filesize keylabel saltlen digest :
  let n := if rsapss_skipped keylabel saltlen then 0%nat else 1%nat in
  cmd_logs n n (test_openssl_digestsignverify_rsapss filesize keylabel saltlen digest).
Proof.
  unfold test_openssl_digestsignverify_rsapss.
  destruct (rsapss_skipped keylabel saltlen); simpl; [apply cmd_logs_ret|].
  apply cmd_logs_testtemplate_generate_check. providers_ok_tac.
Qed.

Lemma cmd_logs_test_openssl_signverify_ecdsa filesize keylabel :
  cmd_logs 1 1 (test_openssl_signverify_ecdsa filesize keylabel).
Proof. apply cmd_logs_testtemplate_generate_check. providers_ok_tac. Qed.

Lemma cmd_logs_test_openssl_encryptdecrypt_rsa filesize keylabel :
  let n := if encryptdecrypt_rsa_skipped filesize keylabel then 0%nat else 1%nat in
  cmd_logs n n (test_openssl_encryptdecrypt_rsa filesize keylabel).
Proof.
  unfold test_openssl_encryptdecrypt_rsa.
  destruct (encryptdecrypt_rsa_skipped filesize keylabel); simpl; [apply cmd_logs_ret|].
  apply cmd_logs_testtemplate_generate_check. providers_ok_tac.
Qed.

Lemma cmd_logs_test_openssl_encryptdecrypt_rsa_x509 filesize keylabel :
  cmd_logs 1 1 (test_openssl_encryptdecrypt_rsa_x509 filesize keylabel).
Proof. apply cmd_logs_testtemplate_generate_check. providers_ok_tac. Qed.

(** ** Functions that may exit *)

Lemma proc_logs_lift lo hi c : cmd_logs lo hi c → proc_logs lo hi (lift c).
Proof.
  intros Hc s. destruct (Hc s) as [Hs Hl]. unfold lift.
  destruct (c s) as [r s'] eqn:E. simpl in *. split; [done|].
  intros Hok Hroom. destruct Hl as (Hok' & new & Hr & Hn); [done..|].
  split; [done|]. exists new. repeat split; [done|lia|intros; lia].
Qed.

Lemma proc_logs_die lo code : proc_logs lo 0 (die code).
Proof.
  intros s. simpl. split; [done|]. intros Hok _. split; [done|].
  exists []. rewrite app_nil_r. repeat split; [simpl; lia|]. intros r [=].
Qed.

Lemma proc_logs_weaken lo hi lo' hi' p :
  proc_logs lo hi p → (lo' ≤ lo)%nat → (hi ≤ hi')%nat → proc_logs lo' hi' p.
Proof.
  intros Hp Hlo Hhi s. destruct (Hp s) as [Hs Hl]. split; [done|].
  intros Hok Hroom. destruct Hl as (Hok' & new & Hr & Hn & Hret);
    [done|by eapply room_le|].
  split; [done|]. exists new. repeat split; [done|lia|].
  intros r Er. specialize (Hret r Er). lia.
Qed.

Lemma proc_logs_ok_or_die code : proc_logs 0 0 (ok_or_die code).
Proof.
  unfold ok_or_die. destruct (code =? 0).
  - apply proc_logs_lift, cmd_logs_ret.
  - apply proc_logs_die.
Qed.

Lemma proc_logs_bind lo1 hi1 lo2 hi2 p q :
  proc_logs lo1 hi1 p → (∀ r, proc_logs lo2 hi2 (q r)) →
  proc_logs (lo1 + lo2) (hi1 + hi2) (bind p q).
Proof.
  intros Hp Hq s. unfold bind. destruct (Hp s) as [Hs1 Hl1].
  destruct (p s) as [[r|c] s1] eqn:E; simpl in *.
  - destruct (Hq r s1) as [Hs2 Hl2]. split; [congruence|].
    intros Hok Hroom.
    destruct Hl1 as (Hok1 & new1 & Hr1 & Hn1 & Hret1);
      [done|by eapply room_le; [|done]; lia|].
    destruct Hl2 as (Hok2 & new2 & Hr2 & Hn2 & Hret2);
      [done|by eapply room_after; [done| |done]; lia|].
    split; [done|]. exists (new1 ++ new2).
    rewrite Hr2, Hr1, <- app_assoc, length_app. repeat split; [lia|].
    intros r' Er'. specialize (Hret1 r eq_refl). specialize (Hret2 r' Er'). lia.
  - split; [done|]. intros Hok Hroom.
    destruct Hl1 as (Hok1 & new1 & Hr1 & Hn1 & _);
      [done|by eapply room_le; [|done]; lia|].
    split; [done|]. exists new1. repeat split; [done|lia|]. intros r [=].
Qed.

Lemma proc_logs_if lo hi (b : bool) p1 p2 :
  proc_logs lo hi p1 → proc_logs lo hi p2 → proc_logs lo hi (if b then p1 else p2).
Proof. by destruct b. Qed.

Lemma proc_logs_read lo hi (f : shell_state → proc) :
  (∀ s0, proc_logs lo hi (f s0)) → proc_logs lo hi (λ s, f s s).
Proof. intros Hf s. apply (Hf s s). Qed.

Lemma proc_logs_for_each {A} (lo hi : A → nat) (xs : list A) (body : A → proc) :
  (∀ x, proc_logs (lo x) (hi x) (body x)) →
  proc_logs (sum_list_with lo xs) (sum_list_with hi xs) (for_each xs body).
Proof.
  intros Hbody. induction xs as [|x xs IH]; [apply proc_logs_lift, cmd_logs_ret|].
  destruct xs as [|y xs].
  - simpl. rewrite !Nat.add_0_r. apply Hbody.
  - change (for_each (x :: y :: xs) body) with (bind (body x) (λ _, for_each (y :: xs) body)).
    change (sum_list_with lo (x :: y :: xs)) with (lo x + sum_list_with lo (y :: xs))%nat.
    change (sum_list_with hi (x :: y :: xs)) with (hi x + sum_list_with hi (y :: xs))%nat.
    apply proc_logs_bind; [apply Hbody|]. intros _. apply IH.
Qed.

(** A failing case is not the end of the loop: the next case starts from
    the state the case left. *)
Lemma for_each_lift_cons {A} (x y : A) (xs : list A) (case : A → cmd) s :
  for_each (x :: y :: xs) (λ a, lift (case a)) s
  = for_each (y :: xs) (λ a, lift (case a)) (case x s).2.
Proof.
  change (for_each (x :: y :: xs) (λ a, lift (case a)))
    with (bind (lift (case x)) (λ _, for_each (y :: xs) (λ a, lift (case a)))).
  unfold bind, lift. by destruct (case x s).
Qed.

Lemma proc_logs_run argv : proc_logs 0 0 (lift (run argv)).
Proof. apply proc_logs_lift, cmd_logs_files_only, files_only_run. Qed.

Lemma proc_logs_set lo (f : shell_state → shell_state) :
  (∀ s, same_shell s (f s) ∨
        (report (f s) = report s ∧ prng_seed (f s) = prng_seed s ∧
         num_tests_passed (f s) = num_tests_passed s ∧
         num_tests_failed (f s) = num_tests_failed s)) →
  proc_logs 0 0 (lift (λ s, (lo, f s))).
Proof.
  intros Hf s. simpl.
  assert (report (f s) = report s ∧ prng_seed (f s) = prng_seed s ∧
          num_tests_passed (f s) = num_tests_passed s ∧
          num_tests_failed (f s) = num_tests_failed s) as (Hr & Hs & Hp & Hfl).
  { destruct (Hf s) as [(? & ? & ? & ? & _)|?]; auto. }
  split; [done|]. intros [Hop Hof] _. split.
  - unfold ledger_ok. by rewrite Hr, Hp, Hfl.
  - exists []. rewrite app_nil_r. repeat split; [done|simpl; lia|intros; simpl; lia].
Qed.

(** ** The orchestrator *)

Lemma proc_logs_ret r : proc_logs 0 0 (lift (ret r)).
Proof. apply proc_logs_lift, cmd_logs_ret. Qed.

Lemma proc_logs_echo l : proc_logs 0 0 (lift (echo l)).
Proof. apply proc_logs_ret. Qed.

Lemma proc_logs_cmd_help : proc_logs 0 0 cmd_help.
Proof. apply proc_logs_echo. Qed.

Lemma proc_logs_set_key_id v r : proc_logs 0 0 (lift (λ s, (r, set_key_id v s))).
Proof. apply proc_logs_set. intros s. by right. Qed.

Lemma proc_logs_set_region v r : proc_logs 0 0 (lift (λ s, (r, set_region v s))).
Proof. apply proc_logs_set. intros s. by right. Qed.

Lemma proc_logs_run_read (argv : shell_state → list string) :
  proc_logs 0 0 (lift (λ s, run (argv s) s)).
Proof.
  apply proc_logs_lift, cmd_logs_files_only. intros s. apply files_only_run.
Qed.

Ltac proc_logs_tac :=
  lazymatch goal with
  | |- proc_logs _ _ (bind _ _) =>
      eapply proc_logs_bind; [proc_logs_tac | intros ?; proc_logs_tac]
  | |- proc_logs _ _ (for_each _ _) =>
      eapply proc_logs_for_each; intros ?; proc_logs_tac
  | |- proc_logs _ _ (lift (run _)) => apply proc_logs_run
  | |- proc_logs _ _ (lift (ret _)) => apply proc_logs_ret
  | |- proc_logs _ _ (lift (echo _)) => apply proc_logs_echo
  | |- proc_logs _ _ (ok_or_die _) => apply proc_logs_ok_or_die
  | |- proc_logs _ _ cmd_help => apply proc_logs_cmd_help
  | |- proc_logs _ _ (die _) => apply proc_logs_die
  | |- proc_logs _ _ (lift (λ s, run _ s)) => apply proc_logs_run_read
  | |- proc_logs _ _ (lift (test_openssl_digestsignverify_rsapss _ _ _ _)) =>
      apply proc_logs_lift, cmd_logs_test_openssl_digestsignverify_rsapss
  | |- proc_logs _ _ (lift (test_openssl_digestsignverify_rsa _ _ _)) =>
      apply proc_logs_lift, cmd_logs_test_openssl_digestsignverify_rsa
  | |- proc_logs _ _ (lift (test_openssl_signverify_ecdsa _ _)) =>
      apply proc_logs_lift, cmd_logs_test_openssl_signverify_ecdsa
  | |- proc_logs _ _ (lift (test_openssl_encryptdecrypt_rsa _ _)) =>
      apply proc_logs_lift, cmd_logs_test_openssl_encryptdecrypt_rsa
  | |- proc_logs _ _ (lift (log_test_result _ _)) =>
      apply proc_logs_lift, cmd_logs_log_test_result
  | |- _ => idtac
  end.

Lemma proc_logs_cmd_openssl_options fuel args :
  proc_logs 0 0 (cmd_openssl_options fuel args).
Proof.
  revert args. induction fuel as [|fuel IH]; intros [|w rest]; simpl;
    try apply proc_logs_ret.
  repeat case_decide.
  - apply (proc_logs_bind 0 0 0 0); [apply proc_logs_set_key_id|intros _; apply IH].
  - apply (proc_logs_bind 0 0 0 0); [apply proc_logs_set_region|intros _; apply IH].
  - apply (proc_logs_bind 0 0 0 0); [apply proc_logs_cmd_help|intros _; apply proc_logs_die].
Qed.

Lemma proc_logs_prepare_test_env : proc_logs 0 0 prepare_test_env.
Proof.
  unfold prepare_test_env.
  apply (proc_logs_bind 0 0 0 0); [proc_logs_tac|intros r].
  apply (proc_logs_bind 0 0 0 0); [proc_logs_tac|intros _].
  apply (proc_logs_bind 0 0 0 0); [proc_logs_tac|intros r'].
  apply proc_logs_if; [proc_logs_tac|].
  apply (proc_logs_bind 0 0 0 0); [proc_logs_tac|intros r''].
  apply (proc_logs_bind 0 0 0 0); [proc_logs_tac|intros _].
  apply (proc_logs_bind 0 0 0 0); [proc_logs_tac|intros r'''].
  proc_logs_tac.
Qed.

Lemma proc_logs_cleanup_test_env : proc_logs 0 0 cleanup_test_env.
Proof.
  unfold cleanup_test_env.
  eapply proc_logs_weaken; [proc_logs_tac|simpl; lia..].
Qed.

Lemma proc_logs_provision_key k r keylabel : proc_logs 0 0 (provision_key k r keylabel).
Proof.
  unfold provision_key.
  apply (proc_logs_bind 0 0 0 0).
  { apply proc_logs_set. intros s. by right. }
  intros _. eapply proc_logs_weaken; [proc_logs_tac|simpl; lia..].
Qed.

Lemma proc_logs_provision_key_w_cert k r keylabel :
  proc_logs 0 0 (provision_key_w_cert k r keylabel).
Proof.
  unfold provision_key_w_cert.
  apply (proc_logs_bind 0 0 0 0).
  { apply proc_logs_set. intros s. by right. }
  intros _. eapply proc_logs_weaken; [proc_logs_tac|simpl; lia..].
Qed.

Lemma proc_logs_cleanup_key keylabel : proc_logs 0 0 (cleanup_key keylabel).
Proof. apply proc_logs_run. Qed.

Lemma proc_logs_rsa_x509_case (test : Z → string → cmd) rsa_key :
  (∀ f k, cmd_logs 1 1 (test f k)) →
  let n := if bool_decide (rsa_key ∈ RSA_KEYS) then 1%nat else 0%nat in
  proc_logs n n (rsa_x509_case test rsa_key).
Proof.
  intros Htest. unfold rsa_x509_case, RSA_KEYS. cbv zeta.
  destruct (decide (rsa_key = "rsa1024")) as [->|?];
    [rewrite bool_decide_eq_true_2 by set_solver; apply proc_logs_lift, Htest|].
  destruct (decide (rsa_key = "rsa2048")) as [->|?];
    [rewrite bool_decide_eq_true_2 by set_solver; apply proc_logs_lift, Htest|].
  destruct (decide (rsa_key = "rsa4096")) as [->|?];
    [rewrite bool_decide_eq_true_2 by set_solver; apply proc_logs_lift, Htest|].
  rewrite bool_decide_eq_false_2; [apply proc_logs_ret|].
  rewrite !elem_of_cons, elem_of_nil. tauto.
Qed.

Lemma proc_logs_x509_export_case keylabel testname negative :
  proc_logs 1 1 (x509_export_case keylabel testname negative).
Proof.
  unfold x509_export_case.
  apply (proc_logs_bind 0 0 1 1); [proc_logs_tac|intros _].
  apply (proc_logs_bind 0 0 1 1).
  { apply (proc_logs_read 0 0 (λ s0, provision_key_w_cert (key_id s0) (region s0) keylabel)).
    intros s0. apply proc_logs_provision_key_w_cert. }
  intros _. apply (proc_logs_bind 0 0 1 1); [proc_logs_tac|intros r].
  apply (proc_logs_bind 1 1 0 0); [|intros _; apply proc_logs_cleanup_key].
  apply proc_logs_lift. destruct negative; [destruct (r =? 0)|];
    apply cmd_logs_log_test_result.
Qed.

Lemma proc_logs_provision_key_read keylabel :
  proc_logs 0 0 (λ s, provision_key (key_id s) (region s) keylabel s).
Proof.
  apply (proc_logs_read 0 0 (λ s0, provision_key (key_id s0) (region s0) keylabel)).
  intros s0. apply proc_logs_provision_key.
Qed.

(** Whatever the cases return, the run goes through the whole matrix: when
    [cmd_openssl] returns it has printed a line for each of the 740 cases,
    and four more when the certificate export tests ran. *)
Lemma proc_logs_cmd_openssl args : proc_logs 740 744 (cmd_openssl args).
Proof.
  unfold cmd_openssl.
  eapply proc_logs_weaken.
  - eapply proc_logs_bind; [apply proc_logs_cmd_openssl_options|intros _].
    eapply proc_logs_bind; [apply proc_logs_prepare_test_env|intros _].
    eapply proc_logs_bind.
    { eapply proc_logs_for_each. intros rsa_key.
      eapply proc_logs_bind; [apply proc_logs_provision_key_read|intros r].
      eapply proc_logs_bind; [apply proc_logs_ok_or_die|intros _].
      eapply proc_logs_bind; [proc_logs_tac|intros _].
      eapply proc_logs_bind; [proc_logs_tac|intros _].
      eapply proc_logs_bind; [|intros _; apply proc_logs_cleanup_key].
      apply proc_logs_rsa_x509_case, cmd_logs_test_openssl_signverify_rsa_x509. }
    intros _. eapply proc_logs_bind.
    { eapply proc_logs_for_each. intros ec_key.
      eapply proc_logs_bind; [apply proc_logs_provision_key_read|intros _].
      eapply proc_logs_bind; [proc_logs_tac|intros _].
      apply proc_logs_cleanup_key. }
    intros _. eapply proc_logs_bind.
    { eapply proc_logs_for_each. intros rsa_key.
      eapply proc_logs_bind; [apply proc_logs_provision_key_read|intros _].
      eapply proc_logs_bind; [proc_logs_tac|intros _].
      eapply proc_logs_bind; [|intros _; apply proc_logs_cleanup_key].
      apply proc_logs_rsa_x509_case, cmd_logs_test_openssl_encryptdecrypt_rsa_x509. }
    intros _. eapply proc_logs_bind; [|intros _; apply proc_logs_cleanup_test_env].
    eapply proc_logs_bind; [apply proc_logs_run|intros r].
    apply (proc_logs_if 0 4); [|apply (proc_logs_weaken 0 0); [apply proc_logs_ret|lia..]].
    eapply proc_logs_weaken.
    + eapply proc_logs_bind; [apply proc_logs_run|intros _].
      eapply proc_logs_bind; [apply proc_logs_x509_export_case|intros _].
      eapply proc_logs_bind; [apply proc_logs_x509_export_case|intros _].
      eapply proc_logs_bind; [apply proc_logs_x509_export_case|intros _].
      apply proc_logs_x509_export_case.
    + simpl. lia.
    + simpl. lia.
  - vm_compute. lia.
  - vm_compute. lia.
Qed.

(** ** Passing and failing cases *)

Lemma marked_total lines :
  (marked PASSED lines + marked FAILED lines)%nat = length lines.
Proof.
  unfold marked. induction lines as [|[n []] lines IH]; simpl; [done|..];
    rewrite !filter_cons; simpl; repeat case_decide; simpl; try done; lia.
Qed.

Lemma diff_zero a b s s' :
  diff a b s = (0, s') →
  s' = s ∧ ∃ x, files s !! a = Some x ∧ files s !! b = Some x.
Proof.
  unfold diff. destruct (files s !! a) as [x|], (files s !! b) as [y|];
    try (intros [=]; done).
  case_decide; intros [= <-]; subst; eauto.
Qed.

Lemma diff_same a b s x :
  files s !! a = Some x → files s !! b = Some x → diff a b s = (0, s).
Proof. unfold diff. intros -> ->. by rewrite decide_True. Qed.

Lemma report_testtemplate_generate_check basename family gp gr cp cr cmp prng
    filesize keylabel testargs s testname test_dir s2 :
  providers_ok gp gr cp cr cmp prng →
  testtemplate_setup basename family filesize keylabel testargs s = (testname, test_dir, s2) →
  let g := testtemplate_group gp gr cp cr cmp prng filesize keylabel testargs test_dir s2 in
  let T := testtemplate_generate_check basename family gp gr cp cr cmp prng
             filesize keylabel testargs in
  T s = log_test_result testname g.1 g.2 ∧ same_shell s g.2 ∧
  report (T s).2 = report s ++ [(testname, if g.1 =? 0 then PASSED else FAILED)].
Proof.
  intros Hprov Hsetup g T. unfold T. rewrite testtemplate_generate_check_unfold, Hsetup.
  fold g.
  pose proof (same_shell_testtemplate_setup basename family filesize keylabel testargs s) as Hs.
  rewrite Hsetup in Hs. simpl in Hs.
  pose proof (files_only_testtemplate_group gp gr cp cr cmp prng filesize keylabel
                testargs test_dir Hprov s2) as Hg. fold g in Hg.
  pose proof (same_shell_trans _ _ _ Hs Hg) as Hsg.
  split; [done|]. split; [done|].
  destruct Hsg as (Hr & _). unfold log_test_result.
  destruct (g.1 =? 0); simpl; by rewrite Hr.
Qed.

(** A case that passes ran its group to the end with status 0. *)
Lemma case_passes_group basename family gp gr cp cr cmp prng filesize keylabel testargs s :
  providers_ok gp gr cp cr cmp prng →
  case_passes (testtemplate_generate_check basename family gp gr cp cr cmp prng
                 filesize keylabel testargs) s →
  ∃ testname test_dir s2 s',
    testtemplate_setup basename family filesize keylabel testargs s = (testname, test_dir, s2) ∧
    testtemplate_group gp gr cp cr cmp prng filesize keylabel testargs test_dir s2 = (0, s').
Proof.
  intros Hprov [name Hname].
  destruct (testtemplate_setup basename family filesize keylabel testargs s)
    as [[testname test_dir] s2] eqn:Hsetup.
  destruct (report_testtemplate_generate_check basename family gp gr cp cr cmp prng
              filesize keylabel testargs s testname test_dir s2 Hprov Hsetup)
    as (_ & _ & Hr).
  rewrite Hr in Hname. apply app_inv_head in Hname.
  destruct (testtemplate_group gp gr cp cr cmp prng filesize keylabel testargs test_dir s2)
    as [e s'] eqn:Hg. simpl in Hname.
  destruct (Z.eqb_spec e 0) as [->|]; [|by inversion Hname].
  by exists testname, test_dir, s2, s'.
Qed.

(** A group that ends with status 0 got past generation and comparison. *)
Lemma group_zero_compare gp gr cp cr cmp prng filesize keylabel testargs test_dir s2 s' :
  testtemplate_group gp gr cp cr cmp prng filesize keylabel testargs test_dir s2 = (0, s') →
  ∃ s1 s1',
    and_list (steps_input prng filesize test_dir ++ steps_corrupt filesize test_dir
              ++ steps_generate gp gr keylabel testargs test_dir) s2 = (0, s1) ∧
    cmp (pkcs_out_path test_dir) (ref_out_path test_dir) testargs s1 = (0, s1') ∧
    and_list (steps_verify cp cr keylabel testargs test_dir
              ++ steps_negative cp cr filesize keylabel testargs test_dir) s1' = (0, s').
Proof.
  rewrite testtemplate_group_steps. unfold testtemplate_steps.
  rewrite !app_assoc, <- (app_assoc _ (steps_compare _ _ _)).
  rewrite <- (app_assoc ((_ ++ _) ++ _)).
  unfold steps_compare at 1. rewrite <- !app_comm_cons.
  intros (s1 & sx & Hpre & Hecho & Hrest)%and_list_zero.
  injection Hecho as <-. rewrite and_list_cons in Hrest.
  apply and_then_zero in Hrest as (s1' & Hcmp & Hpost).
  rewrite <- !app_assoc in Hpre. by exists s1, s1'.
Qed.

(** ** The claims about the ledger and the case boundary *)

Lemma proc_logs_dispatch args : proc_logs 0 744 (dispatch args).
Proof.
  unfold dispatch. case_decide.
  - apply (proc_logs_weaken 0 0); [apply proc_logs_cmd_help|lia..].
  - apply (proc_logs_weaken 740 744); [apply proc_logs_cmd_openssl|lia..].
Qed.

(** The group of [main] ends in the state its test set left. *)
Lemma main_group_state args s :
  (main_group args s).2 = (dispatch args (set_prng_seed (dec RANDOM) s)).2.
Proof.
  unfold main_group, bind, lift. simpl.
  destruct (dispatch args _) as [[r|c] s1]; [|done].
  case_decide; simpl; [done|]. by destruct (num_tests_failed s1 =? 0).
Qed.

Lemma ledger_ok_set_prng_seed v s : ledger_ok s → ledger_ok (set_prng_seed v s).
Proof. done. Qed.

(** C10 — Ledger invariant.  A call of [log_test_result] prints one line and
    adds one to exactly one counter, the pass counter when the reported
    exit code is 0 and the fail counter otherwise.  Nothing else moves the
    counters: a command that works on files leaves them alone, and through
    a whole run of the test set, and of the group of [main] around it, each
    counter stays the number of lines printed with its mark, so their sum is
    the number of verdicts logged.  The summary prints these two counters.
    (The counters are 64-bit: the statement is for a ledger with room for
    the 744 lines of a run.) *)
Theorem ledger_invariant (testname : string) (code : Z) (args : list string)
    (c : cmd) (s : shell_state)
    (Hok : ledger_ok s) (Hroom : room 744 s) (Hc : files_only c) :
  (let s1 := (log_test_result testname code s).2 in
   report s1 = report s ++ [(testname, if code =? 0 then PASSED else FAILED)] ∧
   num_tests_passed s1 = num_tests_passed s + (if code =? 0 then 1 else 0) ∧
   num_tests_failed s1 = num_tests_failed s + (if code =? 0 then 0 else 1) ∧
   ledger_ok s1) ∧
  (num_tests_passed (c s).2 = num_tests_passed s ∧
   num_tests_failed (c s).2 = num_tests_failed s ∧
   report (c s).2 = report s) ∧
  (let s2 := (cmd_openssl args s).2 in
   ledger_ok s2 ∧
   num_tests_passed s2 + num_tests_failed s2 = Z.of_nat (length (report s2))) ∧
  (let s3 := (main_group args s).2 in
   ledger_ok s3 ∧
   num_tests_passed s3 + num_tests_failed s3 = Z.of_nat (length (report s3)) ∧
   test_results_summary s3
   = nl +:+ dec (Z.of_nat (marked PASSED (report s3))) +:+ " tests passed, "
        +:+ dec (Z.of_nat (marked FAILED (report s3))) +:+ " tests failed" +:+ nl).
Proof.
  assert (∀ s', ledger_ok s' →
            num_tests_passed s' + num_tests_failed s' = Z.of_nat (length (report s')))
    as Hsum.
  { intros s' [-> ->]. rewrite <- (marked_total (report s')). lia. }
  cbv zeta. split_and!.
  - destruct (ledger_ok_bounds s 744 Hok Hroom) as (? & ? & ? & ?).
    destruct (log_test_result_step testname code s)
      as (_ & _ & _ & _ & _ & Hr & Hp & Hf); [lia..|]. done.
  - destruct (ledger_ok_bounds s 744 Hok Hroom) as (? & ? & ? & ?).
    destruct (log_test_result_step testname code s)
      as (_ & _ & _ & _ & _ & Hr & Hp & Hf); [lia..|]. done.
  - destruct (ledger_ok_bounds s 744 Hok Hroom) as (? & ? & ? & ?).
    destruct (log_test_result_step testname code s)
      as (_ & _ & _ & _ & _ & Hr & Hp & Hf); [lia..|]. done.
  - apply log_test_result_ledger; [done|]. eapply room_le; [|done]. lia.
  - by destruct (Hc s) as (_ & _ & ? & _).
  - by destruct (Hc s) as (_ & _ & _ & ? & _).
  - by destruct (Hc s) as (? & _).
  - destruct (proc_logs_cmd_openssl args s) as [_ Hl].
    by destruct Hl as (? & _).
  - destruct (proc_logs_cmd_openssl args s) as [_ Hl].
    destruct Hl as (? & _); auto.
  - rewrite main_group_state.
    destruct (proc_logs_dispatch args (set_prng_seed (dec RANDOM) s)) as [_ Hl].
    by destruct Hl as (? & _).
  - rewrite main_group_state.
    destruct (proc_logs_dispatch args (set_prng_seed (dec RANDOM) s)) as [_ Hl].
    destruct Hl as (? & _); auto.
  - rewrite main_group_state.
    destruct (proc_logs_dispatch args (set_prng_seed (dec RANDOM) s)) as [_ Hl].
    destruct Hl as ([Hp Hf] & _); [done..|].
    unfold test_results_summary. by rewrite Hp, Hf.
Qed.

(** C8 — Within one test case, a step after payload generation that
    returns non-zero ends the group at once: the steps after it do not
    run and the group has that step's result.  The case then prints exactly
    one line, marked FAILED, and adds one to the fail counter only; the
    template returns with status 0, so a loop over cases goes on with the
    next one from the state this case left. *)
Theorem case_failure_stays_in_case
    (basename family : string) (gp gr cp cr : provider) (cmp : comparator)
    (prng : input_generator) (filesize : Z) (keylabel : string)
    (testargs : list string) (s : shell_state)
    (testname test_dir : string) (s2 s1 : shell_state)
    (pre post : list cmd) (c : cmd)
    (Hprov : providers_ok gp gr cp cr cmp prng)
    (Hok : ledger_ok s) (Hroom : room 1 s)
    (Hsetup : testtemplate_setup basename family filesize keylabel testargs s
              = (testname, test_dir, s2))
    (Hsteps : testtemplate_steps gp gr cp cr cmp prng filesize keylabel testargs test_dir
              = pre ++ c :: post)
    (Hpre : and_list pre s2 = (0, s1))
    (Hfail : (c s1).1 ≠ 0) :
  let T := testtemplate_generate_check basename family gp gr cp cr cmp prng
             filesize keylabel testargs in
  testtemplate_group gp gr cp cr cmp prng filesize keylabel testargs test_dir s2 = c s1 ∧
  report (T s).2 = report s ++ [(testname, FAILED)] ∧
  num_tests_failed (T s).2 = num_tests_failed s + 1 ∧
  num_tests_passed (T s).2 = num_tests_passed s ∧
  files (T s).2 = files (c s1).2 ∧
  (T s).1 = 0 ∧
  (∀ (A : Type) (case : A → cmd) (x y : A) (xs : list A),
     case x = T →
     for_each (x :: y :: xs) (λ a, lift (case a)) s
     = for_each (y :: xs) (λ a, lift (case a)) (T s).2).
Proof.
  intros T.
  assert (testtemplate_group gp gr cp cr cmp prng filesize keylabel testargs test_dir s2
          = c s1) as Hgroup.
  { rewrite testtemplate_group_steps, Hsteps. by apply and_list_short_circuit. }
  destruct (report_testtemplate_generate_check basename family gp gr cp cr cmp prng
              filesize keylabel testargs s testname test_dir s2 Hprov Hsetup)
    as (HT & Hsame & Hr).
  fold T in HT, Hr. rewrite Hgroup in HT, Hsame, Hr.
  assert (((c s1).1 =? 0) = false) as Hne by by apply Z.eqb_neq.
  rewrite Hne in Hr.
  destruct Hsame as (_ & _ & Hp & Hf & _).
  destruct (ledger_ok_bounds s 1 Hok Hroom) as (? & ? & ? & ?).
  destruct (log_test_result_step testname (c s1).1 (c s1).2)
    as (Hst & Hfi & _ & _ & _ & _ & Hp' & Hf'); [lia..|].
  rewrite <- HT, Hne in *.
  split_and!; [done|done|lia|lia|done|done|].
  intros A case x y xs Hx. rewrite for_each_lift_cons. by rewrite Hx.
Qed.

(** ** The claims about the steps of a case *)

Lemma subshell_negate_zero (c : cmd) s s' :
  subshell (negate c) s = (0, s') →
  (c s).1 ≠ 0 ∧ s' = leave_subshell s (c s).2.
Proof.
  unfold subshell, negate. destruct (c s) as [r s1]. simpl.
  destruct (Z.eqb_spec r 0); intros [= <-]; done.
Qed.

(** C1 — For a payload size above 0 (and within bash's 64-bit integers, so
    that the test [-gt 0] can read it) the template runs the negative path: a
    case that passes got through input generation, corruption, generation,
    comparison and cross-verification with status 0, and after them the
    Reference checker returned non-zero for the Subject artifact against
    the corrupted input and the Subject checker returned non-zero for the
    Reference artifact against the corrupted input.  For payload size 0 the
    corruption steps and the negative-path steps are not there: the group is
    the [&&]-list of the other steps alone, and the case passes when they
    return 0. *)
Theorem negative_path_runs
    (basename family : string)
    (gp gr cp cr : provider) (cmp : comparator) (prng : input_generator)
    (filesize : Z) (keylabel : string) (testargs : list string)
    (s : shell_state) :
  (0 < filesize < 2 ^ 63 →
   providers_ok gp gr cp cr cmp prng →
   case_passes (testtemplate_generate_check basename family gp gr cp cr cmp prng
                  filesize keylabel testargs) s →
   ∃ testname test_dir s0 s1 s2,
     testtemplate_setup basename family filesize keylabel testargs s
     = (testname, test_dir, s0) ∧
     and_list (steps_input prng filesize test_dir ++ steps_corrupt filesize test_dir
               ++ steps_generate gp gr keylabel testargs test_dir
               ++ steps_compare cmp testargs test_dir
               ++ steps_verify cp cr keylabel testargs test_dir) s0 = (0, s1) ∧
     (cr keylabel (corruptedinputpath test_dir) (pkcs_out_path test_dir) testargs s1).1 ≠ 0 ∧
     s2 = leave_subshell s1
            (cr keylabel (corruptedinputpath test_dir) (pkcs_out_path test_dir) testargs s1).2 ∧
     (cp keylabel (corruptedinputpath test_dir) (ref_out_path test_dir) testargs s2).1 ≠ 0) ∧
  (filesize = 0 →
   ∀ test_dir s0,
     steps_corrupt filesize test_dir = [] ∧
     steps_negative cp cr filesize keylabel testargs test_dir = [] ∧
     testtemplate_group gp gr cp cr cmp prng filesize keylabel testargs test_dir s0
     = and_list (steps_input prng filesize test_dir
                 ++ steps_generate gp gr keylabel testargs test_dir
                 ++ steps_compare cmp testargs test_dir
                 ++ steps_verify cp cr keylabel testargs test_dir) s0).
Proof.
  split.
  - intros Hsize Hprov Hpass.
    apply case_passes_group in Hpass as (testname & test_dir & s0 & s' & Hsetup & Hg);
      [|done].
    rewrite testtemplate_group_steps in Hg.
    unfold testtemplate_steps in Hg. rewrite !app_assoc in Hg.
    unfold steps_negative in Hg. rewrite (test_gt_0 _ Hsize) in Hg.
    apply and_list_zero in Hg as (s1 & sx & Hpre & Hecho & Hrest).
    injection Hecho as <-.
    change (and_list
      ([subshell (negate (cr keylabel (corruptedinputpath test_dir)
                            (pkcs_out_path test_dir) testargs))]
       ++ echo "Checking that the reference output can not be checked against corrupted input using pkcs11 module"
       :: [subshell (negate (cp keylabel (corruptedinputpath test_dir)
                               (ref_out_path test_dir) testargs))]) s1 = (0, s')) in Hrest.
    apply and_list_zero in Hrest as (s2 & sy & Hneg1 & Hecho & Hneg2).
    injection Hecho as <-. simpl in Hneg1, Hneg2.
    apply subshell_negate_zero in Hneg1 as [Hr1 ->].
    apply subshell_negate_zero in Hneg2 as [Hr2 ->].
    rewrite <- !app_assoc in Hpre. eauto 10.
  - intros -> test_dir s0. split_and!; [done..|].
    rewrite testtemplate_group_steps. unfold testtemplate_steps.
    change (steps_corrupt 0 test_dir) with (@nil cmd).
    change (steps_negative cp cr 0 keylabel testargs test_dir) with (@nil cmd).
    by rewrite app_nil_l, app_nil_r.
Qed.

(** C4 — The two deterministic signature families, RSA PKCS#1v1.5
    digest-sign and raw/X.509 RSA sign, hand [check_outfiles_diff] to the
    template: a case of either family that passes got past both generating
    operations and, in the state they left, the Subject artifact and the
    Reference artifact hold the same bytes. *)
Theorem deterministic_signatures_compared
    (filesize : Z) (keylabel digest : string) (s : shell_state) :
  (case_passes (test_openssl_digestsignverify_rsa filesize keylabel digest) s →
   ∃ testname test_dir s2 s1 a,
     testtemplate_setup "test_openssl_digestsignverify_rsa"
       ("signverify/rsa_pkcs/" +:+ keylabel) filesize keylabel [digest] s
     = (testname, test_dir, s2) ∧
     and_list (steps_input create_test_random_file filesize test_dir
               ++ steps_corrupt filesize test_dir
               ++ steps_generate openssl_pkcs_digestsign_rsa openssl_ref_digestsign_rsa
                    keylabel [digest] test_dir) s2 = (0, s1) ∧
     files s1 !! pkcs_out_path test_dir = Some a ∧
     files s1 !! ref_out_path test_dir = Some a) ∧
  (case_passes (test_openssl_signverify_rsa_x509 filesize keylabel) s →
   ∃ testname test_dir s2 s1 a,
     testtemplate_setup "test_openssl_signverify_rsa_x509"
       ("signverify/rsa_x509/" +:+ keylabel) filesize keylabel [] s
     = (testname, test_dir, s2) ∧
     and_list (steps_input create_test_random_file_rsax509 filesize test_dir
               ++ steps_corrupt filesize test_dir
               ++ steps_generate openssl_pkcs_sign_rsa_x509 openssl_ref_sign_rsa_x509
                    keylabel [] test_dir) s2 = (0, s1) ∧
     files s1 !! pkcs_out_path test_dir = Some a ∧
     files s1 !! ref_out_path test_dir = Some a).
Proof.
  split; intros Hpass.
  - apply case_passes_group in Hpass as (testname & test_dir & s2 & s' & Hsetup & Hg);
      [|providers_ok_tac].
    apply group_zero_compare in Hg as (s1 & s1' & Hpre & Hcmp & _).
    apply diff_zero in Hcmp as (_ & a & Ha & Hb).
    by exists testname, test_dir, s2, s1, a.
  - apply case_passes_group in Hpass as (testname & test_dir & s2 & s' & Hsetup & Hg);
      [|providers_ok_tac].
    apply group_zero_compare in Hg as (s1 & s1' & Hpre & Hcmp & _).
    apply diff_zero in Hcmp as (_ & a & Ha & Hb).
    by exists testname, test_dir, s2, s1, a.
Qed.

(** C7 — The RSA-PSS comparator never fails a case.  When the salt length
    reads as 0 it runs [diff] on the Subject artifact and itself, which
    succeeds whenever that artifact exists, whatever the Reference artifact
    holds; for any other salt length it compares nothing.  Either way the
    status is 0 and the state is unchanged. *)
Theorem rsapss_comparator_constant
    (pkcs_out ref_out : string) (testargs : list string) (s : shell_state)
    (Hartifact : is_Some (files s !! pkcs_out)) :
  check_outfiles_signverify_rsapss pkcs_out ref_out testargs s = (0, s) ∧
  (int_of_word (arg 0 testargs) = Some 0 →
   check_outfiles_signverify_rsapss pkcs_out ref_out testargs s
   = diff pkcs_out pkcs_out s) ∧
  (int_of_word (arg 0 testargs) ≠ Some 0 →
   ∀ s0, check_outfiles_signverify_rsapss pkcs_out ref_out testargs s0 = (0, s0)).
Proof.
  destruct Hartifact as [x Hx]. unfold check_outfiles_signverify_rsapss.
  split_and!.
  - case_decide; [|done]. unfold and_then, echo, ret.
    by rewrite (diff_same _ _ _ x).
  - intros E. by rewrite decide_True.
  - intros E s0. by rewrite decide_False.
Qed.

(** ** The claims about the skip rule and the encrypt/decrypt families *)

(** C6 — The skip rule of the RSA-PSS matrix.  The script tests two words,
    the key label and the salt length, and never the digest: a case is left
    out exactly when the label is rsa1024 and the salt length is 64, and
    then the function returns 0 and touches nothing; every other case
    invokes the template.  So RSA-1024 with a 64-byte salt and SHA-512,
    which is beyond the usable capacity of the modulus and the only
    combination of the matrix that is, is excluded, as the claim and the
    comment above the test say.  But the script also leaves out RSA-1024
    with a 64-byte salt and each of the four shorter digests, which fit:
    with SHA-1 the digest and the salt need 84 of the 126 usable bytes.
    These four are the combinations of the matrix on which the script and
    the rule of the specification differ. *)
Theorem rsapss_skip_rule
    (filesize : Z) (keylabel saltlen digest : string) (s : shell_state) :
  let matrix := rsa_key ← RSA_KEYS; slen ← TEST_RSAPSS_SALT_SIZES;
                dgst ← TEST_DIGESTS; [(rsa_key, slen, dgst)] in
  rsapss_skipped keylabel saltlen
  = bool_decide (keylabel = "rsa1024"%string ∧ saltlen = "64"%string) ∧
  test_openssl_digestsignverify_rsapss filesize keylabel saltlen digest
  = (if bool_decide (keylabel = "rsa1024"%string ∧ saltlen = "64"%string)
     then ret 0
     else testtemplate_generate_check
            "test_openssl_digestsignverify_rsapss"
            ("signverify/rsapss/" +:+ keylabel)
            openssl_pkcs_digestsign_rsapss openssl_ref_digestsign_rsapss
            openssl_pkcs_digestverify_rsapss openssl_ref_digestverify_rsapss
            check_outfiles_signverify_rsapss
            create_test_random_file
            filesize keylabel
            [saltlen; digest]) ∧
  test_openssl_digestsignverify_rsapss filesize "rsa1024" "64" digest s = (0, s) ∧
  filter (λ case, spec_rsapss_skipped case.1.1 case.1.2 case.2 = true) matrix
  = [("rsa1024", "64", "sha512")]%string ∧
  (spec_rsapss_skipped "rsa1024" "64" "sha1" = false ∧
   test_openssl_digestsignverify_rsapss filesize "rsa1024" "64" "sha1" s = (0, s)) ∧
  filter (λ case, rsapss_skipped case.1.1 case.1.2
                  ≠ spec_rsapss_skipped case.1.1 case.1.2 case.2) matrix
  = [("rsa1024", "64", "sha1"); ("rsa1024", "64", "sha224");
     ("rsa1024", "64", "sha256"); ("rsa1024", "64", "sha384")]%string.
Proof.
  assert (rsapss_skipped keylabel saltlen
          = bool_decide (keylabel = "rsa1024"%string ∧ saltlen = "64"%string)) as Hrule.
  { unfold rsapss_skipped.
    destruct (decide (keylabel = "rsa1024"%string)) as [->|Hk],
             (decide (saltlen = "64"%string)) as [->|Hs].
    - by rewrite !bool_decide_eq_true_2.
    - rewrite (bool_decide_eq_false_2 (saltlen = "64"%string)) by done.
      rewrite andb_false_r. symmetry. apply bool_decide_eq_false_2. tauto.
    - rewrite (bool_decide_eq_false_2 (keylabel = "rsa1024"%string)) by done.
      symmetry. apply bool_decide_eq_false_2. tauto.
    - rewrite (bool_decide_eq_false_2 (keylabel = "rsa1024"%string)) by done.
      symmetry. apply bool_decide_eq_false_2. tauto. }
  cbv zeta. split_and!.
  - exact Hrule.
  - unfold test_openssl_digestsignverify_rsapss. by rewrite Hrule.
  - done.
  - vm_compute. reflexivity.
  - done.
  - done.
  - vm_compute. reflexivity.
Qed.

(** Whatever the capacity of RSA-1024 is taken to be, the rule of the
    script is no threshold on digest length plus salt length: it skips
    SHA-1 with a 64-byte salt (84 bytes) and runs SHA-512 with a 48-byte
    salt (112 bytes). *)
Lemma rsapss_skip_is_no_threshold (capacity : Z) :
  ¬ (∀ saltlen digest slen dlen,
       int_of_word saltlen = Some slen →
       digest_output_length digest = Some dlen →
       (rsapss_skipped "rsa1024" saltlen = true ↔ capacity < dlen + slen)).
Proof.
  intros Hall.
  destruct (Hall "64"%string "sha1"%string 64 20 eq_refl eq_refl) as [Hskip _].
  destruct (Hall "48"%string "sha512"%string 48 64 eq_refl eq_refl) as [_ Hrun].
  specialize (Hskip eq_refl).
  assert (rsapss_skipped "rsa1024" "48" = true) as Habs by (apply Hrun; lia).
  discriminate Habs.
Qed.

Lemma run_diff_zero argv input out s s' :
  and_then (run argv) (diff input out) s = (0, s') →
  ∃ x, files s' !! input = Some x ∧ files s' !! out = Some x.
Proof.
  intros (s1 & _ & Hd)%and_then_zero. by apply diff_zero in Hd as [-> ?].
Qed.

(** A group that ends with status 0 got past both cross-checks. *)
Lemma group_zero_verify gp gr cp cr cmp prng filesize keylabel testargs test_dir s2 s' :
  testtemplate_group gp gr cp cr cmp prng filesize keylabel testargs test_dir s2 = (0, s') →
  ∃ s1 s1' sa sb,
    and_list (steps_input prng filesize test_dir ++ steps_corrupt filesize test_dir
              ++ steps_generate gp gr keylabel testargs test_dir) s2 = (0, s1) ∧
    cmp (pkcs_out_path test_dir) (ref_out_path test_dir) testargs s1 = (0, s1') ∧
    cr keylabel (inputpath test_dir) (pkcs_out_path test_dir) testargs s1' = (0, sa) ∧
    cp keylabel (inputpath test_dir) (ref_out_path test_dir) testargs sa = (0, sb).
Proof.
  intros (s1 & s1' & Hpre & Hcmp & Hrest)%group_zero_compare.
  exists s1, s1'. unfold steps_verify in Hrest.
  change (and_list
    (([echo "Reference check of pkcs output"]
      ++ cr keylabel (inputpath test_dir) (pkcs_out_path test_dir) testargs
      :: [echo "PKCS check of reference output"])
     ++ cp keylabel (inputpath test_dir) (ref_out_path test_dir) testargs
     :: steps_negative cp cr filesize keylabel testargs test_dir) s1' = (0, s')) in Hrest.
  apply and_list_zero in Hrest as (sx & sb & Hfirst & Hcp & _).
  apply and_list_zero in Hfirst as (sy & sa & Hecho & Hcr & Hecho').
  injection Hecho as <-. injection Hecho' as <-. by exists sa, sb.
Qed.

(** C5 (as the code has it) — In both RSA encrypt/decrypt families the
    checkers of the template are the decrypting wrappers, which decrypt and
    then [diff] the result with the input: a case passes only if the
    Reference decryption of the Subject ciphertext and the Subject
    decryption of the Reference ciphertext each reproduce the original
    input byte for byte.  The PKCS#1 family compares nothing else: its
    comparator is [true].  The raw/X.509 family also hands
    [check_outfiles_diff] to the template, so there a case passes only if
    the two ciphertexts hold the same bytes. *)
Theorem encryptdecrypt_round_trip
    (filesize : Z) (keylabel : string) (s : shell_state) :
  (case_passes (test_openssl_encryptdecrypt_rsa filesize keylabel) s →
   ∃ testname d s2 s1 sa sb,
     testtemplate_setup "test_openssl_encryptdecrypt_rsa"
       ("encryptdecrypt/rsa_pkcs/" +:+ keylabel) filesize keylabel [] s
     = (testname, d, s2) ∧
     and_list (steps_input create_test_random_file filesize d
               ++ steps_corrupt filesize d
               ++ steps_generate openssl_pkcs_encrypt_rsa openssl_ref_encrypt_rsa
                    keylabel [] d) s2 = (0, s1) ∧
     reproduces (openssl_ref_decrypt_rsa keylabel (inputpath d) (pkcs_out_path d) [])
       (inputpath d) (pkcs_out_path d +:+ ".refdecrypted") s1 sa ∧
     reproduces (openssl_pkcs_decrypt_rsa keylabel (inputpath d) (ref_out_path d) [])
       (inputpath d) (ref_out_path d +:+ ".pkcsdecrypted") sa sb) ∧
  (∀ a b testargs s0, true_ a b testargs s0 = (0, s0)) ∧
  (case_passes (test_openssl_encryptdecrypt_rsa_x509 filesize keylabel) s →
   ∃ testname d s2 s1 sa sb x,
     testtemplate_setup "test_openssl_encryptdecrypt_rsa_x509"
       ("encryptdecrypt/rsa_x509/" +:+ keylabel) filesize keylabel [] s
     = (testname, d, s2) ∧
     and_list (steps_input create_test_random_file_rsax509 filesize d
               ++ steps_corrupt filesize d
               ++ steps_generate openssl_pkcs_encrypt_rsax509 openssl_ref_encrypt_rsax509
                    keylabel [] d) s2 = (0, s1) ∧
     files s1 !! pkcs_out_path d = Some x ∧ files s1 !! ref_out_path d = Some x ∧
     reproduces (openssl_ref_decrypt_rsax509 keylabel (inputpath d) (pkcs_out_path d) [])
       (inputpath d) ".refdecrypted" s1 sa ∧
     reproduces (openssl_pkcs_decrypt_rsax509 keylabel (inputpath d) (ref_out_path d) [])
       (inputpath d) ".pkcsdecrypted" sa sb).
Proof.
  split_and!.
  - intros Hpass. unfold test_openssl_encryptdecrypt_rsa in Hpass.
    destruct (encryptdecrypt_rsa_skipped filesize keylabel).
    { destruct Hpass as [name Hname]. simpl in Hname.
      apply (f_equal length) in Hname. rewrite length_app in Hname. simpl in Hname. lia. }
    apply case_passes_group in Hpass as (testname & d & s2 & s' & Hsetup & Hg);
      [|providers_ok_tac].
    apply group_zero_verify in Hg as (s1 & s1' & sa & sb & Hpre & Hcmp & Hcr & Hcp).
    injection Hcmp as <-.
    exists testname, d, s2, s1, sa, sb. split_and!; [done..| |].
    + split; [done|]. by apply run_diff_zero in Hcr.
    + split; [done|]. by apply run_diff_zero in Hcp.
  - done.
  - intros Hpass.
    apply case_passes_group in Hpass as (testname & d & s2 & s' & Hsetup & Hg);
      [|providers_ok_tac].
    apply group_zero_verify in Hg as (s1 & s1' & sa & sb & Hpre & Hcmp & Hcr & Hcp).
    apply diff_zero in Hcmp as (-> & x & Ha & Hb).
    exists testname, d, s2, s1, sa, sb, x. split_and!; [done..| |].
    + split; [done|]. by apply run_diff_zero in Hcr.
    + split; [done|]. by apply run_diff_zero in Hcp.
Qed.

(** ** The corruption oracle *)

Lemma byte_diff_bits_refl b : byte_diff_bits b b = 0%nat.
Proof.
  unfold byte_diff_bits. set (f := N.testbit (Byte.to_N b)). clearbody f.
  repeat (rewrite ?filter_cons, ?filter_nil; try case_decide; try done).
Qed.

Lemma byte_diff_bits_flip k b :
  (k < 8)%N → byte_diff_bits b (flip_bit_byte k b) = 1%nat.
Proof.
  intros Hk.
  assert (k ∈ [0; 1; 2; 3; 4; 5; 6; 7]%N) as Hin.
  { rewrite !elem_of_cons. lia. }
  clear Hk. rewrite !elem_of_cons, elem_of_nil in Hin.
  destruct Hin as [->|[->|[->|[->|[->|[->|[->|[->|[]]]]]]]]];
    destruct b; vm_compute; reflexivity.
Qed.

Lemma differing_bits_refl x : differing_bits x x = 0%nat.
Proof. induction x as [|b x IH]; simpl; [done|]. by rewrite byte_diff_bits_refl, IH. Qed.

Lemma differing_bits_alter (f : byte → byte) i x :
  (i < length x)%nat → (∀ b, byte_diff_bits b (f b) = 1%nat) →
  differing_bits x (alter f i x) = 1%nat.
Proof.
  intros Hi Hf. revert i Hi. induction x as [|b x IH]; intros i Hi; simpl in Hi; [lia|].
  destruct i as [|i].
  - change (alter f 0%nat (b :: x)) with (f b :: x). simpl.
    by rewrite Hf, differing_bits_refl.
  - change (alter f (S i) (b :: x)) with (b :: alter f i x). simpl.
    rewrite byte_diff_bits_refl, IH; [done|lia].
Qed.

Lemma flip_bit_one_bit_apart content bit :
  0 ≤ bit < 8 * Z.of_nat (length content) →
  one_bit_apart content (flip_bit content bit) ∧ flip_bit content bit ≠ content.
Proof.
  intros Hbit. unfold flip_bit.
  assert (differing_bits content
            (alter (flip_bit_byte (Z.to_N (bit `mod` 8))) (Z.to_nat (bit / 8)) content)
          = 1%nat) as Hone.
  { apply differing_bits_alter.
    - apply Nat2Z.inj_lt. rewrite Z2Nat.id by (apply Z.div_pos; lia).
      apply Z.div_lt_upper_bound; lia.
    - intros b. apply byte_diff_bits_flip.
      pose proof (Z.mod_pos_bound bit 8). lia. }
  split.
  - split; [by rewrite length_alter|done].
  - intros E. rewrite E, differing_bits_refl in Hone. done.
Qed.

Lemma helper_prng_int_range seed size :
  0 < size →
  ∃ bit, helper_prng_int seed 0 size = Some bit ∧ 0 ≤ bit < size ∧
         bit = prng_draw seed 0 size `mod` size.
Proof.
  intros Hsize. unfold helper_prng_int.
  rewrite (proj2 (Z.ltb_lt 0 size)) by done.
  rewrite Z.sub_0_r, Z.add_0_l. eexists. split; [done|].
  split; [|done]. apply Z.mod_pos_bound. lia.
Qed.

(** What [bitflip] does to a file of [filesize] bytes: the copy has bit
    [draw mod (8 * filesize)] inverted. *)
Lemma bitflip_spec filesize input output content s :
  0 < filesize < 2 ^ 60 →
  input ≠ output →
  files s !! input = Some content →
  Z.of_nat (length content) = filesize →
  let bit := prng_draw (prng_seed s) 0 (8 * filesize) `mod` (8 * filesize) in
  0 ≤ bit < 8 * filesize ∧
  bitflip input output 0 (bash_arith (8 * filesize)) s
  = (0, set_files (λ fs, <[output := flip_bit content bit]> fs) s).
Proof.
  intros Hsize Hne Hin Hlen bit.
  rewrite bash_arith_small by lia.
  destruct (helper_prng_int_range (prng_seed s) (8 * filesize)) as (b & Hb & Hrange & ->);
    [lia|].
  split; [done|]. unfold bitflip.
  erewrite and_then_ok by (unfold cp; rewrite Hin, decide_False by done; reflexivity).
  cbv beta. change (prng_seed (set_files _ s)) with (prng_seed s). rewrite Hb.
  erewrite and_then_ok by reflexivity.
  unfold helper_bitflip.
  change (files (set_files <[output:=content]> s)) with (<[output:=content]> (files s)).
  rewrite lookup_insert_eq, Hlen.
  rewrite (proj2 (Z.leb_le 0 _)), (proj2 (Z.ltb_lt _ _)) by lia.
  cbn [andb]. unfold set_files. cbn [files report prng_seed num_tests_passed
    num_tests_failed key_id region]. by rewrite insert_insert_eq.
Qed.

Lemma inputpath_ne_corruptedinputpath d : inputpath d ≠ corruptedinputpath d.
Proof.
  unfold inputpath, corruptedinputpath. intros E.
  induction d as [|a d IH]; simpl in E; [done|]. injection E as E. auto.
Qed.

(** C2 — For a payload of size above 0, the corruption oracle copies the
    file and inverts one bit of the copy, at an index in [[0, 8 * size)]:
    the copy differs from the original in exactly one bit and is never
    byte-equal to it, and the original is left as it was.  The step of the
    template after [bitflip] is [(! diff input corrupted)], which returns 0
    on this pair and returns 1 on any pair of equal files.  The group the
    template runs is the [&&]-list in which that step stands between
    [bitflip] and the generating operations: a group that ends with status 0
    generated its input, corrupted it, found the two files different, and
    only then went on to the generating operations, from the state the
    corruption left. *)
Theorem corruption_flips_one_bit
    (filesize : Z) (input output : string) (content : list byte) (s : shell_state)
    (gp gr cp cr : provider) (cmp : comparator) (prng : input_generator)
    (keylabel : string) (testargs : list string) (test_dir : string)
    (Hsize : 0 < filesize < 2 ^ 60)
    (Hin : files s !! input = Some content)
    (Hlen : Z.of_nat (length content) = filesize)
    (Hne : input ≠ output) :
  (∃ bit corrupted s',
     0 ≤ bit < 8 * filesize ∧
     bitflip input output 0 (bash_arith (8 * filesize)) s = (0, s') ∧
     files s' !! output = Some corrupted ∧
     files s' !! input = Some content ∧
     corrupted = flip_bit content bit ∧
     one_bit_apart content corrupted ∧
     corrupted ≠ content ∧
     subshell (negate (diff input output)) s' = (0, s')) ∧
  (∀ a b st x, files st !! a = Some x → files st !! b = Some x →
               subshell (negate (diff a b)) st = (1, st)) ∧
  (∀ st,
     testtemplate_group gp gr cp cr cmp prng filesize keylabel testargs test_dir st
     = and_list
         (steps_input prng filesize test_dir
          ++ [echo "Corrupting input file";
              bitflip (inputpath test_dir) (corruptedinputpath test_dir) 0
                (bash_arith (8 * filesize));
              subshell (negate (diff (inputpath test_dir) (corruptedinputpath test_dir)))]
          ++ steps_generate gp gr keylabel testargs test_dir
          ++ steps_compare cmp testargs test_dir
          ++ steps_verify cp cr keylabel testargs test_dir
          ++ steps_negative cp cr filesize keylabel testargs test_dir) st) ∧
  (∀ st st',
     testtemplate_group gp gr cp cr cmp prng filesize keylabel testargs test_dir st
     = (0, st') →
     ∃ s1 s2,
       and_list (steps_input prng filesize test_dir) st = (0, s1) ∧
       bitflip (inputpath test_dir) (corruptedinputpath test_dir) 0
         (bash_arith (8 * filesize)) s1 = (0, s2) ∧
       (diff (inputpath test_dir) (corruptedinputpath test_dir) s2).1 ≠ 0 ∧
       and_list (steps_generate gp gr keylabel testargs test_dir
                 ++ steps_compare cmp testargs test_dir
                 ++ steps_verify cp cr keylabel testargs test_dir
                 ++ steps_negative cp cr filesize keylabel testargs test_dir) s2
       = (0, st')).
Proof.
  assert (∀ st,
     testtemplate_group gp gr cp cr cmp prng filesize keylabel testargs test_dir st
     = and_list
         (steps_input prng filesize test_dir
          ++ [echo "Corrupting input file";
              bitflip (inputpath test_dir) (corruptedinputpath test_dir) 0
                (bash_arith (8 * filesize));
              subshell (negate (diff (inputpath test_dir) (corruptedinputpath test_dir)))]
          ++ steps_generate gp gr keylabel testargs test_dir
          ++ steps_compare cmp testargs test_dir
          ++ steps_verify cp cr keylabel testargs test_dir
          ++ steps_negative cp cr filesize keylabel testargs test_dir) st) as Hgroup.
  { intros st. rewrite testtemplate_group_steps.
    unfold testtemplate_steps, steps_corrupt. by rewrite test_gt_0 by lia. }
  split_and!.
  - destruct (bitflip_spec filesize input output content s Hsize Hne Hin Hlen) as [Hbit Hflip].
    destruct (flip_bit_one_bit_apart content
                (prng_draw (prng_seed s) 0 (8 * filesize) `mod` (8 * filesize)))
      as [Hone Hdiff]; [lia|].
    eexists _, _, _. split; [exact Hbit|]. split; [exact Hflip|].
    split; [apply lookup_insert_eq|].
    split; [simpl; by rewrite lookup_insert_ne|].
    do 3 (split; [done|]).
    unfold subshell, negate, diff. simpl.
    rewrite lookup_insert_ne, Hin, lookup_insert_eq by done.
    rewrite decide_False by done. destruct s; done.
  - intros a b st x Ha Hb. unfold subshell, negate.
    rewrite (diff_same a b st x Ha Hb). destruct st; done.
  - exact Hgroup.
  - intros st st'. rewrite Hgroup, and_list_app.
    intros (s1 & Hinput & Hrest)%and_then_zero.
    rewrite and_list_app in Hrest.
    apply and_then_zero in Hrest as (s2' & Hcorrupt & Hrest).
    rewrite and_list_cons in Hcorrupt.
    apply and_then_zero in Hcorrupt as (sx & Hecho & Hcorrupt). injection Hecho as <-.
    rewrite and_list_cons in Hcorrupt.
    apply and_then_zero in Hcorrupt as (s2 & Hflip & Hcheck).
    change (subshell (negate (diff (inputpath test_dir) (corruptedinputpath test_dir))) s2
            = (0, s2')) in Hcheck.
    apply subshell_negate_zero in Hcheck as [Hdiff ->].
    assert (leave_subshell s2
              (diff (inputpath test_dir) (corruptedinputpath test_dir) s2).2 = s2) as Hsame.
    { unfold diff. destruct s2. by repeat case_match. }
    rewrite Hsame in Hrest. by exists s1, s2.
Qed.

(** ** The seed *)

Lemma length_prng_content gen i n : length (prng_content gen i n) = n.
Proof. revert i. induction n as [|n IH]; intros i; simpl; [done|]. by rewrite IH. Qed.

Lemma create_test_random_file_spec path size s :
  0 ≤ size →
  create_test_random_file path size s
  = (0, set_files <[path := prng_content (prng_gen (prng_seed s) size) 0 (Z.to_nat size)]> s).
Proof.
  intros Hsize. unfold create_test_random_file, helper_prng_file.
  by rewrite (proj2 (Z.ltb_ge size 0)) by done.
Qed.

Lemma create_test_random_file_rsax509_spec path size s :
  1 ≤ size < 2 ^ 63 →
  (create_test_random_file_rsax509 path size s).1 = 0 ∧
  files (create_test_random_file_rsax509 path size s).2 !! path
  = Some ("A"%byte :: prng_content (prng_gen (prng_seed s) (size - 1)) 0
                        (Z.to_nat (size - 1))).
Proof.
  intros Hsize. unfold create_test_random_file_rsax509.
  pose proof (same_shell_capture ["mktemp"; "-d"]%string s) as (_ & Hseed & _).
  destruct (capture _ s) as [dir s1]. simpl in Hseed.
  rewrite bash_arith_small by lia.
  unfold helper_prng_file. rewrite (proj2 (Z.ltb_ge (size - 1) 0)) by lia.
  erewrite and_then_ok by reflexivity.
  unfold cat_A. simpl. rewrite lookup_insert_eq. simpl.
  by rewrite lookup_insert_eq, Hseed.
Qed.

(** C9 (as the code has it) — The group of [main] assigns the seed once,
    from [$RANDOM], before the test set starts; neither a template case nor
    the whole test set changes it.  So two cases of one run that ask the
    same input generator for the same payload size get byte-identical input
    files, for the plain generator and for the raw/X.509 one, and the
    corruption oracle inverts the same bit index in any two payloads of the
    same size, each corrupted into a file other than itself, as the
    template does: the input and the corrupted input of a case are
    different paths. *)
Theorem same_seed_same_input
    (args : list string) (s s1 s2 : shell_state) (p1 p2 : string) (size : Z)
    (Hseed : prng_seed s1 = prng_seed s2) (Hsize : 0 < size < 2 ^ 60) :
  (prng_seed (main_group args s).2 = dec RANDOM ∧
   prng_seed (cmd_openssl args s).2 = prng_seed s ∧
   ∀ basename family gp gr cp cr cmp prng filesize keylabel testargs,
     providers_ok gp gr cp cr cmp prng →
     prng_seed (testtemplate_generate_check basename family gp gr cp cr cmp prng
                  filesize keylabel testargs s).2 = prng_seed s) ∧
  (files (create_test_random_file p1 size s1).2 !! p1
   = files (create_test_random_file p2 size s2).2 !! p2 ∧
   ∃ x, files (create_test_random_file p1 size s1).2 !! p1 = Some x ∧
        Z.of_nat (length x) = size) ∧
  (files (create_test_random_file_rsax509 p1 size s1).2 !! p1
   = files (create_test_random_file_rsax509 p2 size s2).2 !! p2 ∧
   ∃ x, files (create_test_random_file_rsax509 p1 size s1).2 !! p1 = Some x ∧
        Z.of_nat (length x) = size) ∧
  (∃ bit, 0 ≤ bit < 8 * size ∧
     ∀ q1 q2 c1 c2,
       p1 ≠ q1 → p2 ≠ q2 →
       files s1 !! p1 = Some c1 → Z.of_nat (length c1) = size →
       files s2 !! p2 = Some c2 → Z.of_nat (length c2) = size →
       files (bitflip p1 q1 0 (bash_arith (8 * size)) s1).2 !! q1 = Some (flip_bit c1 bit) ∧
       files (bitflip p2 q2 0 (bash_arith (8 * size)) s2).2 !! q2 = Some (flip_bit c2 bit)) ∧
  (∀ test_dir, inputpath test_dir ≠ corruptedinputpath test_dir).
Proof.
  split_and!.
  - rewrite main_group_state.
    by destruct (proc_logs_dispatch args (set_prng_seed (dec RANDOM) s)) as [-> _].
  - by destruct (proc_logs_cmd_openssl args s) as [-> _].
  - intros basename family gp gr cp cr cmp prng filesize keylabel testargs Hprov.
    by destruct (cmd_logs_testtemplate_generate_check basename family gp gr cp cr cmp prng
                   filesize keylabel testargs Hprov s) as [-> _].
  - rewrite !create_test_random_file_spec by lia. simpl.
    by rewrite !lookup_insert_eq, Hseed.
  - rewrite create_test_random_file_spec by lia. simpl.
    rewrite lookup_insert_eq. eexists. split; [done|].
    rewrite length_prng_content. lia.
  - destruct (create_test_random_file_rsax509_spec p1 size s1) as [_ ->]; [lia|].
    destruct (create_test_random_file_rsax509_spec p2 size s2) as [_ ->]; [lia|].
    by rewrite Hseed.
  - destruct (create_test_random_file_rsax509_spec p1 size s1) as [_ ->]; [lia|].
    eexists. split; [done|]. simpl. rewrite length_prng_content. lia.
  - exists (prng_draw (prng_seed s1) 0 (8 * size) `mod` (8 * size)).
    split; [apply Z.mod_pos_bound; lia|].
    intros q1 q2 c1 c2 Hq1 Hq2 Hc1 Hl1 Hc2 Hl2.
    destruct (bitflip_spec size p1 q1 c1 s1 Hsize Hq1 Hc1 Hl1) as [_ ->].
    destruct (bitflip_spec size p2 q2 c2 s2 Hsize Hq2 Hc2 Hl2) as [_ ->].
    simpl. by rewrite !lookup_insert_eq, Hseed.
  - apply inputpath_ne_corruptedinputpath.
Qed.

(** ** The exit status of the process *)

(** The pipeline of [main] has the status of [tee]; what the group did,
    and how it ended, does not enter. *)
Lemma pipe_to_tee_status group file s :
  (pipe_to_tee group file s).1
  = (run ["tee"; file]%string (leave_subshell s (group s).2)).1.
Proof. unfold pipe_to_tee. by destruct (group s). Qed.

(** With a command the script defines and a [cd] that succeeds, the process
    exits with the status of [tee]. *)
Lemma testtool_status_is_tee arg0 cmd_name rest fs :
  declare_f_cmd cmd_name = 0 →
  let args := cmd_name :: rest in
  let sA := (capture ["dirname"; arg0]%string (initial_state fs)).2 in
  let dir := (capture ["dirname"; arg0]%string (initial_state fs)).1 in
  let sB := (run ["cd"; dir +:+ "/.."]%string sA) in
  sB.1 = 0 →
  let sC := (run ["mkdir"; "-p"; RESULT_DIR]%string sB.2).2 in
  testtool arg0 args fs
  = (run ["tee"; OVERALL_LOG_FILE]%string
       (leave_subshell sC (main_group args sC).2)).1.
Proof.
  intros Hdecl args sA dir sB Hcd sC.
  unfold testtool, main. subst args. cbv iota. rewrite Hdecl.
  unfold ok_or_die at 1. simpl (0 =? 0).
  unfold bind, lift, ret. cbv beta iota.
  subst sC sB sA dir. destruct (capture _ (initial_state fs)) as [dir sA].
  cbn [fst snd] in *.
  destruct (run ["cd"; dir +:+ "/.."]%string sA) as [r sB]. cbn [fst snd] in *. subst r.
  unfold ok_or_die, lift, ret. simpl (0 =? 0). cbv beta iota.
  destruct (run ["mkdir"; "-p"; RESULT_DIR]%string sB) as [r sC]. cbn [fst snd].
  rewrite <- pipe_to_tee_status.
  by destruct (pipe_to_tee _ _ sC).
Qed.

(** The group itself does end with the code for failed tests. *)
Lemma main_group_exit_code args s :
  String.concat " " args ≠ "help"%string →
  (∃ r, (dispatch args (set_prng_seed (dec RANDOM) s)).1 = Returned r) →
  num_tests_failed (main_group args s).2 ≠ 0 →
  (main_group args s).1 = Exited EXIT_CODE_FAILED_TESTS.
Proof.
  intros Hhelp [r Hr]. rewrite main_group_state. unfold main_group, bind, lift. simpl.
  destruct (dispatch args _) as [o s1]. simpl in *. subst o.
  rewrite decide_False by done. simpl. intros Hf.
  by destruct (Z.eqb_spec (num_tests_failed s1) 0).
Qed.

(** ** The function pointers of the six families *)

Lemma providers_ok_digestsignverify_rsa :
  providers_ok openssl_pkcs_digestsign_rsa openssl_ref_digestsign_rsa
    openssl_pkcs_digestverify_rsa openssl_ref_digestverify_rsa
    check_outfiles_diff create_test_random_file.
Proof. providers_ok_tac. Qed.

Lemma providers_ok_signverify_rsa_x509 :
  providers_ok openssl_pkcs_sign_rsa_x509 openssl_ref_sign_rsa_x509
    openssl_pkcs_verify_rsa_x509 openssl_ref_verify_rsa_x509
    check_outfiles_diff create_test_random_file_rsax509.
Proof. providers_ok_tac. Qed.

Lemma providers_ok_digestsignverify_rsapss :
  providers_ok openssl_pkcs_digestsign_rsapss openssl_ref_digestsign_rsapss
    openssl_pkcs_digestverify_rsapss openssl_ref_digestverify_rsapss
    check_outfiles_signverify_rsapss create_test_random_file.
Proof. providers_ok_tac. Qed.

Lemma providers_ok_signverify_ecdsa :
  providers_ok openssl_pkcs_sign_ecdsa openssl_ref_sign_ecdsa
    openssl_pkcs_verify_ecdsa openssl_ref_verify_ecdsa
    true_ create_test_random_file.
Proof. providers_ok_tac. Qed.

Lemma providers_ok_encryptdecrypt_rsa :
  providers_ok openssl_pkcs_encrypt_rsa openssl_ref_encrypt_rsa
    openssl_pkcs_decrypt_rsa openssl_ref_decrypt_rsa
    true_ create_test_random_file.
Proof. providers_ok_tac. Qed.

Lemma providers_ok_encryptdecrypt_rsa_x509 :
  providers_ok openssl_pkcs_encrypt_rsax509 openssl_ref_encrypt_rsax509
    openssl_pkcs_decrypt_rsax509 openssl_ref_decrypt_rsax509
    check_outfiles_diff create_test_random_file_rsax509.
Proof. providers_ok_tac. Qed.

(** ** The option loops *)

Lemma bind_set (f : shell_state → shell_state) r (q : proc) s :
  bind (lift (λ s, (r, f s))) (λ _, q) s = q (f s).
Proof. reflexivity. Qed.

Lemma bind_lift (c : cmd) (q : Z → proc) s : bind (lift c) q s = q (c s).1 (c s).2.
Proof. unfold bind, lift. by destruct (c s). Qed.

Lemma cmd_openssl_options_pairs fuel args s :
  (length args ≤ fuel)%nat →
  let r := cmd_openssl_options fuel args s in
  r.2 = set_region (region r.2) (set_key_id (key_id r.2) s) ∧
  if options_ok args
  then r.1 = Returned 0 ∧
       key_id r.2 = option_last "--kms-key-id" args (key_id s) ∧
       region r.2 = option_last "--kms-region" args (region s)
  else r.1 = Exited 1.
Proof.
  revert args s. induction fuel as [|fuel IH]; intros args s Hlen.
  { destruct args; [|simpl in Hlen; lia]. by destruct s. }
  destruct args as [|w rest]; [by destruct s|].
  assert (length (tl rest) ≤ fuel)%nat as Hfuel.
  { destruct rest; simpl in *; lia. }
  assert (∀ d1 d2, (if options_ok (tl rest)
                    then option_last "--kms-key-id" (tl rest) d1
                         = match rest with
                           | [] => d1
                           | _ :: rest' => option_last "--kms-key-id" rest' d1
                           end ∧
                         option_last "--kms-region" (tl rest) d2
                         = match rest with
                           | [] => d2
                           | _ :: rest' => option_last "--kms-region" rest' d2
                           end
                    else True) ∧
                   options_ok (tl rest)
                   = match rest with [] => true | _ :: rest' => options_ok rest' end)
    as Htl.
  { intros d1 d2. destruct rest; simpl; [done|]. by destruct (options_ok rest). }
  cbn [cmd_openssl_options options_ok option_last]. unfold is_option.
  destruct (decide (w = "--kms-key-id")) as [->|Hk].
  - rewrite bool_decide_eq_true_2 by done. cbn [orb andb].
    rewrite decide_False by discriminate.
    rewrite bind_set.
    specialize (IH (tl rest) (set_key_id (hd "" rest) s) Hfuel). cbv zeta in IH.
    destruct (cmd_openssl_options fuel (tl rest) _) as [o s'].
    cbn [fst snd] in IH |- *. destruct IH as [Hst Hres].
    destruct (Htl (hd "" rest) (region s)) as [Hlast <-].
    split; [rewrite Hst at 1; reflexivity|].
    destruct (options_ok (tl rest)); [|by destruct o].
    destruct Hres as (-> & Hk & Hr), Hlast as [Hl1 Hl2].
    rewrite <- Hl1, <- Hl2. done.
  - rewrite (bool_decide_eq_false_2 (w = "--kms-key-id")) by done.
    destruct (decide (w = "--kms-region")) as [->|Hr].
    + rewrite bool_decide_eq_true_2 by done. cbn [orb andb].
      rewrite bind_set.
      specialize (IH (tl rest) (set_region (hd "" rest) s) Hfuel). cbv zeta in IH.
      destruct (cmd_openssl_options fuel (tl rest) _) as [o s'].
      cbn [fst snd] in IH |- *. destruct IH as [Hst Hres].
      destruct (Htl (key_id s) (hd "" rest)) as [Hlast <-].
      split; [rewrite Hst at 1; reflexivity|].
      destruct (options_ok (tl rest)); [|by destruct o].
      destruct Hres as (-> & Hk' & Hr), Hlast as [Hl1 Hl2].
      rewrite <- Hl1, <- Hl2. done.
    + rewrite (bool_decide_eq_false_2 (w = "--kms-region")) by done.
      cbn [orb andb]. by destruct s.
Qed.

(** X1 — The options of the test set.  The words after [openssl] are read in
    pairs, an option and its value.  When every word in an option's place is
    [--kms-key-id] or [--kms-region], the loop returns and has assigned to
    each of the two variables the value of the last occurrence of its
    option (an option that ends the line gets the empty word), and nothing
    else has changed.  When one is not, the test set exits with 1 at that
    word: no program has been run, no verdict is logged, and only the two
    option variables may have changed. *)
Theorem cmd_openssl_option_words (args : list string) (s : shell_state) :
  if options_ok args
  then cmd_openssl_options (length args) args s
       = (Returned 0,
          set_region (option_last "--kms-region" args (region s))
            (set_key_id (option_last "--kms-key-id" args (key_id s)) s))
  else ∃ k r, cmd_openssl args s = (Exited 1, set_region r (set_key_id k s)).
Proof.
  destruct (cmd_openssl_options_pairs (length args) args s) as [Hst Hres]; [done|].
  destruct (options_ok args).
  - destruct Hres as (Hret & Hk & Hr).
    destruct (cmd_openssl_options (length args) args s) as [o s'].
    simpl in *. by rewrite Hst, Hret, Hk, Hr.
  - unfold cmd_openssl, bind at 1.
    destruct (cmd_openssl_options (length args) args s) as [o s'].
    simpl in *. subst o. exists (key_id s'), (region s'). f_equal. exact Hst.
Qed.

(** X2 — The calls of the provisioning functions.  [provision_key] and
    [provision_key_w_cert] take their three options in any order: with the
    six words of a call of the test set, in whatever order the three pairs
    come, the count test passes, the loop assigns the key id, the region and
    the label, and the function goes on to pack the key exactly as the
    function of that name above does, whatever [keylabel] held before.
    [cleanup_key --key-label L] releases the token. *)
Theorem provisioning_options_in_any_order
    (k r l l0 : string) (ps : list (string * string)) (s : shell_state)
    (Hps : ps ≡ₚ [("--kms-key-id", k); ("--kms-region", r); ("--key-label", l)]%string) :
  let words := ps ≫= (λ p, [p.1; p.2]) in
  provision_key_words words l0 s = provision_key k r l s ∧
  provision_key_w_cert_words words l0 s = provision_key_w_cert k r l s ∧
  cleanup_key_words ["--key-label"; l]%string l0 s = cleanup_key l s.
Proof.
  symmetry in Hps. apply permutations_Permutation in Hps. csimpl in Hps.
  rewrite !elem_of_cons, elem_of_nil in Hps.
  destruct Hps as [->|[->|[->|[->|[->|[->|[]]]]]]]; (split_and!; reflexivity).
Qed.

(** X3 — What the provisioning functions refuse.  Called with a number of
    words other than six (two for [cleanup_key]), each of them exits with 1
    at once, in the state it was called in.  Called with six words of which
    the first, third or fifth is none of the three options, [provision_key]
    and [provision_key_w_cert] exit with 1 at that word.  In both cases no
    program has been run: the file store and the ledger are as before. *)
Theorem provisioning_refuses_other_words
    (words : list string) (l0 : string) (s : shell_state)
    (Hbad : length words ≠ 6%nat ∨
            ∃ i, (i < 3)%nat ∧
                 nth (2 * i) words ""%string
                 ∉ ["--kms-key-id"; "--kms-region"; "--key-label"]%string) :
  (length words ≠ 6%nat →
   provision_key_words words l0 s = (Exited 1, s) ∧
   provision_key_w_cert_words words l0 s = (Exited 1, s)) ∧
  (length words ≠ 2%nat → cleanup_key_words words l0 s = (Exited 1, s)) ∧
  (∃ k r, provision_key_words words l0 s = (Exited 1, set_region r (set_key_id k s))) ∧
  (∃ k r, provision_key_w_cert_words words l0 s
          = (Exited 1, set_region r (set_key_id k s))).
Proof.
  assert (∀ s0 : shell_state, s0 = set_region (region s0) (set_key_id (key_id s0) s0)) as Hid
    by (by intros []).
  split_and!.
  - intros Hlen. unfold provision_key_words, provision_key_w_cert_words.
    by rewrite !decide_False by done.
  - intros Hlen. unfold cleanup_key_words. by rewrite decide_False by done.
  - destruct (decide (length words = 6%nat)) as [Hlen|Hlen].
    + destruct Hbad as [?|(i & Hi & Hnth)]; [done|].
      destruct words as [|a [|b [|c [|d [|e [|f [|]]]]]]]; try done.
      rewrite !elem_of_cons, elem_of_nil in Hnth.
      unfold provision_key_words. rewrite decide_True by done.
      cbn [provision_key_options hd].
      destruct i as [|[|[|]]]; [| | |lia]; cbn [nth Nat.mul Nat.add] in Hnth;
        repeat (case_decide; try tauto);
        match goal with
        | |- ∃ k r, (_, ?s') = _ => exists (key_id s'), (region s'); by destruct s
        end.
    + exists (key_id s), (region s). unfold provision_key_words.
      rewrite decide_False by done. unfold die. f_equal. apply Hid.
  - destruct (decide (length words = 6%nat)) as [Hlen|Hlen].
    + destruct Hbad as [?|(i & Hi & Hnth)]; [done|].
      destruct words as [|a [|b [|c [|d [|e [|f [|]]]]]]]; try done.
      rewrite !elem_of_cons, elem_of_nil in Hnth.
      unfold provision_key_w_cert_words. rewrite decide_True by done.
      cbn [provision_key_options hd].
      destruct i as [|[|[|]]]; [| | |lia]; cbn [nth Nat.mul Nat.add] in Hnth;
        repeat (case_decide; try tauto);
        match goal with
        | |- ∃ k r, (_, ?s') = _ => exists (key_id s'), (region s'); by destruct s
        end.
    + exists (key_id s), (region s). unfold provision_key_w_cert_words.
      rewrite decide_False by done. unfold die. f_equal. apply Hid.
Qed.

(** X4 — [provision_key] either exits or returns 0: what [p11ne-cli
    init-token] returned is dropped by [return 0].  So the [ok_or_die] that
    follows the call in the first loop of the test set never dies, and the
    two loops that call [provision_key] without it behave the same. *)
Theorem provision_key_returns_zero (k r l : string) (s : shell_state) :
  match (provision_key k r l s).1 with
  | Returned status => status = 0
  | Exited code => code ≠ 0
  end ∧
  match (provision_key_w_cert k r l s).1 with
  | Returned status => status = 0
  | Exited code => code ≠ 0
  end ∧
  bind (provision_key k r l) ok_or_die s = provision_key k r l s ∧
  bind (provision_key_w_cert k r l) ok_or_die s = provision_key_w_cert k r l s.
Proof.
  unfold provision_key, provision_key_w_cert, bind, lift. cbv beta iota.
  destruct (run _ (set_region r (set_key_id k s))) as [c s1].
  destruct (run _ (set_region r (set_key_id k s))) as [c' s1'].
  unfold ok_or_die, lift, die, ret.
  destruct (Z.eqb_spec c 0) as [->|Hc], (Z.eqb_spec c' 0) as [->|Hc'];
    cbv beta iota;
    repeat match goal with |- context [run ?a ?st] => destruct (run a st) end;
    done.
Qed.

(** ** Leaving the shell *)

Lemma exits_nonzero_lift c : exits_nonzero (lift c).
Proof. intros s code. unfold lift. by destruct (c s). Qed.

Lemma exits_nonzero_die code : code ≠ 0 → exits_nonzero (die code).
Proof. intros Hc s code' [= <-]. done. Qed.

Lemma exits_nonzero_ok_or_die code : exits_nonzero (ok_or_die code).
Proof.
  unfold ok_or_die. destruct (Z.eqb_spec code 0);
    [apply exits_nonzero_lift|by apply exits_nonzero_die].
Qed.

Lemma exits_nonzero_bind p q :
  exits_nonzero p → (∀ r, exits_nonzero (q r)) → exits_nonzero (bind p q).
Proof.
  intros Hp Hq s code. unfold bind. specialize (Hp s).
  destruct (p s) as [[r|c] s1]; simpl in *; [apply Hq|].
  intros [= <-]. by apply Hp.
Qed.

Lemma exits_nonzero_for_each {A} (xs : list A) (body : A → proc) :
  (∀ x, exits_nonzero (body x)) → exits_nonzero (for_each xs body).
Proof.
  intros Hbody. induction xs as [|x xs IH]; [apply exits_nonzero_lift|].
  destruct xs as [|y xs]; [apply Hbody|].
  change (for_each (x :: y :: xs) body) with (bind (body x) (λ _, for_each (y :: xs) body)).
  apply exits_nonzero_bind; [apply Hbody|]. intros _. apply IH.
Qed.

Lemma exits_nonzero_read (f : shell_state → proc) :
  (∀ s0, exits_nonzero (f s0)) → exits_nonzero (λ s, f s s).
Proof. intros Hf s. apply (Hf s s). Qed.

Lemma exits_nonzero_if (b : bool) p1 p2 :
  exits_nonzero p1 → exits_nonzero p2 → exits_nonzero (if b then p1 else p2).
Proof. by destruct b. Qed.

Ltac exits_tac :=
  repeat lazymatch goal with
  | |- exits_nonzero (bind _ _) => apply exits_nonzero_bind; [|intros ?]
  | |- exits_nonzero (for_each _ _) => apply exits_nonzero_for_each; intros ?
  | |- exits_nonzero (lift _) => apply exits_nonzero_lift
  | |- exits_nonzero cmd_help => apply exits_nonzero_lift
  | |- exits_nonzero create_test_certs => apply exits_nonzero_lift
  | |- exits_nonzero (cleanup_key _) => apply exits_nonzero_lift
  | |- exits_nonzero (ok_or_die _) => apply exits_nonzero_ok_or_die
  | |- exits_nonzero (die 1) => apply exits_nonzero_die; lia
  | |- exits_nonzero (if _ then _ else _) => apply exits_nonzero_if
  end.

Lemma exits_nonzero_cmd_openssl_options fuel args :
  exits_nonzero (cmd_openssl_options fuel args).
Proof.
  revert args. induction fuel as [|fuel IH]; intros [|w rest]; simpl;
    try apply exits_nonzero_lift.
  repeat case_decide; exits_tac; apply IH.
Qed.

Lemma exits_nonzero_provision_key keylabel :
  exits_nonzero (λ s, provision_key (key_id s) (region s) keylabel s).
Proof.
  apply (exits_nonzero_read (λ s0, provision_key (key_id s0) (region s0) keylabel)).
  intros s0. unfold provision_key. exits_tac.
Qed.

Lemma exits_nonzero_x509_export_case keylabel testname negative :
  exits_nonzero (x509_export_case keylabel testname negative).
Proof.
  unfold x509_export_case. exits_tac.
  apply (exits_nonzero_read (λ s0, provision_key_w_cert (key_id s0) (region s0) keylabel)).
  intros s0. unfold provision_key_w_cert. exits_tac.
Qed.

Lemma exits_nonzero_rsa_x509_case test rsa_key :
  exits_nonzero (rsa_x509_case test rsa_key).
Proof. unfold rsa_x509_case. repeat case_decide; apply exits_nonzero_lift. Qed.

Lemma exits_nonzero_cmd_openssl args : exits_nonzero (cmd_openssl args).
Proof.
  unfold cmd_openssl, prepare_test_env, cleanup_test_env. exits_tac;
    first [ apply exits_nonzero_cmd_openssl_options
          | apply exits_nonzero_provision_key
          | apply exits_nonzero_rsa_x509_case
          | apply exits_nonzero_x509_export_case ].
Qed.

Lemma exits_nonzero_main_group args : exits_nonzero (main_group args).
Proof.
  unfold main_group. exits_tac.
  - unfold dispatch. case_decide; [apply exits_nonzero_lift|apply exits_nonzero_cmd_openssl].
  - case_decide; exits_tac.
    + intros s code. unfold lift, echo, ret. cbv beta iota. done.
    + intros s code. destruct (num_tests_failed s =? 0); [done|]. by intros [= <-].
Qed.

(** X5 — Leaving the shell is always an error: wherever the test set, the
    group of [main] or [main] itself calls [exit], the code is not 0.  (The
    test set exits with 1 at a word that is no option and with the status
    of the program that failed when the enclave cannot be started or a key
    cannot be packed; the group also with 2 for failed tests; [main] with 1
    or the status of [cd].) *)
Theorem exit_is_an_error
    (arg0 : string) (args : list string) (s : shell_state) (code : Z) :
  ((cmd_openssl args s).1 = Exited code → code ≠ 0) ∧
  ((main_group args s).1 = Exited code → code ≠ 0) ∧
  ((main arg0 args s).1 = Exited code → code ≠ 0).
Proof.
  split_and!.
  - apply exits_nonzero_cmd_openssl.
  - apply exits_nonzero_main_group.
  - revert s code. change (exits_nonzero (main arg0 args)).
    unfold main. destruct args as [|cmd_name rest]; exits_tac.
    intros s code. destruct (capture _ s) as [dir s1]. revert code.
    change (∀ code, (?p s1).1 = Exited code → code ≠ 0)
      with (∀ code, (p s1).1 = Exited code → code ≠ 0).
    intros code.
    match goal with |- (?p s1).1 = _ → _ =>
      assert (exits_nonzero p) as Hp by exits_tac; apply Hp end.
Qed.

Lemma main_defined arg0 cmd_name rest s :
  declare_f_cmd cmd_name = 0 →
  main arg0 (cmd_name :: rest) s
  = let cap := capture ["dirname"; arg0]%string s in
    let cd := run ["cd"; cap.1 +:+ "/.."]%string cap.2 in
    let sC := (run ["mkdir"; "-p"; RESULT_DIR]%string cd.2).2 in
    let tee := run ["tee"; OVERALL_LOG_FILE]%string
                 (leave_subshell sC (main_group (cmd_name :: rest) sC).2) in
    if cd.1 =? 0 then (Returned tee.1, tee.2) else (Exited cd.1, cd.2).
Proof.
  intros Hd. unfold main, bind, ok_or_die. rewrite Hd. simpl (0 =? 0).
  unfold lift at 1, ret. cbv beta iota zeta.
  destruct (capture ["dirname"; arg0]%string s) as [dir sA]. cbn [fst snd].
  unfold lift at 1. destruct (run ["cd"; dir +:+ "/.."]%string sA) as [r sB].
  cbn [fst snd]. destruct (r =? 0); [|done].
  unfold lift, ret, pipe_to_tee. cbv beta iota.
  destruct (run ["mkdir"; "-p"; RESULT_DIR]%string sB) as [r' sC]. cbn [fst snd].
  destruct (main_group (cmd_name :: rest) sC) as [o sD]. cbn [fst snd].
  by destruct (run ["tee"; OVERALL_LOG_FILE]%string (leave_subshell sC sD)).
Qed.

(** X6 — What [main] leaves behind.  The verdicts are counted in the
    subshell of the pipeline, so after [main] the counters, the seed and the
    option variables of the shell are what they were before it, however the
    tests went.  When [main] returns, its status is the status of [tee], run
    on what the group left in the file store; when it exits, that is before
    the group, with a code other than 0 and without a result line:
    1 without arguments or for a command the script does not define, and
    the status of [cd] when that failed. *)
Theorem main_keeps_results_in_subshell
    (arg0 : string) (args : list string) (s : shell_state) :
  let s' := (main arg0 args s).2 in
  let cap := capture ["dirname"; arg0]%string s in
  let cd := run ["cd"; cap.1 +:+ "/.."]%string cap.2 in
  let sC := (run ["mkdir"; "-p"; RESULT_DIR]%string cd.2).2 in
  (num_tests_passed s' = num_tests_passed s ∧
   num_tests_failed s' = num_tests_failed s ∧
   prng_seed s' = prng_seed s ∧ key_id s' = key_id s ∧ region s' = region s) ∧
  match (main arg0 args s).1 with
  | Returned status =>
      status = (run ["tee"; OVERALL_LOG_FILE]%string
                  (leave_subshell sC (main_group args sC).2)).1
  | Exited code =>
      report s' = report s ∧
      code = (if decide (declare_f_cmd (hd "" args) = 0 ∧ args ≠ []) then cd.1 else 1) ∧
      code ≠ 0
  end.
Proof.
  cbv zeta. destruct args as [|cmd_name rest].
  { unfold main, die. cbn [fst snd]. destruct (decide _) as [[_ ?]|_]; done. }
  cbn [hd].
  destruct (Z.eqb_spec (declare_f_cmd cmd_name) 0) as [Hd|Hd].
  2:{ assert (main arg0 (cmd_name :: rest) s = (Exited 1, s)) as ->.
      { unfold main, bind, ok_or_die. rewrite (proj2 (Z.eqb_neq _ _) Hd).
        unfold die. do 2 f_equal. unfold declare_f_cmd in *. repeat case_decide; done. }
      cbn [fst snd]. destruct (decide _) as [[? _]|_]; done. }
  rewrite decide_True by done.
  pose proof (same_shell_capture ["dirname"; arg0]%string s) as Hcap.
  set (cap := capture ["dirname"; arg0]%string s) in *.
  pose proof (files_only_run ["cd"; cap.1 +:+ "/.."]%string cap.2) as Hcd.
  set (cd := run ["cd"; cap.1 +:+ "/.."]%string cap.2) in *.
  pose proof (same_shell_trans _ _ _ Hcap Hcd) as (HBr & HBs & HBp & HBf & HBk & HBg).
  pose proof (files_only_run ["mkdir"; "-p"; RESULT_DIR]%string cd.2)
    as (HCr & HCs & HCp & HCf & HCk & HCg).
  set (sC := (run ["mkdir"; "-p"; RESULT_DIR]%string cd.2).2) in *.
  pose proof (files_only_run ["tee"; OVERALL_LOG_FILE]%string
                (leave_subshell sC (main_group (cmd_name :: rest) sC).2))
    as (_ & HDs & HDp & HDf & HDk & HDg).
  set (tee := run ["tee"; OVERALL_LOG_FILE]%string
                (leave_subshell sC (main_group (cmd_name :: rest) sC).2)) in *.
  rewrite main_defined by done. cbv zeta. fold cap. fold cd. fold sC. fold tee.
  simpl in HDs, HDp, HDf, HDk, HDg.
  destruct (Z.eqb_spec cd.1 0) as [Hr|Hr]; cbn [fst snd].
  - split; [|done]. split_and!; congruence.
  - split_and!; congruence.
Qed.

(** X7 — The test set goes through its whole matrix.  From a ledger that
    agrees with its counters, a run of [cmd_openssl] that returns has logged
    at least the 740 verdicts of the template cases (3 keys times 6 sizes,
    5 digests and 7 salt lengths less the 30 skipped, 90 digest signatures,
    3 raw signatures, 21 ECDSA signatures, 23 encryptions, 3 raw
    encryptions) and at most the four certificate exports more; a run that
    exits has logged no more than that.  Each counter has grown by the
    number of new lines with its mark. *)
Theorem test_set_runs_its_matrix (args : list string) (s : shell_state)
    (Hok : ledger_ok s) (Hroom : room 744 s) :
  let s' := (cmd_openssl args s).2 in
  ∃ new,
    report s' = report s ++ new ∧ (length new ≤ 744)%nat ∧
    (∀ status, (cmd_openssl args s).1 = Returned status → (740 ≤ length new)%nat) ∧
    num_tests_passed s' = num_tests_passed s + Z.of_nat (marked PASSED new) ∧
    num_tests_failed s' = num_tests_failed s + Z.of_nat (marked FAILED new).
Proof.
  destruct (proc_logs_cmd_openssl args s) as [_ Hl].
  destruct Hl as ([Hp Hf] & new & Hr & Hhi & Hlo); [done..|].
  exists new. cbv zeta. split_and!; [done..| |].
  - destruct Hok as [-> _]. rewrite Hp, Hr, marked_app. lia.
  - destruct Hok as [_ ->]. rewrite Hf, Hr, marked_app. lia.
Qed.

(** ** The verdict of a case *)

(** X8 — The verdict of a template case.  A case prints one line, whose mark
    is PASSED exactly when the [&&]-list of the steps of the template, run
    from the state the set-up left, ends with status 0, and FAILED for any
    other status; the case itself always returns 0, and the seed and the
    option variables are those it started with. *)
Theorem case_verdict
    (basename family : string) (gp gr cp cr : provider) (cmp : comparator)
    (prng : input_generator) (filesize : Z) (keylabel : string)
    (testargs : list string) (s : shell_state)
    (testname test_dir : string) (s2 : shell_state)
    (Hprov : providers_ok gp gr cp cr cmp prng)
    (Hsetup : testtemplate_setup basename family filesize keylabel testargs s
              = (testname, test_dir, s2)) :
  let T := testtemplate_generate_check basename family gp gr cp cr cmp prng
             filesize keylabel testargs in
  let steps := and_list (testtemplate_steps gp gr cp cr cmp prng filesize keylabel
                           testargs test_dir) s2 in
  (T s).1 = 0 ∧
  report (T s).2 = report s ++ [(testname, if steps.1 =? 0 then PASSED else FAILED)] ∧
  (case_passes T s ↔ steps.1 = 0) ∧
  prng_seed (T s).2 = prng_seed s ∧ key_id (T s).2 = key_id s ∧ region (T s).2 = region s.
Proof.
  intros T steps.
  destruct (report_testtemplate_generate_check basename family gp gr cp cr cmp prng
              filesize keylabel testargs s testname test_dir s2 Hprov Hsetup)
    as (HT & Hsame & Hr).
  fold T in HT, Hr. rewrite testtemplate_group_steps in HT, Hsame, Hr. fold steps in HT, Hsame, Hr.
  destruct Hsame as (_ & Hseed & _ & _ & Hk & Hg).
  assert ((T s).1 = 0 ∧ prng_seed (T s).2 = prng_seed steps.2
          ∧ key_id (T s).2 = key_id steps.2 ∧ region (T s).2 = region steps.2)
    as (H1 & H3 & H4 & H5).
  { rewrite HT. unfold log_test_result. by destruct (steps.1 =? 0). }
  split_and!; [done|done| |congruence..].
  unfold case_passes. fold T. rewrite Hr. split.
  - intros [name Hname]. apply app_inv_head in Hname.
    destruct (Z.eqb_spec steps.1 0); [done|by inversion Hname].
  - intros ->. by exists testname.
Qed.

(** X9 — What a verdict PASSED stands for.  A case that passes went
    through the six operations of the template one after the other, each
    from the state the one before left, and each returned 0: the Subject
    generated its artifact from the input, the Reference generated its own,
    the comparator accepted the pair, the Reference checker accepted the
    Subject's artifact against the input, and the Subject checker accepted
    the Reference's artifact against the input. *)
Theorem passed_case_trace
    (basename family : string) (gp gr cp cr : provider) (cmp : comparator)
    (prng : input_generator) (filesize : Z) (keylabel : string)
    (testargs : list string) (s : shell_state)
    (Hprov : providers_ok gp gr cp cr cmp prng)
    (Hpass : case_passes (testtemplate_generate_check basename family gp gr cp cr cmp prng
                            filesize keylabel testargs) s) :
  ∃ testname d s2 s0 sp sr sc sa sb,
    testtemplate_setup basename family filesize keylabel testargs s = (testname, d, s2) ∧
    and_list (steps_input prng filesize d ++ steps_corrupt filesize d) s2 = (0, s0) ∧
    gp keylabel (inputpath d) (pkcs_out_path d) testargs s0 = (0, sp) ∧
    gr keylabel (inputpath d) (ref_out_path d) testargs sp = (0, sr) ∧
    cmp (pkcs_out_path d) (ref_out_path d) testargs sr = (0, sc) ∧
    cr keylabel (inputpath d) (pkcs_out_path d) testargs sc = (0, sa) ∧
    cp keylabel (inputpath d) (ref_out_path d) testargs sa = (0, sb).
Proof.
  apply case_passes_group in Hpass as (testname & d & s2 & s' & Hsetup & Hg); [|done].
  apply group_zero_verify in Hg as (sr & sc & sa & sb & Hpre & Hcmp & Hcr & Hcp).
  rewrite app_assoc, and_list_app in Hpre.
  apply and_then_zero in Hpre as (s0 & Hin & Hgen).
  unfold steps_generate in Hgen. rewrite and_list_cons in Hgen.
  apply and_then_zero in Hgen as (sx & Hecho & Hgen). injection Hecho as <-.
  rewrite and_list_cons in Hgen.
  apply and_then_zero in Hgen as (sp & Hgp & Hgen).
  rewrite and_list_cons in Hgen.
  apply and_then_zero in Hgen as (sy & Hecho & Hgr). injection Hecho as <-.
  change (gr keylabel (inputpath d) (ref_out_path d) testargs sp = (0, sr)) in Hgr.
  by exists testname, d, s2, s0, sp, sr, sc, sa, sb.
Qed.

Lemma report_provision_key_w_cert k r l s :
  report (provision_key_w_cert k r l s).2 = report s.
Proof.
  unfold provision_key_w_cert, bind, lift, ok_or_die, die, ret. cbv beta iota.
  set (s0 := set_region r (set_key_id k s)).
  change (report s) with (report s0).
  generalize (key_id s0) (region s0). intros kid reg. clearbody s0.
  lazymatch goal with |- context [run ?a s0] => set (argv := a) end.
  pose proof (files_only_run argv s0) as Hrun.
  destruct (run argv s0) as [c s1].
  destruct Hrun as (Hr1 & _). cbn [fst snd] in *.
  destruct (c =? 0); unfold lift; cbv beta iota; [|done].
  match goal with |- context [run ?a s1] => set (argv' := a) end.
  pose proof (files_only_run argv' s1) as Hrun.
  destruct (run argv' s1) as [c' s2].
  destruct Hrun as (Hr2 & _). cbn [fst snd] in *. congruence.
Qed.

Lemma x509_export_case_steps keylabel testname negative s :
  x509_export_case keylabel testname negative s
  = match provision_key_w_cert (key_id s) (region s) keylabel s with
    | (Returned _, s1) =>
        let export := run ["p11tool"; "--export"; URI_TOKEN +:+ ";" +:+ URI_CERT]%string s1 in
        let logged := (if negative
                       then if export.1 =? 0 then log_test_result testname 1
                            else log_test_result testname 0
                       else log_test_result testname export.1) export.2 in
        let released := run ["p11ne-cli"; "release-token"; "--label"; TOKEN_LABEL;
                             "--pin"; PIN]%string logged.2 in
        (Returned released.1, released.2)
    | (Exited code, s1) => (Exited code, s1)
    end.
Proof.
  unfold x509_export_case. rewrite bind_lift. unfold echo at 1, ret at 1.
  cbn [fst snd]. unfold bind at 1.
  destruct (provision_key_w_cert (key_id s) (region s) keylabel s) as [[r|c] s1]; [|done].
  rewrite !bind_lift. unfold cleanup_key, lift. cbv zeta.
  by destruct (run ["p11ne-cli"; "release-token"; "--label"; TOKEN_LABEL; "--pin"; PIN]%string _).
Qed.

(** X10 — The certificate export tests.  When packing the key succeeds, an
    export test logs one verdict under its name and returns: PASSED exactly
    when [p11tool --export] returned 0, and for the negative test (the
    chain that is not valid) exactly when it did not.  When packing the key
    fails, the test exits with the status of [p11ne-db], which is not 0, and
    nothing is logged. *)
Theorem x509_export_verdict
    (keylabel testname : string) (negative : bool) (s : shell_state) :
  let s' := (x509_export_case keylabel testname negative s).2 in
  let provisioned := provision_key_w_cert (key_id s) (region s) keylabel s in
  let export := run ["p11tool"; "--export"; URI_TOKEN +:+ ";" +:+ URI_CERT]%string
                  provisioned.2 in
  match provisioned.1 with
  | Returned _ =>
      (∃ status, (x509_export_case keylabel testname negative s).1 = Returned status) ∧
      report s' = report s
                  ++ [(testname, if xorb negative (export.1 =? 0) then PASSED else FAILED)]
  | Exited code =>
      (x509_export_case keylabel testname negative s).1 = Exited code ∧ code ≠ 0 ∧
      report s' = report s
  end.
Proof.
  cbv zeta. rewrite x509_export_case_steps.
  pose proof (report_provision_key_w_cert (key_id s) (region s) keylabel s) as Hr1.
  pose proof (exits_nonzero_read
                (λ s0, provision_key_w_cert (key_id s0) (region s0) keylabel)
                ltac:(intros s0; unfold provision_key_w_cert; exits_tac) s) as Hx.
  cbv beta in Hx.
  destruct (provision_key_w_cert (key_id s) (region s) keylabel s) as [[r|c] s1].
  - cbn [fst snd] in *. cbv zeta.
    set (export := run ["p11tool"; "--export"; URI_TOKEN +:+ ";" +:+ URI_CERT]%string s1).
    pose proof (files_only_run ["p11tool"; "--export"; URI_TOKEN +:+ ";" +:+ URI_CERT]%string s1)
      as (He & _). fold export in He.
    set (logged := (if negative
                    then if export.1 =? 0 then log_test_result testname 1
                         else log_test_result testname 0
                    else log_test_result testname export.1) export.2).
    assert (report logged.2
            = report s ++ [(testname, if xorb negative (export.1 =? 0)
                                      then PASSED else FAILED)]) as Hlog.
    { unfold logged, log_test_result.
      destruct negative, (export.1 =? 0); simpl; by rewrite He, Hr1. }
    pose proof (files_only_run ["p11ne-cli"; "release-token"; "--label"; TOKEN_LABEL;
                                "--pin"; PIN]%string logged.2) as (Hrel & _).
    split; [eauto|]. by rewrite Hrel.
  - cbn [fst snd] in *. split; [done|]. split; [by apply Hx|done].
Qed.

(** ** The skip rule of the encryption matrix *)

(** X11 — Which encryption cases are skipped.  [test_openssl_encryptdecrypt_rsa]
    leaves a case out exactly for the key rsa1024 with a payload of 128
    bytes: then it returns 0 and nothing is generated, run or logged.  Every
    other combination logs one verdict.  Of the 24 combinations of the
    script's matrix this removes one. *)
Theorem encryptdecrypt_skip_rule (filesize : Z) (keylabel : string) (s : shell_state) :
  (encryptdecrypt_rsa_skipped filesize keylabel = true
   ↔ keylabel = "rsa1024"%string ∧ filesize = 128) ∧
  (if encryptdecrypt_rsa_skipped filesize keylabel
   then test_openssl_encryptdecrypt_rsa filesize keylabel s = (0, s)
   else ∃ testname mark,
          report (test_openssl_encryptdecrypt_rsa filesize keylabel s).2
          = report s ++ [(testname, mark)]) ∧
  filter (λ case, encryptdecrypt_rsa_skipped case.2 case.1 = true)
         (rsa_key ← RSA_KEYS; fsize ← TEST_SMALL_FILE_SIZES; [(rsa_key, fsize)])
  = [("rsa1024"%string, 128)].
Proof.
  split_and!.
  - unfold encryptdecrypt_rsa_skipped.
    rewrite andb_true_iff, !bool_decide_eq_true.
    split; intros [Hk Hf]; (split; [done|]).
    + by apply dec_inj.
    + by rewrite Hf.
  - unfold test_openssl_encryptdecrypt_rsa.
    destruct (encryptdecrypt_rsa_skipped filesize keylabel); [done|].
    destruct (testtemplate_setup "test_openssl_encryptdecrypt_rsa"
                ("encryptdecrypt/rsa_pkcs/" +:+ keylabel) filesize keylabel [] s)
      as [[testname d] s2] eqn:Hsetup.
    destruct (report_testtemplate_generate_check _ _ _ _ _ _ _ _ _ _ _ _ _ _ _
                providers_ok_encryptdecrypt_rsa Hsetup) as (_ & _ & Hr).
    eauto.
  - vm_compute. reflexivity.
Qed.

(** ** Raw signatures *)

(** X12 — What a raw RSA signature case checks.  A case of
    [test_openssl_signverify_rsa_x509] that passes had each verifying
    wrapper recover the signed message: the Reference, run on the Subject's
    signature, wrote a file equal to the input byte for byte, and so did the
    Subject run on the Reference's signature. *)
Theorem raw_signature_recovers_input
    (filesize : Z) (keylabel : string) (s : shell_state)
    (Hpass : case_passes (test_openssl_signverify_rsa_x509 filesize keylabel) s) :
  ∃ testname d s2 s1 sa sb,
    testtemplate_setup "test_openssl_signverify_rsa_x509"
      ("signverify/rsa_x509/" +:+ keylabel) filesize keylabel [] s
    = (testname, d, s2) ∧
    and_list (steps_input create_test_random_file_rsax509 filesize d
              ++ steps_corrupt filesize d
              ++ steps_generate openssl_pkcs_sign_rsa_x509 openssl_ref_sign_rsa_x509
                   keylabel [] d) s2 = (0, s1) ∧
    reproduces (openssl_ref_verify_rsa_x509 keylabel (inputpath d) (pkcs_out_path d) [])
      (inputpath d) (pkcs_out_path d +:+ ".refverify") s1 sa ∧
    reproduces (openssl_pkcs_verify_rsa_x509 keylabel (inputpath d) (ref_out_path d) [])
      (inputpath d) (ref_out_path d +:+ ".pkcsverify") sa sb.
Proof.
  apply case_passes_group in Hpass as (testname & d & s2 & s' & Hsetup & Hg);
    [|providers_ok_tac].
  apply group_zero_verify in Hg as (s1 & s1' & sa & sb & Hpre & Hcmp & Hcr & Hcp).
  apply diff_zero in Hcmp as (-> & _).
  exists testname, d, s2, s1, sa, sb. split_and!; [done..| |].
  - split; [done|]. by apply run_diff_zero in Hcr.
  - split; [done|]. by apply run_diff_zero in Hcp.
Qed.

(** ** More on the input files and their corruption *)

Lemma flip_bit_byte_twice k b : (k < 8)%N → flip_bit_byte k (flip_bit_byte k b) = b.
Proof.
  intros Hk.
  assert (k ∈ [0; 1; 2; 3; 4; 5; 6; 7]%N) as Hin.
  { rewrite !elem_of_cons. lia. }
  clear Hk. rewrite !elem_of_cons, elem_of_nil in Hin.
  destruct Hin as [->|[->|[->|[->|[->|[->|[->|[->|[]]]]]]]]];
    destruct b; vm_compute; reflexivity.
Qed.

Lemma flip_bit_twice content bit : flip_bit (flip_bit content bit) bit = content.
Proof.
  unfold flip_bit. rewrite list_alter_alter_eq. apply list_alter_id.
  intros b. apply flip_bit_byte_twice.
  pose proof (Z.mod_pos_bound bit 8). lia.
Qed.

(** X13 — Corrupting twice restores the file.  The bit [bitflip] inverts is
    drawn from the seed and the bit range alone, so a second [bitflip] of
    the corrupted copy, over the same range, inverts the same bit again: the
    copy of the copy holds the bytes of the original.  (Each [bitflip]
    writes to a file other than the one it reads; [cp] refuses to copy a
    file to itself.) *)
Theorem bitflip_twice_restores
    (filesize : Z) (input corrupted restored : string) (content : list byte)
    (s : shell_state)
    (Hsize : 0 < filesize < 2 ^ 60)
    (Hin : files s !! input = Some content)
    (Hlen : Z.of_nat (length content) = filesize)
    (Hcorrupted : input ≠ corrupted) (Hrestored : corrupted ≠ restored) :
  let once := bitflip input corrupted 0 (bash_arith (8 * filesize)) s in
  let twice := bitflip corrupted restored 0 (bash_arith (8 * filesize)) once.2 in
  once.1 = 0 ∧ twice.1 = 0 ∧ files twice.2 !! restored = Some content.
Proof.
  intros once twice.
  destruct (bitflip_spec filesize input corrupted content s Hsize Hcorrupted Hin Hlen)
    as [Hbit Honce].
  fold once in Honce.
  set (bit := prng_draw (prng_seed s) 0 (8 * filesize) `mod` (8 * filesize)) in *.
  assert (files once.2 !! corrupted = Some (flip_bit content bit)) as Hc.
  { rewrite Honce. simpl. apply lookup_insert_eq. }
  assert (Z.of_nat (length (flip_bit content bit)) = filesize) as Hlen'.
  { unfold flip_bit. by rewrite length_alter. }
  destruct (bitflip_spec filesize corrupted restored (flip_bit content bit) once.2
              Hsize Hrestored Hc Hlen') as [_ Htwice].
  fold twice in Htwice.
  assert (prng_seed once.2 = prng_seed s) as Hseed by by rewrite Honce.
  rewrite Hseed in Htwice. fold bit in Htwice.
  rewrite Honce, Htwice. split_and!; [done..|].
  simpl. by rewrite lookup_insert_eq, flip_bit_twice.
Qed.

(** X14 — What [bitflip] touches.  It writes to its output path and to no
    other: every other file, the input among them when the two paths
    differ, is as before, and so are the ledger and the variables.  When the
    input cannot be read it fails with the status of [cp] and nothing has
    changed; when it fails after the copy (an empty bit range, or a bit
    outside the file), the output holds the plain copy of the input. *)
Theorem bitflip_writes_output_only
    (inputfile outputfile path : string) (start end_ : Z) (s : shell_state)
    (Hpath : path ≠ outputfile) :
  let result := bitflip inputfile outputfile start end_ s in
  files result.2 !! path = files s !! path ∧
  same_shell s result.2 ∧
  (files s !! inputfile = None → result = (1, s)) ∧
  (∀ content, files s !! inputfile = Some content → result.1 ≠ 0 →
              files result.2 !! outputfile = Some content).
Proof.
  cbv zeta. split_and!.
  - unfold bitflip, and_then, cp, echo, ret, helper_bitflip.
    destruct (files s !! inputfile) as [content|]; [|done].
    destruct (decide (inputfile = outputfile)); [done|]. simpl.
    rewrite lookup_insert_eq.
    repeat case_match; simpl; rewrite ?lookup_insert_ne by done; done.
  - apply files_only_bitflip.
  - intros Hnone. unfold bitflip, and_then, cp. by rewrite Hnone.
  - intros content Hsome. unfold bitflip, and_then, cp, echo, ret, helper_bitflip.
    rewrite Hsome. destruct (decide (inputfile = outputfile)) as [<-|]; [done|].
    simpl. rewrite lookup_insert_eq.
    repeat case_match; simpl; try done; intros _; apply lookup_insert_eq.
Qed.

(** X15 — The input of a raw RSA case.  For a size of at least 1,
    [create_test_random_file_rsax509] succeeds and writes the letter A, a
    byte whose top bit is 0, followed by exactly the bytes the plain
    generator writes, from the same seed, for a file one byte shorter: the
    value of the file, read as a number, is below that of a key of as many
    bytes. *)
Theorem rsax509_input_is_A_and_plain_input
    (path plain : string) (size : Z) (s : shell_state)
    (Hsize : 1 ≤ size < 2 ^ 63) :
  let raw := create_test_random_file_rsax509 path size s in
  raw.1 = 0 ∧
  ∃ x, files (create_test_random_file plain (size - 1) s).2 !! plain = Some x ∧
       Z.of_nat (length x) = size - 1 ∧
       files raw.2 !! path = Some ("A"%byte :: x) ∧
       N.testbit (Byte.to_N "A"%byte) 7 = false.
Proof.
  cbv zeta.
  destruct (create_test_random_file_rsax509_spec path size s Hsize) as [Hst Hfile].
  split; [done|]. rewrite create_test_random_file_spec by lia.
  eexists. split; [simpl; apply lookup_insert_eq|].
  split; [rewrite length_prng_content; lia|]. by split.
Qed.

(** ** Appending strings *)

Lemma string_app_assoc (a b c : string) : (a +:+ b) +:+ c = a +:+ (b +:+ c).
Proof.
  induction a as [|x a IH]; [done|].
  change (String x ((a +:+ b) +:+ c) = String x (a +:+ (b +:+ c))). by rewrite IH.
Qed.

Lemma length_string_app (a b : string) :
  String.length (a +:+ b) = (String.length a + String.length b)%nat.
Proof.
  induction a as [|x a IH]; [done|].
  change (S (String.length (a +:+ b)) = S (String.length a + String.length b)).
  by rewrite IH.
Qed.

(** ** The files of a case *)

(** X16 — The files of a case do not collide.  In whatever directory a case
    works, the input, its corrupted copy, the log, the two artifacts and
    the files the verifying and decrypting wrappers derive from the
    artifacts (the wrappers of the raw encryption family apart, which write
    to [.refdecrypted] and [.pkcsdecrypted] in the working directory) are
    nine different paths. *)
Theorem case_files_are_distinct (test_dir : string) :
  NoDup [inputpath test_dir; corruptedinputpath test_dir; logfile test_dir;
         pkcs_out_path test_dir; ref_out_path test_dir;
         pkcs_out_path test_dir +:+ ".refverify";
         ref_out_path test_dir +:+ ".pkcsverify";
         pkcs_out_path test_dir +:+ ".refdecrypted";
         ref_out_path test_dir +:+ ".pkcsdecrypted"].
Proof.
  unfold inputpath, corruptedinputpath, logfile, pkcs_out_path, ref_out_path.
  rewrite !string_app_assoc.
  change (NoDup (String.append test_dir <$>
    ["/input"; "/input_corrupted"; "/logs"; "/input.pkcsout"; "/input.refout";
     "/input.pkcsout" +:+ ".refverify"; "/input.refout" +:+ ".pkcsverify";
     "/input.pkcsout" +:+ ".refdecrypted"; "/input.refout" +:+ ".pkcsdecrypted"]%string)).
  apply (NoDup_fmap_2 (String.append test_dir)).
  apply (bool_decide_unpack _). vm_compute. exact I.
Qed.

(** ** The text of a result line *)

Lemma length_dots n : String.length (dots n) = n.
Proof. induction n as [|n IH]; simpl; [done|]. by rewrite IH. Qed.

(** X17 — The columns of a result line.  [log_test_result] adds to the
    report the name it is given and the mark for the exit code, and the
    characters it writes for that line are the name, a blank, a run of dots,
    a blank and the coloured mark.  For a name of at most 68 characters
    that [echo] does not take for options the dots fill the line up to
    column 70, so the mark starts in column 72 whatever the name: with its
    six letters the line stays below the 80 columns the script aims at.  A
    name of 69 characters still gets one dot, because [printf] prints the
    blank it is given even at width 0, and its mark starts one column
    later; a longer name gets no dots. *)
Theorem result_line_columns (testname : string) (test_exitcode : Z) (s : shell_state)
    (Hname : echo_options testname = None) :
  let n := String.length testname in
  let k := if decide (n ≤ 68)%nat then (69 - n)%nat
           else if decide (n = 69)%nat then 1%nat else 0%nat in
  let before_mark := testname +:+ " " +:+ dots k +:+ " " in
  let mark := if test_exitcode =? 0 then PASSED else FAILED in
  report (log_test_result testname test_exitcode s).2 = report s ++ [(testname, mark)] ∧
  result_line (testname, mark) = before_mark +:+ mark_text mark +:+ nl ∧
  String.length before_mark
  = (if decide (n ≤ 68)%nat then 71 else if decide (n = 69)%nat then 72 else n + 2)%nat.
Proof.
  intros n k before_mark mark. split_and!.
  - unfold log_test_result, mark. by destruct (test_exitcode =? 0).
  - unfold result_line, echo_wc, before_mark, k, padding. cbn [fst snd].
    rewrite Hname. fold n.
    rewrite !string_app_assoc. do 3 f_equal.
    destruct (decide (n ≤ 68)%nat) as [Hn|Hn].
    + rewrite (proj2 (Z.leb_le _ _)) by lia. rewrite bash_arith_small by lia.
      f_equal. lia.
    + destruct (decide (n = 69%nat)) as [Hn'|Hn'].
      * rewrite (proj2 (Z.leb_le _ _)) by lia. rewrite bash_arith_small by lia.
        f_equal. lia.
      * by rewrite (proj2 (Z.leb_gt _ _)) by lia.
  - unfold before_mark, k. rewrite !length_string_app, length_dots. fold n. simpl.
    repeat case_decide; lia.
Qed.

(** A name [echo] takes for the option [-n] counts as no character at all,
    and its line gets all seventy dots. *)
Example result_line_of_an_echo_option :
  result_line ("-n"%string, PASSED) = "-n " +:+ dots 70 +:+ " " +:+ mark_text PASSED +:+ nl.
Proof. vm_compute. reflexivity. Qed.

(** ** Before the first test *)

Lemma prepare_test_env_steps s :
  let mk := run ["mkdir"; "-p"; KEY_DB_DIR]%string s in
  let start := run ["p11ne-cli"; "start"]%string mk.2 in
  let stop := run ["p11ne-cli"; "stop"]%string start.2 in
  let restart := run ["p11ne-cli"; "start"]%string stop.2 in
  prepare_test_env s
  = if negb (mk.1 =? 0) then (Exited mk.1, mk.2)
    else if start.1 =? 0 then (Returned 0, start.2)
    else if negb (stop.1 =? 0) then (Exited stop.1, stop.2)
    else if negb (restart.1 =? 0) then (Exited restart.1, restart.2)
    else (Returned 0, restart.2).
Proof.
  cbv zeta. unfold prepare_test_env. rewrite bind_lift.
  destruct (run ["mkdir"; "-p"; KEY_DB_DIR]%string s) as [m s1]. cbn [fst snd].
  unfold bind at 1, ok_or_die at 1.
  destruct (Z.eqb_spec m 0) as [->|Hm]; [|done].
  unfold lift at 1, ret at 1. cbv beta iota. rewrite bind_lift.
  destruct (run ["p11ne-cli"; "start"]%string s1) as [r1 s2]. cbn [fst snd].
  destruct (Z.eqb_spec r1 0) as [->|Hr1]; [done|].
  rewrite bind_lift.
  destruct (run ["p11ne-cli"; "stop"]%string s2) as [r2 s3]. cbn [fst snd].
  unfold bind at 1, ok_or_die at 1.
  destruct (Z.eqb_spec r2 0) as [->|Hr2]; [|done].
  unfold lift at 1, ret at 1. cbv beta iota. rewrite bind_lift.
  destruct (run ["p11ne-cli"; "start"]%string s3) as [r3 s4]. cbn [fst snd].
  unfold ok_or_die. by destruct (Z.eqb_spec r3 0) as [->|Hr3].
Qed.

(** X18 — The tests start on a started enclave.  [prepare_test_env] returns
    only with status 0, and only when a [p11ne-cli start] has returned 0:
    the first one, or the second one after a [p11ne-cli stop] that
    succeeded.  Nothing runs after that start: the state [prepare_test_env]
    leaves is the state the start left.  A [mkdir] that failed, a stop that
    failed or a second start that failed makes it exit. *)
Theorem prepare_test_env_returns_started (s : shell_state) (status : Z)
    (Hret : (prepare_test_env s).1 = Returned status) :
  status = 0 ∧
  (run ["mkdir"; "-p"; KEY_DB_DIR]%string s).1 = 0 ∧
  ∃ before,
    (run ["p11ne-cli"; "start"]%string before).1 = 0 ∧
    (prepare_test_env s).2 = (run ["p11ne-cli"; "start"]%string before).2.
Proof.
  revert Hret. rewrite prepare_test_env_steps. cbv zeta.
  set (mk := run ["mkdir"; "-p"; KEY_DB_DIR]%string s).
  set (start := run ["p11ne-cli"; "start"]%string mk.2).
  set (stop := run ["p11ne-cli"; "stop"]%string start.2).
  set (restart := run ["p11ne-cli"; "start"]%string stop.2).
  destruct (Z.eqb_spec mk.1 0) as [Hm|Hm]; cbn [negb]; [|done].
  destruct (Z.eqb_spec start.1 0) as [Hs|Hs].
  { intros [= <-]. split_and!; [done..|]. by exists mk.2. }
  destruct (Z.eqb_spec stop.1 0) as [Hp|Hp]; cbn [negb]; [|done].
  destruct (Z.eqb_spec restart.1 0) as [Hr|Hr]; cbn [negb]; [|done].
  intros [= <-]. split_and!; [done..|]. by exists stop.2.
Qed.

(** X19 — [help] runs no test.  With [help] as its command the group of
    [main] prints the usage text and touches neither the file store nor the
    ledger.  Called as [help] alone it returns 0 without a summary; with
    more words after [help] the words are ignored, but the summary is
    printed and the group exits with 2 when the fail counter it started
    with is not 0. *)
Theorem help_runs_no_test (rest : list string) (s : shell_state) :
  let group := main_group ("help"%string :: rest) s in
  group.2 = set_prng_seed (dec RANDOM) s ∧
  match group.1 with
  | Returned status => status = 0 ∧ (rest = [] ∨ num_tests_failed s = 0)
  | Exited code => code = EXIT_CODE_FAILED_TESTS ∧ rest ≠ [] ∧ num_tests_failed s ≠ 0
  end.
Proof.
  cbv zeta.
  assert (main_group ("help"%string :: rest) s
          = (if decide (rest = []) then Returned 0
             else if num_tests_failed s =? 0 then Returned 0
                  else Exited EXIT_CODE_FAILED_TESTS,
             set_prng_seed (dec RANDOM) s)) as ->.
  { unfold main_group, dispatch. cbn [hd]. rewrite decide_True by done.
    rewrite bind_set. unfold cmd_help. rewrite bind_lift. unfold echo at 1, ret at 1.
    cbn [fst snd].
    destruct rest as [|w rest].
    - by rewrite !decide_True by done.
    - rewrite decide_False.
      2:{ change (String.concat " " ("help"%string :: w :: rest))
            with ("help" +:+ " " +:+ String.concat " " (w :: rest)).
          intros E. apply (f_equal String.length) in E.
          rewrite !length_string_app in E. simpl in E. lia. }
      rewrite decide_False by done.
      rewrite bind_lift. unfold echo, ret. cbv beta. cbn [fst snd].
      change (num_tests_failed (set_prng_seed (dec RANDOM) s)) with (num_tests_failed s).
      by destruct (num_tests_failed s =? 0). }
  cbn [fst snd]. split; [done|].
  destruct (decide (rest = [])) as [->|Hrest]; [by split; [|left]|].
  destruct (Z.eqb_spec (num_tests_failed s) 0); [by split; [|right]|done].
Qed.

(** ** The certificate chains *)

Lemma drop_prefix_app cwd name : drop_prefix cwd (cwd +:+ name) = Some name.
Proof.
  induction cwd as [|c cwd IH]; [by destruct name|].
  change (String c cwd +:+ name) with (String c (cwd +:+ name)).
  cbn [drop_prefix]. by rewrite Ascii.eqb_refl.
Qed.

Lemma removed_here cwd patterns names name b :
  existsb (λ p, glob_star p.1 p.2 (first_component name)) patterns
  || bool_decide (first_component name ∈ names) = b →
  removed cwd patterns names (cwd +:+ name) = b.
Proof. unfold removed. by rewrite drop_prefix_app. Qed.

Lemma lookup_builtin argv s k : files (builtin argv s).2 !! k = files s !! k.
Proof. done. Qed.

Lemma lookup_cp a b s k :
  files (cp a b s).2 !! k
  = if decide (k = b)
    then match files s !! a with Some x => Some x | None => files s !! b end
    else files s !! k.
Proof.
  unfold cp. destruct (files s !! a) as [x|] eqn:Ha; simpl.
  - destruct (decide (a = b)) as [->|Hab]; simpl.
    + by case_decide as E; [subst|].
    + case_decide as E; [subst; apply lookup_insert_eq|by apply lookup_insert_ne].
  - by case_decide as E; [subst|].
Qed.

Lemma lookup_cat_to inputs out s k :
  files (cat_to inputs out s).2 !! k
  = if decide (k = out)
    then Some (concat (omap (λ f, files s !! f) inputs))
    else files s !! k.
Proof.
  unfold cat_to. simpl. case_decide as E.
  - subst. rewrite lookup_insert_eq. do 2 f_equal.
    induction inputs as [|f inputs IH]; [done|]. csimpl.
    destruct (files s !! f); simpl; by rewrite IH.
  - by apply lookup_insert_ne.
Qed.

Lemma lookup_rm_rf cwd patterns names s k :
  files (rm_rf cwd patterns names s).2 !! k
  = if removed cwd patterns names k then None else files s !! k.
Proof.
  unfold rm_rf. simpl. rewrite map_lookup_filter.
  destruct (files s !! k) as [x|]; simpl; [|by destruct (removed _ _ _ _)].
  destruct (removed cwd patterns names k); by case_guard.
Qed.

Lemma concat_omap_cons {A B} (g : A → option (list B)) x l :
  concat (omap g (x :: l)) = default [] (g x) ++ concat (omap g l).
Proof. csimpl. by destruct (g x). Qed.

Lemma files_only_cat_to inputs out : files_only (cat_to inputs out).
Proof. intros s. apply same_shell_set_files. Qed.

Lemma files_only_rm_rf cwd patterns names : files_only (rm_rf cwd patterns names).
Proof. intros s. apply same_shell_set_files. Qed.

Lemma files_only_builtin argv : files_only (builtin argv).
Proof. intros s. apply same_shell_refl. Qed.

Lemma files_only_create_test_certs_steps cwd : files_only (create_test_certs_steps cwd).
Proof.
  unfold create_test_certs_steps, create_test_certs_generate, create_test_certs_combine.
  cbv zeta.
  repeat first [ apply files_only_then | apply files_only_run | apply files_only_cp
               | apply files_only_cat_to | apply files_only_rm_rf
               | apply files_only_builtin ].
Qed.

Ltac certs_step cwd :=
  first
    [ rewrite decide_True by reflexivity
    | rewrite decide_False
        by (let E := fresh in
            intros E; apply (inj (String.append cwd)) in E; vm_compute in E; discriminate)
    | rewrite (removed_here cwd _ _ _ false) by (vm_compute; reflexivity)
    | rewrite (removed_here cwd _ _ _ true) by (vm_compute; reflexivity)
    | rewrite lookup_builtin
    | rewrite lookup_rm_rf
    | rewrite lookup_cat_to
    | rewrite lookup_cp
    | rewrite concat_omap_cons
    | progress cbv beta ].

Ltac certs_tac cwd := repeat certs_step cwd.

(** X20 — The test certificates.  Whatever openssl made in the first half of
    [create_test_certs], the second half leaves, in the directory it runs
    in: a chain file without root that holds the leaf certificate, the
    second intermediate and the first, in this order (those of them that
    exist); a valid chain that holds the same followed by the root
    certificate; an invalid chain that holds the leaf, the unrelated
    self-signed certificate and the root; the root certificate and key as
    the self-signed pair; and the leaf key as the key of each chain.  The
    fifteen files of the first half are removed, and the ledger and the
    variables are untouched. *)
Theorem create_test_certs_chains (cwd : string) (s : shell_state) :
  let made := (create_test_certs_generate s).2 in
  let final := (create_test_certs_steps cwd s).2 in
  let here (name : string) := cwd +:+ name in
  let cert (name : string) := files made !! here (name +:+ "_cert.pem") in
  let key (name : string) := files made !! here (name +:+ "_key.pem") in
  let chain names := Some (concat (omap cert names)) in
  let copied (source : option (list byte)) (target : string) :=
    match source with Some x => Some x | None => files made !! here target end in
  (files final !! here "noroot_chain_cert.pem"
   = chain ["leaf"; "intermediate_02"; "intermediate_01"]%string ∧
   files final !! here "valid_chain_cert.pem"
   = chain ["leaf"; "intermediate_02"; "intermediate_01"; "root_ca"]%string ∧
   files final !! here "invalid_chain_cert.pem"
   = chain ["leaf"; "combo_breaker"; "root_ca"]%string) ∧
  (files final !! here "selfsigned_cert.pem"
   = copied (cert "root_ca"%string) "selfsigned_cert.pem" ∧
   files final !! here "selfsigned_key.pem"
   = copied (key "root_ca"%string) "selfsigned_key.pem" ∧
   files final !! here "noroot_chain_key.pem"
   = copied (key "leaf"%string) "noroot_chain_key.pem" ∧
   files final !! here "valid_chain_key.pem"
   = copied (key "leaf"%string) "valid_chain_key.pem" ∧
   files final !! here "invalid_chain_key.pem"
   = copied (key "leaf"%string) "invalid_chain_key.pem") ∧
  Forall (λ name, files final !! here name = None)
    ["root_ca.csr"; "root_ca_key.pem"; "root_ca_cert.pem";
     "intermediate_01.csr"; "intermediate_01_key.pem"; "intermediate_01_cert.pem";
     "intermediate_02.csr"; "intermediate_02_key.pem"; "intermediate_02_cert.pem";
     "leaf.csr"; "leaf_key.pem"; "leaf_cert.pem";
     "combo_breaker.csr"; "combo_breaker_key.pem"; "combo_breaker_cert.pem"]%string ∧
  same_shell s final.
Proof.
  intros made final here cert key chain copied.
  subst final. unfold create_test_certs_steps. unfold then_ at 1. fold made.
  split_and!.
  1-8: unfold create_test_certs_combine, then_, here, chain, copied, cert, key;
       cbv zeta; certs_tac cwd; reflexivity.
  - unfold create_test_certs_combine, then_, here. cbv zeta.
    repeat constructor; certs_tac cwd; reflexivity.
  - apply files_only_create_test_certs_steps.
Qed.

End Properties.

(** * The statements at concrete inputs *)

Section FailingRuns.
#[local] Existing Instance failing_env.

(** The ledger of a run that stops at a word that is no option. *)
Lemma ledger_invariant_witness :
  ledger_ok (initial_state ∅) ∧ room 744 (initial_state ∅) ∧
  ledger_ok (cmd_openssl ["--bogus"]%string (initial_state ∅)).2.
Proof.
  assert (ledger_ok (initial_state ∅)) as Hok by (split; reflexivity).
  assert (room 744 (initial_state ∅)) as Hroom by reflexivity.
  assert (files_only (ret 0)) as Hc by (intros s; repeat split; reflexivity).
  split; [exact Hok|]. split; [exact Hroom|].
  exact (proj1 (proj1 (proj2 (proj2
    (ledger_invariant "t" 0 ["--bogus"]%string (ret 0)
       (initial_state ∅) Hok Hroom Hc))))).
Defined.

(** A case whose Subject generating operation fails: the steps after it do
    not run and the case is reported FAILED. *)
Lemma case_failure_stays_in_case_witness :
  report (test_openssl_digestsignverify_rsa 0 "rsa1024" "sha1"
            (initial_state ∅)).2
  = [("test_openssl_digestsignverify_rsa_rsa1024__sha1"%string, FAILED)].
Proof.
  pose (d := "tests/results/signverify/rsa_pkcs/rsa1024/test_openssl_digestsignverify_rsa_rsa1024__sha1"%string).
  pose (s2 := (testtemplate_setup "test_openssl_digestsignverify_rsa"
                 "signverify/rsa_pkcs/rsa1024" 0 "rsa1024" ["sha1"]%string
                 (initial_state ∅)).2).
  pose (pre := steps_input create_test_random_file 0 d
               ++ [echo "PKCS library - generate"]).
  refine (proj1 (proj2
    (case_failure_stays_in_case
       "test_openssl_digestsignverify_rsa" "signverify/rsa_pkcs/rsa1024"
       openssl_pkcs_digestsign_rsa openssl_ref_digestsign_rsa
       openssl_pkcs_digestverify_rsa openssl_ref_digestverify_rsa
       check_outfiles_diff create_test_random_file
       0 "rsa1024" ["sha1"]%string (initial_state ∅)
       "test_openssl_digestsignverify_rsa_rsa1024__sha1" d s2 (and_list pre s2).2
       pre
       (skipn 4 (testtemplate_steps
                   openssl_pkcs_digestsign_rsa openssl_ref_digestsign_rsa
                   openssl_pkcs_digestverify_rsa openssl_ref_digestverify_rsa
                   check_outfiles_diff create_test_random_file
                   0 "rsa1024" ["sha1"]%string d))
       (openssl_pkcs_digestsign_rsa "rsa1024" (inputpath d)
          (pkcs_out_path d) ["sha1"]%string)
       providers_ok_digestsignverify_rsa _ _ _ _ _ _))).
  - split; reflexivity.
  - reflexivity.
  - vm_compute. reflexivity.
  - reflexivity.
  - vm_compute. reflexivity.
  - vm_compute. discriminate.
Defined.

(** C3 — What the process exits with, evaluated in an environment whose
    openssl fails.  A run of the openssl test set reports 741 failed cases
    and the group of [main] ends with [exit 2]; the group is the first
    command of a pipeline into [tee], so the process exits with the status
    of [tee], which is 0.  The same happens to the [exit 1] of an invalid
    option of the test set.  A call without any argument, or with a
    command the script does not define, dies before the pipeline and exits
    with 1. *)
Theorem failed_tests_exit_status :
  let args := ["openssl"; "--kms-key-id"; "k"; "--kms-region"; "r"]%string in
  let group := main_group args (initial_state ∅) in
  (group.1, num_tests_passed group.2, num_tests_failed group.2, length (report group.2))
  = (Exited EXIT_CODE_FAILED_TESTS, 3, 741, 744%nat) ∧
  testtool "tests/testtool" args ∅ = 0 ∧
  (main_group ["openssl"; "--bogus"]%string (initial_state ∅)).1 = Exited 1 ∧
  testtool "tests/testtool" ["openssl"; "--bogus"]%string ∅ = 0 ∧
  testtool "tests/testtool" [] ∅ = 1 ∧
  testtool "tests/testtool" ["bogus"]%string ∅ = 1.
Proof.
  intros args group. split_and!.
  - vm_compute. reflexivity.
  - unfold args. rewrite testtool_status_is_tee; reflexivity.
  - reflexivity.
  - rewrite testtool_status_is_tee; reflexivity.
  - reflexivity.
  - reflexivity.
Qed.

(** The three options of [provision_key], label first. *)
Lemma provisioning_options_in_any_order_witness :
  provision_key_words
    ["--key-label"; "rsa2048"; "--kms-region"; "r"; "--kms-key-id"; "k"]%string ""
    (initial_state ∅)
  = provision_key "k" "r" "rsa2048" (initial_state ∅).
Proof.
  assert ([("--key-label", "rsa2048"); ("--kms-region", "r"); ("--kms-key-id", "k")]%string
          ≡ₚ [("--kms-key-id", "k"); ("--kms-region", "r"); ("--key-label", "rsa2048")]%string)
    as Hps.
  { apply (bool_decide_unpack _). vm_compute. exact I. }
  exact (proj1 (provisioning_options_in_any_order "k" "r" "rsa2048" "" _
                  (initial_state ∅) Hps)).
Defined.

(** [provision_key] called with two words. *)
Lemma provisioning_refuses_other_words_witness :
  provision_key_words ["--key-label"; "rsa2048"]%string "" (initial_state ∅)
  = (Exited 1, initial_state ∅).
Proof.
  assert (length ["--key-label"; "rsa2048"]%string ≠ 6%nat) as Hlen by discriminate.
  exact (proj1 (proj1 (provisioning_refuses_other_words
                         ["--key-label"; "rsa2048"]%string "" (initial_state ∅)
                         (or_introl Hlen)) Hlen)).
Defined.

(** The test set stopped by a word that is no option. *)
Lemma exit_is_an_error_witness :
  (cmd_openssl ["--bogus"]%string (initial_state ∅)).1 = Exited 1 ∧ 1 ≠ 0.
Proof.
  assert ((cmd_openssl ["--bogus"]%string (initial_state ∅)).1 = Exited 1) as Hexit
    by reflexivity.
  split; [exact Hexit|].
  exact (proj1 (exit_is_an_error "tests/testtool" ["--bogus"]%string (initial_state ∅) 1)
           Hexit).
Defined.

(** The same run has logged nothing. *)
Lemma test_set_runs_its_matrix_witness :
  ∃ new,
    report (cmd_openssl ["--bogus"]%string (initial_state ∅)).2
    = report (initial_state ∅) ++ new ∧ (length new ≤ 744)%nat.
Proof.
  assert (ledger_ok (initial_state ∅)) as Hok by (split; reflexivity).
  assert (room 744 (initial_state ∅)) as Hroom by reflexivity.
  destruct (test_set_runs_its_matrix ["--bogus"]%string (initial_state ∅) Hok Hroom)
    as (new & Hr & Hlen & _).
  exists new. split; [exact Hr|exact Hlen].
Defined.

(** The one combination of the encryption matrix that is left out. *)
Lemma encryptdecrypt_skip_rule_witness :
  "rsa1024"%string = "rsa1024"%string ∧ 128 = 128.
Proof.
  assert (encryptdecrypt_rsa_skipped 128 "rsa1024" = true) as Hskip by reflexivity.
  exact (proj1 (proj1 (encryptdecrypt_skip_rule 128 "rsa1024" (initial_state ∅))) Hskip).
Defined.

(** The line of the first certificate export test. *)
Lemma result_line_columns_witness :
  String.length ("test_x509_single_cert" +:+ " " +:+ dots 48 +:+ " ") = 71%nat.
Proof.
  assert (echo_options "test_x509_single_cert" = None) as Hname by reflexivity.
  exact (proj2 (proj2 (result_line_columns "test_x509_single_cert" 0 (initial_state ∅)
                         Hname))).
Defined.

(** In this environment the enclave starts at once. *)
Lemma prepare_test_env_returns_started_witness :
  (run ["mkdir"; "-p"; KEY_DB_DIR]%string (initial_state ∅)).1 = 0.
Proof.
  assert ((prepare_test_env (initial_state ∅)).1 = Returned 0) as Hret by reflexivity.
  exact (proj1 (proj2 (prepare_test_env_returns_started (initial_state ∅) 0 Hret))).
Defined.

End FailingRuns.

Section ToyRuns.
#[local] Existing Instance sim_env.

(** A digest-sign case of 32 bytes that passes in the toy environment: both
    negative checks ran and rejected. *)
Lemma negative_path_runs_witness :
  let args := ["sha256"]%string in
  ∃ testname d s0 s1 s2,
    testtemplate_setup "test_openssl_digestsignverify_rsa"
      "signverify/rsa_pkcs/rsa2048" 32 "rsa2048" args (initial_state ∅)
    = (testname, d, s0) ∧
    and_list (steps_input create_test_random_file 32 d
              ++ steps_corrupt 32 d
              ++ steps_generate openssl_pkcs_digestsign_rsa
                   openssl_ref_digestsign_rsa "rsa2048" args d
              ++ steps_compare check_outfiles_diff args d
              ++ steps_verify openssl_pkcs_digestverify_rsa
                   openssl_ref_digestverify_rsa "rsa2048" args d) s0 = (0, s1) ∧
    (openssl_ref_digestverify_rsa "rsa2048" (corruptedinputpath d)
       (pkcs_out_path d) args s1).1 ≠ 0 ∧
    s2 = leave_subshell s1
           (openssl_ref_digestverify_rsa "rsa2048" (corruptedinputpath d)
              (pkcs_out_path d) args s1).2 ∧
    (openssl_pkcs_digestverify_rsa "rsa2048" (corruptedinputpath d)
       (ref_out_path d) args s2).1 ≠ 0.
Proof.
  intros args.
  assert (0 < 32 < 2 ^ 63) as Hsize by lia.
  assert (case_passes (test_openssl_digestsignverify_rsa 32 "rsa2048" "sha256")
            (initial_state ∅)) as Hpass.
  { exists "test_openssl_digestsignverify_rsa_rsa2048_32B_sha256"%string.
    vm_compute. reflexivity. }
  exact (proj1 (negative_path_runs
                  "test_openssl_digestsignverify_rsa" "signverify/rsa_pkcs/rsa2048"
                  openssl_pkcs_digestsign_rsa openssl_ref_digestsign_rsa
                  openssl_pkcs_digestverify_rsa openssl_ref_digestverify_rsa
                  check_outfiles_diff create_test_random_file 32 "rsa2048" args
                  (initial_state ∅))
           Hsize providers_ok_digestsignverify_rsa Hpass).
Defined.

(** Two zero bytes and their corrupted copy. *)
Lemma corruption_flips_one_bit_witness :
  let content := ["000"; "000"]%byte in
  let s := set_files <["in"%string := content]> (initial_state ∅) in
  ∃ bit corrupted s',
    0 ≤ bit < 8 * 2 ∧
    bitflip "in" "out" 0 (bash_arith (8 * 2)) s = (0, s') ∧
    files s' !! "out"%string = Some corrupted ∧
    files s' !! "in"%string = Some content ∧
    corrupted = flip_bit content bit ∧
    one_bit_apart content corrupted ∧
    corrupted ≠ content ∧
    subshell (negate (diff "in" "out")) s' = (0, s').
Proof.
  intros content s.
  assert (0 < 2 < 2 ^ 60) as Hsize by lia.
  assert (files s !! "in"%string = Some content) as Hin by reflexivity.
  assert (Z.of_nat (length content) = 2) as Hlen by reflexivity.
  assert ("in"%string ≠ "out"%string) as Hne by discriminate.
  exact (proj1 (corruption_flips_one_bit 2 "in" "out" content s
                  openssl_pkcs_digestsign_rsa openssl_ref_digestsign_rsa
                  openssl_pkcs_digestverify_rsa openssl_ref_digestverify_rsa
                  check_outfiles_diff create_test_random_file
                  "rsa2048" ["sha256"]%string "d" Hsize Hin Hlen Hne)).
Defined.

(** A digest-sign case that passes: the two signatures are the same bytes. *)
Lemma deterministic_signatures_compared_witness :
  ∃ testname test_dir s2 s1 a,
    testtemplate_setup "test_openssl_digestsignverify_rsa"
      ("signverify/rsa_pkcs/" +:+ "rsa2048") 32 "rsa2048" ["sha256"]%string
      (initial_state ∅)
    = (testname, test_dir, s2) ∧
    and_list (steps_input create_test_random_file 32 test_dir
              ++ steps_corrupt 32 test_dir
              ++ steps_generate openssl_pkcs_digestsign_rsa openssl_ref_digestsign_rsa
                   "rsa2048" ["sha256"]%string test_dir) s2 = (0, s1) ∧
    files s1 !! pkcs_out_path test_dir = Some a ∧
    files s1 !! ref_out_path test_dir = Some a.
Proof.
  assert (case_passes (test_openssl_digestsignverify_rsa 32 "rsa2048" "sha256")
            (initial_state ∅)) as Hpass.
  { exists "test_openssl_digestsignverify_rsa_rsa2048_32B_sha256"%string.
    vm_compute. reflexivity. }
  exact (proj1 (deterministic_signatures_compared 32 "rsa2048" "sha256"
                  (initial_state ∅)) Hpass).
Defined.

(** An encrypt/decrypt case that passes although the two ciphertexts
    differ in their first byte. *)
Lemma encryptdecrypt_round_trip_witness :
  ∃ testname d s2 s1 sa sb,
    testtemplate_setup "test_openssl_encryptdecrypt_rsa"
      ("encryptdecrypt/rsa_pkcs/" +:+ "rsa2048") 64 "rsa2048" [] (initial_state ∅)
    = (testname, d, s2) ∧
    and_list (steps_input create_test_random_file 64 d
              ++ steps_corrupt 64 d
              ++ steps_generate openssl_pkcs_encrypt_rsa openssl_ref_encrypt_rsa
                   "rsa2048" [] d) s2 = (0, s1) ∧
    reproduces (openssl_ref_decrypt_rsa "rsa2048" (inputpath d) (pkcs_out_path d) [])
      (inputpath d) (pkcs_out_path d +:+ ".refdecrypted") s1 sa ∧
    reproduces (openssl_pkcs_decrypt_rsa "rsa2048" (inputpath d) (ref_out_path d) [])
      (inputpath d) (ref_out_path d +:+ ".pkcsdecrypted") sa sb.
Proof.
  assert (case_passes (test_openssl_encryptdecrypt_rsa 64 "rsa2048") (initial_state ∅))
    as Hpass.
  { exists "test_openssl_encryptdecrypt_rsa_rsa2048_64B"%string.
    vm_compute. reflexivity. }
  exact (proj1 (encryptdecrypt_round_trip 64 "rsa2048" (initial_state ∅)) Hpass).
Defined.

Example encryptdecrypt_rsa_ciphertexts_differ :
  let s := (test_openssl_encryptdecrypt_rsa 64 "rsa2048" (initial_state ∅)).2 in
  let d := "tests/results/encryptdecrypt/rsa_pkcs/rsa2048/test_openssl_encryptdecrypt_rsa_rsa2048_64B"%string in
  report s = [("test_openssl_encryptdecrypt_rsa_rsa2048_64B"%string, PASSED)] ∧
  hd_error <$> files s !! pkcs_out_path d = Some (Some "001"%byte) ∧
  hd_error <$> files s !! ref_out_path d = Some (Some "002"%byte).
Proof. vm_compute. done. Qed.

(** C5, the claim as stated, fails on the raw/X.509 family: here each
    decryption reproduces the input (both decrypting wrappers return 0 on
    the counter-party's ciphertext), the two ciphertexts differ, and the
    case is reported FAILED. *)
Lemma encryptdecrypt_x509_needs_equal_ciphertexts :
  let setup := testtemplate_setup "test_openssl_encryptdecrypt_rsa_x509"
                 "encryptdecrypt/rsa_x509/rsa1024" 128 "rsa1024" [] (initial_state ∅) in
  let d := setup.1.2 in
  let generated :=
    and_list (steps_input create_test_random_file_rsax509 128 d
              ++ steps_corrupt 128 d
              ++ steps_generate openssl_pkcs_encrypt_rsax509 openssl_ref_encrypt_rsax509
                   "rsa1024" [] d) setup.2 in
  generated.1 = 0 ∧
  (openssl_ref_decrypt_rsax509 "rsa1024" (inputpath d) (pkcs_out_path d) []
     generated.2).1 = 0 ∧
  (openssl_pkcs_decrypt_rsax509 "rsa1024" (inputpath d) (ref_out_path d) []
     generated.2).1 = 0 ∧
  files generated.2 !! pkcs_out_path d ≠ files generated.2 !! ref_out_path d ∧
  report (test_openssl_encryptdecrypt_rsa_x509 128 "rsa1024" (initial_state ∅)).2
  = [(setup.1.1, FAILED)].
Proof. vm_compute. split_and!; try reflexivity. discriminate. Qed.

(** The first call of the test set that is skipped although it fits:
    RSA-1024, an empty payload, SHA-1 and a salt length of 64.  The digest
    and the salt take 84 of the 126 usable bytes. *)
Lemma rsapss_skip_ignores_digest :
  spec_rsapss_skipped "rsa1024" "64" "sha1" = false ∧
  rsapss_skipped "rsa1024" "64" = true ∧
  test_openssl_digestsignverify_rsapss 0 "rsa1024" "64" "sha1" (initial_state ∅)
  = (0, initial_state ∅).
Proof. vm_compute. done. Qed.

(** A case with an empty payload passes without corruption and negative
    path. *)
Example zero_length_case_passes :
  case_passes (test_openssl_digestsignverify_rsa 0 "rsa2048" "sha256") (initial_state ∅).
Proof.
  exists "test_openssl_digestsignverify_rsa_rsa2048_0B_sha256"%string.
  vm_compute. reflexivity.
Qed.

(** Two artifacts that differ and a salt length of 0. *)
Lemma rsapss_comparator_constant_witness :
  let s := set_files (λ _, <["a"%string := ["001"%byte]]> (<["b"%string := ["002"%byte]]> ∅))
             (initial_state ∅) in
  check_outfiles_signverify_rsapss "a" "b" ["0"; "sha256"]%string s = (0, s).
Proof.
  intros s.
  assert (is_Some (files s !! "a"%string)) as Hartifact by (eexists; reflexivity).
  exact (proj1 (rsapss_comparator_constant "a" "b" ["0"; "sha256"]%string s Hartifact)).
Defined.

(** Two plain input files of 16 bytes written from the same seed. *)
Lemma same_seed_same_input_witness :
  files (create_test_random_file "x" 16 (initial_state ∅)).2 !! "x"%string
  = files (create_test_random_file "y" 16 (initial_state ∅)).2 !! "y"%string.
Proof.
  assert (prng_seed (initial_state ∅) = prng_seed (initial_state ∅)) as Hseed
    by reflexivity.
  assert (0 < 16 < 2 ^ 60) as Hsize by lia.
  exact (proj1 (proj1 (proj2
    (same_seed_same_input [] (initial_state ∅) (initial_state ∅) (initial_state ∅)
       "x" "y" 16 Hseed Hsize)))).
Defined.

(** C9, the claim as stated, fails for two cases of one run that ask for
    256 bytes from different generators: the digest-sign case gets 256
    generated bytes, the raw-signature case the letter A and 255 generated
    bytes. *)
Lemma same_size_inputs_may_differ :
  let s0 := set_prng_seed (dec RANDOM) (initial_state ∅) in
  let s1 := (test_openssl_digestsignverify_rsa 256 "rsa2048" "sha256" s0).2 in
  let s2 := (test_openssl_signverify_rsa_x509 256 "rsa2048" s1).2 in
  let d1 := (testtemplate_setup "test_openssl_digestsignverify_rsa"
               "signverify/rsa_pkcs/rsa2048" 256 "rsa2048" ["sha256"]%string s0).1.2 in
  let d2 := (testtemplate_setup "test_openssl_signverify_rsa_x509"
               "signverify/rsa_x509/rsa2048" 256 "rsa2048" [] s1).1.2 in
  prng_seed s1 = prng_seed s0 ∧
  length <$> files s2 !! inputpath d1 = Some 256%nat ∧
  length <$> files s2 !! inputpath d2 = Some 256%nat ∧
  files s2 !! inputpath d1 ≠ files s2 !! inputpath d2.
Proof. vm_compute. split_and!; try reflexivity. discriminate. Qed.

(** The verdict of a digest-sign case of 32 bytes in the toy environment. *)
Lemma case_verdict_witness :
  report (test_openssl_digestsignverify_rsa 32 "rsa2048" "sha256" (initial_state ∅)).2
  = [("test_openssl_digestsignverify_rsa_rsa2048_32B_sha256"%string, PASSED)].
Proof.
  pose (d := "tests/results/signverify/rsa_pkcs/rsa2048/test_openssl_digestsignverify_rsa_rsa2048_32B_sha256"%string).
  pose (s2 := (testtemplate_setup "test_openssl_digestsignverify_rsa"
                 "signverify/rsa_pkcs/rsa2048" 32 "rsa2048" ["sha256"]%string
                 (initial_state ∅)).2).
  assert (testtemplate_setup "test_openssl_digestsignverify_rsa"
            "signverify/rsa_pkcs/rsa2048" 32 "rsa2048" ["sha256"]%string (initial_state ∅)
          = ("test_openssl_digestsignverify_rsa_rsa2048_32B_sha256"%string, d, s2))
    as Hsetup by (vm_compute; reflexivity).
  assert ((if (and_list (testtemplate_steps
                           openssl_pkcs_digestsign_rsa openssl_ref_digestsign_rsa
                           openssl_pkcs_digestverify_rsa openssl_ref_digestverify_rsa
                           check_outfiles_diff create_test_random_file
                           32 "rsa2048" ["sha256"]%string d) s2).1 =? 0
           then PASSED else FAILED) = PASSED) as Hmark by (vm_compute; reflexivity).
  exact (eq_trans
    (proj1 (proj2
      (case_verdict
         "test_openssl_digestsignverify_rsa" "signverify/rsa_pkcs/rsa2048"
         openssl_pkcs_digestsign_rsa openssl_ref_digestsign_rsa
         openssl_pkcs_digestverify_rsa openssl_ref_digestverify_rsa
         check_outfiles_diff create_test_random_file
         32 "rsa2048" ["sha256"]%string (initial_state ∅)
         "test_openssl_digestsignverify_rsa_rsa2048_32B_sha256" d s2
         providers_ok_digestsignverify_rsa Hsetup)))
    (f_equal (λ m, [("test_openssl_digestsignverify_rsa_rsa2048_32B_sha256"%string, m)])
       Hmark)).
Defined.

(** The six operations of the same case. *)
Lemma passed_case_trace_witness :
  ∃ testname d s2 s0 sp sr sc sa sb,
    testtemplate_setup "test_openssl_digestsignverify_rsa"
      "signverify/rsa_pkcs/rsa2048" 32 "rsa2048" ["sha256"]%string (initial_state ∅)
    = (testname, d, s2) ∧
    and_list (steps_input create_test_random_file 32 d ++ steps_corrupt 32 d) s2 = (0, s0) ∧
    openssl_pkcs_digestsign_rsa "rsa2048" (inputpath d) (pkcs_out_path d)
      ["sha256"]%string s0 = (0, sp) ∧
    openssl_ref_digestsign_rsa "rsa2048" (inputpath d) (ref_out_path d)
      ["sha256"]%string sp = (0, sr) ∧
    check_outfiles_diff (pkcs_out_path d) (ref_out_path d) ["sha256"]%string sr = (0, sc) ∧
    openssl_ref_digestverify_rsa "rsa2048" (inputpath d) (pkcs_out_path d)
      ["sha256"]%string sc = (0, sa) ∧
    openssl_pkcs_digestverify_rsa "rsa2048" (inputpath d) (ref_out_path d)
      ["sha256"]%string sa = (0, sb).
Proof.
  assert (case_passes (test_openssl_digestsignverify_rsa 32 "rsa2048" "sha256")
            (initial_state ∅)) as Hpass.
  { exists "test_openssl_digestsignverify_rsa_rsa2048_32B_sha256"%string.
    vm_compute. reflexivity. }
  exact (passed_case_trace
           "test_openssl_digestsignverify_rsa" "signverify/rsa_pkcs/rsa2048"
           openssl_pkcs_digestsign_rsa openssl_ref_digestsign_rsa
           openssl_pkcs_digestverify_rsa openssl_ref_digestverify_rsa
           check_outfiles_diff create_test_random_file 32 "rsa2048" ["sha256"]%string
           (initial_state ∅) providers_ok_digestsignverify_rsa Hpass).
Defined.

(** A raw signature case of 128 bytes that passes in the toy environment. *)
Lemma raw_signature_recovers_input_witness :
  ∃ testname d s2 s1 sa sb,
    testtemplate_setup "test_openssl_signverify_rsa_x509"
      ("signverify/rsa_x509/" +:+ "rsa1024") 128 "rsa1024" [] (initial_state ∅)
    = (testname, d, s2) ∧
    and_list (steps_input create_test_random_file_rsax509 128 d
              ++ steps_corrupt 128 d
              ++ steps_generate openssl_pkcs_sign_rsa_x509 openssl_ref_sign_rsa_x509
                   "rsa1024" [] d) s2 = (0, s1) ∧
    reproduces (openssl_ref_verify_rsa_x509 "rsa1024" (inputpath d) (pkcs_out_path d) [])
      (inputpath d) (pkcs_out_path d +:+ ".refverify") s1 sa ∧
    reproduces (openssl_pkcs_verify_rsa_x509 "rsa1024" (inputpath d) (ref_out_path d) [])
      (inputpath d) (ref_out_path d +:+ ".pkcsverify") sa sb.
Proof.
  assert (case_passes (test_openssl_signverify_rsa_x509 128 "rsa1024") (initial_state ∅))
    as Hpass.
  { exists "test_openssl_signverify_rsa_x509_rsa1024_128B"%string.
    vm_compute. reflexivity. }
  exact (raw_signature_recovers_input 128 "rsa1024" (initial_state ∅) Hpass).
Defined.

(** Two zero bytes, corrupted and corrupted again. *)
Lemma bitflip_twice_restores_witness :
  let content := ["000"; "000"]%byte in
  let s := set_files <["in"%string := content]> (initial_state ∅) in
  let once := bitflip "in" "mid" 0 (bash_arith (8 * 2)) s in
  let twice := bitflip "mid" "out" 0 (bash_arith (8 * 2)) once.2 in
  once.1 = 0 ∧ twice.1 = 0 ∧ files twice.2 !! "out"%string = Some content.
Proof.
  intros content s.
  assert (0 < 2 < 2 ^ 60) as Hsize by lia.
  assert (files s !! "in"%string = Some content) as Hin by reflexivity.
  assert (Z.of_nat (length content) = 2) as Hlen by reflexivity.
  assert ("in"%string ≠ "mid"%string) as Hcorrupted by discriminate.
  assert ("mid"%string ≠ "out"%string) as Hrestored by discriminate.
  exact (bitflip_twice_restores 2 "in" "mid" "out" content s Hsize Hin Hlen
           Hcorrupted Hrestored).
Defined.

(** The input of a corruption is left as it was. *)
Lemma bitflip_writes_output_only_witness :
  let s := set_files <["in"%string := ["000"; "000"]%byte]> (initial_state ∅) in
  files (bitflip "in" "out" 0 16 s).2 !! "in"%string = files s !! "in"%string.
Proof.
  intros s.
  assert ("in"%string ≠ "out"%string) as Hpath by discriminate.
  exact (proj1 (bitflip_writes_output_only "in" "out" "in" 0 16 s Hpath)).
Defined.

(** A raw input of four bytes. *)
Lemma rsax509_input_is_A_and_plain_input_witness :
  (create_test_random_file_rsax509 "x" 4 (initial_state ∅)).1 = 0.
Proof.
  assert (1 ≤ 4 < 2 ^ 63) as Hsize by lia.
  exact (proj1 (rsax509_input_is_A_and_plain_input "x" "y" 4 (initial_state ∅) Hsize)).
Defined.

End ToyRuns.
